(** * YouTube channel discovery: a shallow embedding of [src/main.py]

    The development follows the class [YouTubeAnalyzer]:
    - JSON-decoded Python values and the few interpreter operations the
      code applies to them ([.get], subscripting, [int], truthiness);
    - the backtracking semantics of the two [re.search] patterns of
      [extract_contact_info];
    - the two collaborator calls (search and channel metadata) as an
      environment that answers from the history of calls, with Python
      exceptions as an error monad over an explicit log and call trace;
    - [get_channel_info] and [get_channels_from_country], the latter with
      its [while] loop run on fuel;
    - [get_channel_statistics], and [__init__], [save_to_json] and [main]
      over a host that holds the environment and the file system.

    Model boundaries.  A Python [str] is the sequence of its code points,
    and code points are taken below 256 (type [ascii]).  JSON numbers with
    a fraction (Python [float]) are left out of the value type.  What the
    collaborators raise is a subclass of [Exception].  The interpreter's
    limit on the number of digits [int] converts is not modelled.  Paths
    are joined as on a POSIX system, and a file is the one named by its
    path as a string; of a writing that fails, the file is known to hold a
    beginning of the document and no more.  The configuration of [logging]
    made when the module is loaded is outside the model: the log is the
    list of the lines handed to it. *)

From Stdlib Require Import String Ascii List ZArith Lia Bool Arith.
From Stdlib Require Import DecimalString.
Import ListNotations.
Open Scope string_scope.
Open Scope Z_scope.

Set Implicit Arguments.
Set Warnings "-register-all".

(* ================================================================== *)
(** ** Python values *)
(* ================================================================== *)

(** What [json] decoding hands to the program. A dict is an association
    list, looked up from the left. *)
Inductive pyval : Type :=
| PNone
| PBool (b : bool)
| PInt (z : Z)
| PStr (s : string)
| PList (l : list pyval)
| PDict (d : list (string * pyval)).

(** The hashable values among them: what can be a member of a [set]. *)
Inductive hval : Type :=
| HNone
| HBool (b : bool)
| HInt (z : Z)
| HStr (s : string).

(** Exceptions. The first two are raised by the API client; the others by
    the interpreter on a value of the wrong shape. *)
Inductive exn : Type :=
| HttpError (message : string)
| ClientError (message : string)
| KeyError
| IndexError
| TypeError
| ValueError
| AttributeError.

Inductive result (A : Type) : Type :=
| Ok (a : A)
| Raise (e : exn).
Arguments Ok {A} a.
Arguments Raise {A} e.

Definition rbind {A B} (r : result A) (f : A -> result B) : result B :=
  match r with
  | Ok a => f a
  | Raise e => Raise e
  end.

(** [hash(v)]: lists and dicts are unhashable. *)
Definition py_hash (v : pyval) : result hval :=
  match v with
  | PNone => Ok HNone
  | PBool b => Ok (HBool b)
  | PInt z => Ok (HInt z)
  | PStr s => Ok (HStr s)
  | PList _ | PDict _ => Raise TypeError
  end.

(** [a == b] on hashable values: [True == 1] and [False == 0]. *)
Definition hval_eqb (a b : hval) : bool :=
  match a, b with
  | HNone, HNone => true
  | HStr s, HStr t => String.eqb s t
  | HBool x, HBool y => Bool.eqb x y
  | HInt x, HInt y => Z.eqb x y
  | HBool x, HInt y | HInt y, HBool x => Z.eqb (if x then 1 else 0) y
  | _, _ => false
  end.

(** [x in s] for a set kept as the list of its members. *)
Definition set_mem (x : hval) (s : list hval) : bool :=
  existsb (hval_eqb x) s.

(** [str(v)] inside an f-string. *)
Definition py_str (h : hval) : string :=
  match h with
  | HNone => "None"
  | HBool true => "True"
  | HBool false => "False"
  | HInt z => NilZero.string_of_int (Z.to_int z)
  | HStr s => s
  end.

(** [bool(v)]. *)
Definition truthy (v : pyval) : bool :=
  match v with
  | PNone => false
  | PBool b => b
  | PInt z => negb (Z.eqb z 0)
  | PStr s => negb (String.eqb s "")
  | PList l => match l with [] => false | _ => true end
  | PDict d => match d with [] => false | _ => true end
  end.

Fixpoint lookup (k : string) (d : list (string * pyval)) : option pyval :=
  match d with
  | [] => None
  | (k', v) :: d' => if String.eqb k k' then Some v else lookup k d'
  end.

(** [v.get(k, default)]: only a dict has the method. *)
Definition method_get (v : pyval) (k : string) (default : pyval) : result pyval :=
  match v with
  | PDict d => Ok (match lookup k d with Some x => x | None => default end)
  | _ => Raise AttributeError
  end.

(** [v[k]] with a string key. *)
Definition subscript_str (v : pyval) (k : string) : result pyval :=
  match v with
  | PDict d => match lookup k d with Some x => Ok x | None => Raise KeyError end
  | _ => Raise TypeError
  end.

(** [v[0]]. The keys of a decoded dict are strings, so [0] is never one. *)
Definition subscript_0 (v : pyval) : result pyval :=
  match v with
  | PList l => match l with x :: _ => Ok x | [] => Raise IndexError end
  | PStr s => match s with
              | String c _ => Ok (PStr (String c EmptyString))
              | EmptyString => Raise IndexError
              end
  | PDict _ => Raise KeyError
  | _ => Raise TypeError
  end.

(** The items a [for] loop draws from [v]. *)
Definition py_iter (v : pyval) : result (list pyval) :=
  match v with
  | PList l => Ok l
  | PStr s => Ok (map (fun c => PStr (String c EmptyString)) (list_ascii_of_string s))
  | PDict d => Ok (map (fun kv => PStr (fst kv)) d)
  | _ => Raise TypeError
  end.

(* ================================================================== *)
(** ** Character classes *)
(* ================================================================== *)

Definition code (c : ascii) : N := N_of_ascii c.

Definition in_range (lo hi : N) (c : ascii) : bool :=
  (N.leb lo (code c) && N.leb (code c) hi)%bool.

Definition is_digit (c : ascii) : bool := in_range 48 57 c.
Definition is_upper (c : ascii) : bool := in_range 65 90 c.
Definition is_lower (c : ascii) : bool := in_range 97 122 c.
Definition is_alnum (c : ascii) : bool :=
  (is_upper c || is_lower c || is_digit c)%bool.

Definition one_of (s : string) (c : ascii) : bool :=
  existsb (Ascii.eqb c) (list_ascii_of_string s).

(** [str.isspace] below 256: TAB..CR, FS..US, space, NEL, NBSP. *)
Definition is_space (c : ascii) : bool :=
  (in_range 9 13 c || in_range 28 32 c
   || N.eqb (code c) 133 || N.eqb (code c) 160)%bool.

(** [\w] below 256: alphanumeric or underscore; above 127 the letters,
    superscript digits and vulgar fractions of Latin-1. *)
Definition is_word (c : ascii) : bool :=
  (is_alnum c || N.eqb (code c) 95
   || N.eqb (code c) 170 || N.eqb (code c) 181 || N.eqb (code c) 186
   || in_range 178 179 c || N.eqb (code c) 185 || in_range 188 190 c
   || in_range 192 214 c || in_range 216 246 c || in_range 248 255 c)%bool.

(* ================================================================== *)
(** ** [int(v)] *)
(* ================================================================== *)

(** The whitespace [int] strips: TAB..CR and space, and the spaces above
    127 (NEL, NBSP); unlike [str.isspace], not FS..US. *)
Definition is_int_space (c : ascii) : bool :=
  (in_range 9 13 c || N.eqb (code c) 32
   || N.eqb (code c) 133 || N.eqb (code c) 160)%bool.

Fixpoint lstrip (l : list ascii) : list ascii :=
  match l with
  | c :: l' => if is_int_space c then lstrip l' else l
  | [] => []
  end.

Definition strip (l : list ascii) : list ascii :=
  rev (lstrip (rev (lstrip l))).

(** Decimal digits, a single underscore allowed between two digits.
    [sep] says that a digit must come next. *)
Fixpoint digits_value (acc : Z) (sep : bool) (l : list ascii) : option Z :=
  match l with
  | [] => if sep then None else Some acc
  | c :: l' =>
      if is_digit c
      then digits_value (acc * 10 + (Z.of_N (code c) - 48)) false l'
      else if (Ascii.eqb c "_" && negb sep)%bool
           then digits_value acc true l'
           else None
  end.

Definition parse_int (s : string) : option Z :=
  match strip (list_ascii_of_string s) with
  | "-"%char :: l => option_map Z.opp (digits_value 0 true l)
  | "+"%char :: l => digits_value 0 true l
  | l => digits_value 0 true l
  end.

Definition py_int (v : pyval) : result Z :=
  match v with
  | PInt z => Ok z
  | PBool b => Ok (if b then 1 else 0)
  | PStr s => match parse_int s with Some z => Ok z | None => Raise ValueError end
  | PNone | PList _ | PDict _ => Raise TypeError
  end.

(* ================================================================== *)
(** ** Regular expressions: the backtracking search of [re] *)
(* ================================================================== *)

(** The constructs the two patterns use. Repetition is of a character
    class, greedy, as in [[...]+] and [[...]{2,7}]. *)
Inductive regex : Type :=
| Lit (s : string)                                  (* literal text *)
| Cat (r1 r2 : regex)                               (* r1 r2 *)
| Alt (r1 r2 : regex)                               (* r1|r2 *)
| Opt (r : regex)                                   (* (?:r)? *)
| Rep (cls : ascii -> bool) (lo : nat) (hi : option nat)   (* [cls]{lo,hi} *)
| NotAhead (r : regex)                              (* (?!r) *)
| WordB.                                            (* \b *)

Fixpoint strip_prefix (p s : list ascii) : option (list ascii) :=
  match p, s with
  | [], _ => Some s
  | a :: p', b :: s' => if Ascii.eqb a b then strip_prefix p' s' else None
  | _ :: _, [] => None
  end.

Definition last_char (prev : option ascii) (l : list ascii) : option ascii :=
  match rev l with
  | c :: _ => Some c
  | [] => prev
  end.

Definition wordish (c : option ascii) : bool :=
  match c with Some x => is_word x | None => false end.

(** [\b]: exactly one side of the position is a word character. *)
Definition at_boundary (prev : option ascii) (s : list ascii) : bool :=
  xorb (wordish prev) (wordish (hd_error s)).

Definition under (hi : option nat) : bool :=
  match hi with Some O => false | _ => true end.

Definition dec (hi : option nat) : option nat :=
  option_map Nat.pred hi.

Section Matcher.
(** The answer of a successful match: what the continuation makes of
    the position where the match ends. *)
Variable R : Type.

(** A position is the character before it ([None] at the start of the
    text) and the text after it. *)
Definition cont : Type := option ascii -> list ascii -> option R.

(** Greedy repetition: take one more character of the class while the
    bound allows, and fall back to stopping here when the rest fails. *)
Fixpoint rep (cls : ascii -> bool) (lo : nat) (hi : option nat)
         (prev : option ascii) (s : list ascii) (k : cont) : option R :=
  let stop := match lo with O => k prev s | S _ => None end in
  match s with
  | c :: s' =>
      if (cls c && under hi)%bool
      then match rep cls (Nat.pred lo) (dec hi) (Some c) s' k with
           | Some x => Some x
           | None => stop
           end
      else stop
  | [] => stop
  end.

End Matcher.

(** The matcher proper, in continuation-passing style: [k] is tried at
    every position where [r] can end, in the order of preference of the
    engine, and the first answer wins. *)
Fixpoint bt (R : Type) (r : regex) (prev : option ascii) (s : list ascii)
         (k : cont R) : option R :=
  match r with
  | Lit t =>
      match strip_prefix (list_ascii_of_string t) s with
      | Some s' => k (last_char prev (list_ascii_of_string t)) s'
      | None => None
      end
  | Cat r1 r2 => bt r1 prev s (fun p' s' => bt r2 p' s' k)
  | Alt r1 r2 =>
      match bt r1 prev s k with
      | Some x => Some x
      | None => bt r2 prev s k
      end
  | Opt r1 =>
      match bt r1 prev s k with
      | Some x => Some x
      | None => k prev s
      end
  | Rep cls lo hi => rep cls lo hi prev s k
  | NotAhead r1 =>
      match bt r1 prev s (fun _ _ => Some tt) with
      | Some _ => None
      | None => k prev s
      end
  | WordB => if at_boundary prev s then k prev s else None
  end.

(** A match anchored at the position: the text it consumes. *)
Definition match_here (r : regex) (prev : option ascii) (s : list ascii)
  : option (list ascii) :=
  match bt r prev s (fun _ rest => Some rest) with
  | Some rest => Some (firstn (length s - length rest) s)
  | None => None
  end.

(** [re.search]: the match at the leftmost position that has one. *)
Fixpoint search_from (r : regex) (prev : option ascii) (s : list ascii)
  : option (list ascii) :=
  match match_here r prev s with
  | Some m => Some m
  | None =>
      match s with
      | c :: s' => search_from r (Some c) s'
      | [] => None
      end
  end.

(** [m = re.search(r, text)] followed by [m.group(0)]. *)
Definition re_search (r : regex) (text : string) : option string :=
  option_map string_of_list_ascii
             (search_from r None (list_ascii_of_string text)).

(* ================================================================== *)
(** ** [extract_contact_info] *)
(* ================================================================== *)

(** [[A-Za-z0-9._%+-]] *)
Definition email_local (c : ascii) : bool :=
  (is_alnum c || one_of "._%+-" c)%bool.
(** [[A-Za-z0-9.-]] *)
Definition email_domain (c : ascii) : bool :=
  (is_alnum c || one_of ".-" c)%bool.
(** [[A-Z|a-z]]: the bar is a member of the class. *)
Definition email_tld (c : ascii) : bool :=
  (is_upper c || Ascii.eqb c "|" || is_lower c)%bool.
(** Any character but whitespace, the two angle brackets and the double
    quote: the class that ends the website pattern. *)
Definition url_char (c : ascii) : bool :=
  negb (is_space c || one_of "<>" c || N.eqb (code c) 34)%bool.

(** [\b[A-Za-z0-9._%+-]+@[A-Za-z0-9.-]+\.[A-Z|a-z]{2,7}\b] *)
Definition email_pattern : regex :=
  Cat WordB
 (Cat (Rep email_local 1 None)
 (Cat (Lit "@")
 (Cat (Rep email_domain 1 None)
 (Cat (Lit ".")
 (Cat (Rep email_tld 2 (Some 7%nat))
      WordB))))).

(** [https?://(?:www\.)?(?!youtube\.com|youtu\.be)] followed by one or
    more characters of the class above. *)
Definition website_pattern : regex :=
  Cat (Lit "http")
 (Cat (Opt (Lit "s"))
 (Cat (Lit "://")
 (Cat (Opt (Lit "www."))
 (Cat (NotAhead (Alt (Lit "youtube.com") (Lit "youtu.be")))
      (Rep url_char 1 None))))).

Record contact : Type := { email : string; website : string }.

Definition extract_contact_info (description : string) : contact :=
  let email := re_search email_pattern description in
  let website := re_search website_pattern description in
  {| email := match email with Some m => m | None => "N/A" end;
     website := match website with Some m => m | None => "N/A" end |}.

(* ================================================================== *)
(** ** The collaborators, the log and the monad *)
(* ================================================================== *)

(** A request sent to the platform: [search().list(...).execute()] with
    its region code (the other arguments are constants of the source), or
    [channels().list(..., id=...).execute()]. *)
Inductive call : Type :=
| SearchList (regionCode : string)
| ChannelsList (id : hval).

Inductive level : Type := INFO | WARNING | ERROR.

(** A line of the log: the text the f-string builds up to [str(e)], and
    the exception whose text ends it. *)
Record entry : Type := { lvl : level; text : string; cause : option exn }.

(** What a run leaves behind, newest first. *)
Record state : Type := { calls : list call; log : list entry }.

Definition initial : state := {| calls := []; log := [] |}.

(** The platform: every request is answered, by a decoded response or by
    an exception, from the requests made before it. *)
Record World : Type := {
  search_execute : list call -> string -> result pyval;
  channels_execute : list call -> hval -> result pyval
}.

Definition M (A : Type) : Type := state -> result A * state.

Definition ret {A} (a : A) : M A := fun st => (Ok a, st).

Definition bind {A B} (m : M A) (f : A -> M B) : M B :=
  fun st =>
    match m st with
    | (Ok a, st') => f a st'
    | (Raise e, st') => (Raise e, st')
    end.

Definition lift {A} (r : result A) : M A := fun st => (r, st).

(** [try: m except Exception as e: h e]. *)
Definition try_except {A} (m : M A) (h : exn -> M A) : M A :=
  fun st =>
    match m st with
    | (Ok a, st') => (Ok a, st')
    | (Raise e, st') => h e st'
    end.

Declare Scope py_scope.
Delimit Scope py_scope with py.
Notation "x <- m ;; k" := (bind m (fun x => k))
  (at level 100, m at next level, right associativity) : py_scope.
Notation "m ;;; k" := (bind m (fun _ => k))
  (at level 100, right associativity) : py_scope.
Notation "x <~ r ;; k" := (rbind r (fun x => k))
  (at level 100, r at next level, right associativity) : py_scope.
Open Scope py_scope.

Definition logging (l : level) (t : string) (c : option exn) : M unit :=
  fun st =>
    (Ok tt, {| calls := calls st;
               log := {| lvl := l; text := t; cause := c |} :: log st |}).

Definition search_list (w : World) (regionCode : string) : M pyval :=
  fun st =>
    (search_execute w (calls st) regionCode,
     {| calls := SearchList regionCode :: calls st; log := log st |}).

Definition channels_list (w : World) (id : hval) : M pyval :=
  fun st =>
    (channels_execute w (calls st) id,
     {| calls := ChannelsList id :: calls st; log := log st |}).

(* ================================================================== *)
(** ** [get_channel_info] *)
(* ================================================================== *)

(** The body of the [try]. *)
Definition get_channel_info_try (w : World) (channel_id : hval) : M pyval :=
  response <- channels_list w channel_id ;;
  items <- lift (method_get response "items" PNone) ;;
  if negb (truthy items) then
    logging WARNING ("No information found for channel " ++ py_str channel_id) None ;;;
    ret (PDict [])
  else
    items <- lift (subscript_str response "items") ;;
    channel_data <- lift (subscript_0 items) ;;
    snippet <- lift (subscript_str channel_data "snippet") ;;
    statistics <- lift (subscript_str channel_data "statistics") ;;
    count <- lift (method_get statistics "subscriberCount" (PInt 0)) ;;
    subscriber_count <- lift (py_int count) ;;
    if subscriber_count >? 50000 then ret (PDict [])
    else
      title <- lift (method_get snippet "title" PNone) ;;
      description <- lift (method_get snippet "description" (PStr "")) ;;
      country <- lift (method_get snippet "country" (PStr "N/A")) ;;
      publishedAt <- lift (method_get snippet "publishedAt" PNone) ;;
      customUrl <- lift (method_get snippet "customUrl"
                     (PStr ("https://youtube.com/channel/" ++ py_str channel_id))) ;;
      ret (PDict [("title", title); ("description", description);
                  ("country", country); ("publishedAt", publishedAt);
                  ("customUrl", customUrl); ("statistics", statistics)]).

(** The two handlers: [except HttpError] comes first. *)
Definition get_channel_info_except (channel_id : hval) (e : exn) : M pyval :=
  match e with
  | HttpError _ =>
      logging ERROR ("HTTP error getting channel info for "
                       ++ py_str channel_id ++ ": ") (Some e) ;;;
      ret (PDict [])
  | _ =>
      logging ERROR ("Error getting channel info for "
                       ++ py_str channel_id ++ ": ") (Some e) ;;;
      ret (PDict [])
  end.

Definition get_channel_info (w : World) (channel_id : hval) : M pyval :=
  try_except (get_channel_info_try w channel_id)
             (get_channel_info_except channel_id).

(* ================================================================== *)
(** ** [get_channels_from_country] *)
(* ================================================================== *)

(** The dict appended to [channels], with its ten keys. *)
Record ChannelRecord : Type := {
  channelId : hval;
  name : pyval;
  url : pyval;
  country : pyval;
  createDate : pyval;
  subscribers : Z;
  totalViews : Z;
  totalVideos : Z;
  rec_email : string;
  rec_website : string
}.

(** [extract_contact_info(d)] on a value: [re.search] wants a [str]. *)
Definition call_extract_contact_info (d : pyval) : result contact :=
  match d with
  | PStr s => Ok (extract_contact_info s)
  | _ => Raise TypeError
  end.

(** The block under [if channel_info:]: the record made of it, the
    expressions evaluated in the order of the source. *)
Definition shape_record (channel_id : hval) (channel_info : pyval)
  : result ChannelRecord :=
  description <~ method_get channel_info "description" (PStr "") ;;
  contact_info <~ call_extract_contact_info description ;;
  statistics <~ method_get channel_info "statistics" (PDict []) ;;
  r_name <~ method_get channel_info "title" (PStr "N/A") ;;
  r_url <~ method_get channel_info "customUrl" PNone ;;
  r_country <~ method_get channel_info "country" (PStr "N/A") ;;
  r_date <~ method_get channel_info "publishedAt" (PStr "N/A") ;;
  c1 <~ method_get statistics "subscriberCount" (PInt 0) ;;
  r_subscribers <~ py_int c1 ;;
  c2 <~ method_get statistics "viewCount" (PInt 0) ;;
  r_views <~ py_int c2 ;;
  c3 <~ method_get statistics "videoCount" (PInt 0) ;;
  r_videos <~ py_int c3 ;;
  Ok {| channelId := channel_id;
        name := r_name;
        url := r_url;
        country := r_country;
        createDate := r_date;
        subscribers := r_subscribers;
        totalViews := r_views;
        totalVideos := r_videos;
        rec_email := email contact_info;
        rec_website := website contact_info |}.

(** The variables of the loops: the list [channels], in the order of
    appending, and the set [seen_channels]. *)
Definition vars : Type := (list ChannelRecord * list hval)%type.

Definition full (channels : list ChannelRecord) : bool :=
  (50 <=? length channels)%nat.

(** [for item in items: ...]: [continue] goes to the next item, [break]
    leaves the loop. *)
Fixpoint for_items (w : World) (items : list pyval)
         (channels : list ChannelRecord) (seen_channels : list hval) : M vars :=
  match items with
  | [] => ret (channels, seen_channels)
  | item :: rest =>
      snippet <- lift (subscript_str item "snippet") ;;
      id <- lift (subscript_str snippet "channelId") ;;
      channel_id <- lift (py_hash id) ;;
      if set_mem channel_id seen_channels then
        for_items w rest channels seen_channels
      else
        let seen_channels := channel_id :: seen_channels in
        channel_info <- get_channel_info w channel_id ;;
        channels <- (if truthy channel_info
                     then r <- lift (shape_record channel_id channel_info) ;;
                          ret (channels ++ [r])%list
                     else ret channels) ;;
        if full channels then ret (channels, seen_channels)
        else for_items w rest channels seen_channels
  end.

(** One turn of [while len(channels) < 50]: the request, always the same,
    and the loop over what it returns. *)
Definition while_body (w : World) (country_code : string)
           (channels : list ChannelRecord) (seen_channels : list hval) : M vars :=
  response <- search_list w country_code ;;
  items <- lift (method_get response "items" (PList [])) ;;
  items <- lift (py_iter items) ;;
  for_items w items channels seen_channels.

(** The [while] loop on fuel: [None] when the fuel is spent with the
    condition still true. *)
Fixpoint while_loop (w : World) (country_code : string) (fuel : nat)
         (channels : list ChannelRecord) (seen_channels : list hval)
         (st : state) : option (result (list ChannelRecord)) * state :=
  if full channels then (Some (Ok channels), st)
  else
    match fuel with
    | O => (None, st)
    | S fuel' =>
        match while_body w country_code channels seen_channels st with
        | (Ok (channels', seen'), st') =>
            while_loop w country_code fuel' channels' seen' st'
        | (Raise e, st') => (Some (Raise e), st')
        end
    end.

(** The whole function: the value returned, if the loop ends within the
    fuel, and the final state. *)
Definition get_channels_from_country (w : World) (fuel : nat)
           (country_code : string) (st : state)
  : option (list ChannelRecord) * state :=
  match while_loop w country_code fuel [] [] st with
  | (Some (Ok channels), st') => (Some channels, st')
  | (Some (Raise e), st') =>
      (Some [],
       snd (logging ERROR ("Error getting channels from " ++ country_code ++ ": ")
                    (Some e) st'))
  | (None, st') => (None, st')
  end.

(* ================================================================== *)
(** ** Readings of a run *)
(* ================================================================== *)

(** [turns w cc n v st v' st']: from the variables [v] and the state [st],
    [n] turns of the [while] loop, each entered with fewer than 50 records
    and none raising, lead to [v'] and [st']. *)
Inductive turns (w : World) (cc : string)
  : nat -> vars -> state -> vars -> state -> Prop :=
| turns_O : forall v st, turns w cc O v st v st
| turns_S : forall n v st v1 st1 v2 st2,
    full (fst v) = false ->
    while_body w cc (fst v) (snd v) st = (Ok v1, st1) ->
    turns w cc n v1 st1 v2 st2 ->
    turns w cc (S n) v st v2 st2.

(** The ids the metadata collaborator was asked about, newest first. *)
Fixpoint metadata_ids (cs : list call) : list hval :=
  match cs with
  | [] => []
  | ChannelsList id :: cs' => id :: metadata_ids cs'
  | SearchList _ :: cs' => metadata_ids cs'
  end.

(** No two members are equal in the sense of [==]. *)
Definition distinct (l : list hval) : Prop :=
  ForallOrdPairs (fun a b => hval_eqb a b = false) l.

(** A search hit whose [snippet.channelId] is [id]. *)
Definition carries (item : pyval) (id : hval) : Prop :=
  exists snippet v,
    subscript_str item "snippet" = Ok snippet
    /\ subscript_str snippet "channelId" = Ok v
    /\ py_hash v = Ok id.

(** The first item of a metadata response, as the source takes it apart:
    its snippet and its statistics. *)
Definition first_item (response : pyval) : result (pyval * pyval) :=
  items <~ subscript_str response "items" ;;
  channel_data <~ subscript_0 items ;;
  snippet <~ subscript_str channel_data "snippet" ;;
  statistics <~ subscript_str channel_data "statistics" ;;
  Ok (snippet, statistics).

(** [int(statistics.get(field, 0))]. *)
Definition stat (statistics : pyval) (field : string) : result Z :=
  c <~ method_get statistics field (PInt 0) ;;
  py_int c.

(** The dict of statistics gives [z] for [field]: 0 when the key is
    missing, what [int] makes of the value when it is there. *)
Definition reads_as (statistics : list (string * pyval)) (field : string)
           (z : Z) : Prop :=
  match lookup field statistics with
  | None => z = 0
  | Some c => py_int c = Ok z
  end.

(** The reasons for an inspection to give nothing, read off the
    collaborator's answer to the request made in state [st]. First, the
    response has no item. *)
Definition no_matching_item (w : World) (id : hval) (st : state) : Prop :=
  exists response items,
    channels_execute w (calls st) id = Ok response
    /\ method_get response "items" PNone = Ok items
    /\ truthy items = false.

(** The first item reports more than 50000 subscribers. *)
Definition over_threshold (w : World) (id : hval) (st : state) : Prop :=
  exists response items snippet statistics n,
    channels_execute w (calls st) id = Ok response
    /\ method_get response "items" PNone = Ok items
    /\ truthy items = true
    /\ first_item response = Ok (snippet, statistics)
    /\ stat statistics "subscriberCount" = Ok n
    /\ n > 50000.

(** The response is not of the shape the inspection reads, and [e] is the
    exception of the first reading that goes wrong: the response has no
    [get]; its items are truthy and no first item with a snippet and
    statistics can be taken out; [subscriberCount] cannot be read as an
    integer; or the count is at most 50000 and the snippet is no dict. *)
Definition unreadable (response : pyval) (e : exn) : Prop :=
  method_get response "items" PNone = Raise e
  \/ exists items,
      method_get response "items" PNone = Ok items
      /\ truthy items = true
      /\ (first_item response = Raise e
          \/ exists snippet statistics,
              first_item response = Ok (snippet, statistics)
              /\ (stat statistics "subscriberCount" = Raise e
                  \/ exists n,
                      stat statistics "subscriberCount" = Ok n
                      /\ n <= 50000
                      /\ (forall d, snippet <> PDict d)
                      /\ e = AttributeError)).

(** The call fails: the collaborator raises [e] (a transport error), or
    answers with a response that cannot be read. *)
Definition call_fails (w : World) (id : hval) (st : state) (e : exn) : Prop :=
  channels_execute w (calls st) id = Raise e
  \/ exists response,
      channels_execute w (calls st) id = Ok response
      /\ unreadable response e.

(** The line the handlers of [get_channel_info] write for [e]. *)
Definition channel_error_entry (id : hval) (e : exn) : entry :=
  {| lvl := ERROR;
     text := (match e with
              | HttpError _ => "HTTP error getting channel info for "
              | _ => "Error getting channel info for "
              end) ++ py_str id ++ ": ";
     cause := Some e |}.

(** What the inspection returns when it returns something: the six keys,
    read from a snippet that is a dict. *)
Definition present (id : hval) (snippet : list (string * pyval))
           (statistics : pyval) : pyval :=
  let get k default :=
    match lookup k snippet with Some x => x | None => default end in
  PDict [("title", get "title" PNone);
         ("description", get "description" (PStr ""));
         ("country", get "country" (PStr "N/A"));
         ("publishedAt", get "publishedAt" PNone);
         ("customUrl", get "customUrl"
            (PStr ("https://youtube.com/channel/" ++ py_str id)));
         ("statistics", statistics)].

(** The channel passes: the first item has a dict for snippet and at most
    50000 subscribers. *)
Definition admitted (w : World) (id : hval) (st : state)
           (snippet : list (string * pyval)) (statistics : pyval) (n : Z) : Prop :=
  exists response items,
    channels_execute w (calls st) id = Ok response
    /\ method_get response "items" PNone = Ok items
    /\ truthy items = true
    /\ first_item response = Ok (PDict snippet, statistics)
    /\ stat statistics "subscriberCount" = Ok n
    /\ n <= 50000.

(** A metadata response whose first item has a dict of statistics in which
    [subscriberCount] reads as [n]. *)
Definition reports_subscribers (response : pyval) (n : Z) : Prop :=
  exists items snippet statistics,
    method_get response "items" PNone = Ok items
    /\ truthy items = true
    /\ first_item response = Ok (PDict snippet, statistics)
    /\ stat statistics "subscriberCount" = Ok n.

(** The requests for metadata made since [st0] are for the members of
    [seen_channels], which are distinct. *)
Definition calls_inv (st0 : state) (seen : list hval) (st : state) : Prop :=
  distinct seen
  /\ exists delta, calls st = (delta ++ calls st0)%list
                   /\ metadata_ids delta = seen.

(** At most 50 records, each of a channel that has been seen and has at
    most 50000 subscribers, and no two of the same channel. *)
Definition channels_inv (channels : list ChannelRecord) (seen : list hval)
  : Prop :=
  (length channels <= 50)%nat
  /\ Forall (fun r => In (channelId r) seen /\ subscribers r <= 50000) channels
  /\ distinct (map channelId channels).

(** Every hit of the page is a channel already seen. *)
Definition all_seen (items : list pyval) (seen : list hval) : Prop :=
  Forall (fun item => exists id, carries item id /\ set_mem id seen = true)
         items.

(** The search collaborator answers every request for [cc] with a page whose
    hits have all been seen. *)
Definition exhausted (w : World) (cc : string) (seen : list hval) : Prop :=
  forall cs, exists response items,
    search_execute w cs cc = Ok response
    /\ rbind (method_get response "items" (PList [])) py_iter = Ok items
    /\ all_seen items seen.

(* ================================================================== *)
(** ** Readings of a match *)
(* ================================================================== *)

(** What it is for [r] to match the text [m] at a position after [prev]
    and before [rest]. *)
Fixpoint matches (r : regex) (prev : option ascii) (m rest : list ascii)
  : Prop :=
  match r with
  | Lit t => m = list_ascii_of_string t
  | Cat r1 r2 =>
      exists m1 m2,
        m = (m1 ++ m2)%list
        /\ matches r1 prev m1 (m2 ++ rest)
        /\ matches r2 (last_char prev m1) m2 rest
  | Alt r1 r2 => matches r1 prev m rest \/ matches r2 prev m rest
  | Opt r1 => matches r1 prev m rest \/ m = []
  | Rep cls lo hi =>
      Forall (fun c => cls c = true) m
      /\ (lo <= length m)%nat
      /\ match hi with Some h => (length m <= h)%nat | None => True end
  | NotAhead r1 => m = [] /\ bt r1 prev rest (fun _ _ => Some tt) = None
  | WordB => m = [] /\ at_boundary prev rest = true
  end.

(** The continuation of a search: the match ends where the pattern does. *)
Definition final : cont (list ascii) := fun _ rest => Some rest.

(** The characters of a text. *)
Definition chars (t : string) : list ascii := list_ascii_of_string t.

(** [g] begins with [p]. *)
Definition starts_with (p g : string) : bool :=
  match strip_prefix (chars p) (chars g) with
  | Some _ => true
  | None => false
  end.

(** The text [rest] is empty or begins outside the class. *)
Definition stops_at (cls : ascii -> bool) (rest : list ascii) : Prop :=
  rest = [] \/ exists c t, rest = c :: t /\ cls c = false.

(* ================================================================== *)
(** ** Mock collaborators *)
(* ================================================================== *)

(** A search hit carrying a channel id. *)
Definition hit (id : string) : pyval :=
  PDict [("kind", PStr "youtube#searchResult");
         ("snippet", PDict [("channelId", PStr id); ("title", PStr id)])].

(** A search response with one hit for each id. *)
Definition search_page (ids : list string) : pyval :=
  PDict [("kind", PStr "youtube#searchListResponse");
         ("items", PList (map hit ids))].

(** A metadata response with one item. *)
Definition channel_page (snippet statistics : list (string * pyval)) : pyval :=
  PDict [("kind", PStr "youtube#channelListResponse");
         ("items", PList [PDict [("snippet", PDict snippet);
                                 ("statistics", PDict statistics)]])].

(** A snippet with all five fields. *)
Definition full_snippet : list (string * pyval) :=
  [("title", PStr "A channel");
   ("description", PStr "contact me at a@b.com");
   ("country", PStr "US");
   ("publishedAt", PStr "2015-03-01T10:00:00Z");
   ("customUrl", PStr "@achannel")].

(** Statistics as the platform sends them: numbers in strings. *)
Definition stats (subscribers views videos : string) : list (string * pyval) :=
  [("viewCount", PStr views);
   ("subscriberCount", PStr subscribers);
   ("videoCount", PStr videos)].

(** The same page of hits on every request; every channel has the given
    metadata. *)
Definition constant_world (ids : list string) (metadata : pyval) : World :=
  {| search_execute := fun _ _ => Ok (search_page ids);
     channels_execute := fun _ _ => Ok metadata |}.

(** Fifty channels in one page, every one with the given metadata. *)
Definition fifty_ids : list string :=
  map (fun n => "UC" ++ NilZero.string_of_uint (Nat.to_uint n)) (seq 0 50).

(** The world whose one page of hits is [fifty_ids]. *)
Definition fifty_world (metadata : pyval) : World :=
  constant_world fifty_ids metadata.

(** All three hits are admitted. *)
Definition three_world : World :=
  constant_world ["c1"; "c2"; "c3"]
                 (channel_page full_snippet (stats "100" "5" "7")).

(** All three hits are over the threshold: nothing is ever admitted. *)
Definition filtered_world : World :=
  constant_world ["c1"; "c2"; "c3"]
                 (channel_page full_snippet (stats "60000" "5" "7")).

(** The first request for hits is answered with one channel, every later
    one with a quota error. *)
Definition quota_world : World :=
  {| search_execute := fun cs _ =>
       match cs with
       | [] => Ok (search_page ["c1"])
       | _ => Raise (HttpError "quotaExceeded")
       end;
     channels_execute := fun _ _ =>
       Ok (channel_page full_snippet (stats "100" "5" "7")) |}.

(** The metadata collaborator is out of reach. *)
Definition unreachable_world : World :=
  {| search_execute := fun _ _ => Ok (search_page ["c1"; "c2"]);
     channels_execute := fun _ _ => Raise (HttpError "backendError") |}.

(** The subscriber count of the one channel cannot be read as a number. *)
Definition unreadable_subscribers_world : World :=
  constant_world ["c1"] (channel_page full_snippet (stats "abc" "5" "7")).

(** The view count of the one channel cannot be read as a number. *)
Definition unreadable_views_world : World :=
  constant_world ["c1"] (channel_page full_snippet (stats "100" "abc" "7")).

(** The channel comes with an empty dict of statistics. *)
Definition no_statistics_world : World :=
  constant_world ["c1"] (channel_page full_snippet []).

(** Fifty channels whose snippet has a description and nothing else. *)
Definition untitled_world : World :=
  fifty_world (channel_page [("description", PStr "no contact here")]
                            (stats "100" "5" "7")).

(** The one channel hides its subscribers: the item comes with its kind
    and id, and its statistics have no [subscriberCount]. *)
Definition hidden_subscribers_page : pyval :=
  PDict [("kind", PStr "youtube#channelListResponse");
         ("items",
          PList [PDict [("kind", PStr "youtube#channel");
                        ("id", PStr "c1");
                        ("snippet", PDict full_snippet);
                        ("statistics",
                         PDict [("viewCount", PStr "5");
                                ("hiddenSubscriberCount", PBool true);
                                ("videoCount", PStr "7")])]])].

Definition hidden_subscribers_world : World :=
  constant_world ["c1"] hidden_subscribers_page.

(** The item of the one channel has neither snippet nor statistics. *)
Definition bare_item_world : World :=
  constant_world ["c1"]
    (PDict [("kind", PStr "youtube#channelListResponse");
            ("items", PList [PDict [("kind", PStr "youtube#channel");
                                    ("id", PStr "c1")]])]).

(* ================================================================== *)
(** ** [get_channel_statistics] *)
(* ================================================================== *)

(** The dict returned when there is nothing to read. *)
Definition zero_statistics : pyval :=
  PDict [("subscriberCount", PInt 0); ("viewCount", PInt 0);
         ("videoCount", PInt 0)].

(** The body of the [try]. The request, [channels().list(part=statistics,
    id=...).execute()], is the first thing the function does and is not
    one of the two kinds of [call]: its outcome is the argument [executed],
    and the list of calls of the state is left alone. *)
Definition get_channel_statistics_try (executed : result pyval)
           (channel_id : hval) : M pyval :=
  response <- lift executed ;;
  items <- lift (method_get response "items" PNone) ;;
  if negb (truthy items) then
    logging WARNING ("No statistics found for channel " ++ py_str channel_id) None ;;;
    ret zero_statistics
  else
    items <- lift (subscript_str response "items") ;;
    item <- lift (subscript_0 items) ;;
    stats <- lift (subscript_str item "statistics") ;;
    c1 <- lift (method_get stats "subscriberCount" (PInt 0)) ;;
    n1 <- lift (py_int c1) ;;
    c2 <- lift (method_get stats "viewCount" (PInt 0)) ;;
    n2 <- lift (py_int c2) ;;
    c3 <- lift (method_get stats "videoCount" (PInt 0)) ;;
    n3 <- lift (py_int c3) ;;
    ret (PDict [("subscriberCount", PInt n1); ("viewCount", PInt n2);
                ("videoCount", PInt n3)]).

(** The two handlers. *)
Definition get_channel_statistics_except (channel_id : hval) (e : exn)
  : M pyval :=
  match e with
  | HttpError _ =>
      logging ERROR ("HTTP error getting statistics for "
                       ++ py_str channel_id ++ ": ") (Some e) ;;;
      ret zero_statistics
  | _ =>
      logging ERROR ("Error getting statistics for "
                       ++ py_str channel_id ++ ": ") (Some e) ;;;
      ret zero_statistics
  end.

Definition get_channel_statistics (executed : result pyval)
           (channel_id : hval) : M pyval :=
  try_except (get_channel_statistics_try executed channel_id)
             (get_channel_statistics_except channel_id).

(* ================================================================== *)
(** ** [__init__], [save_to_json] and [main] *)
(* ================================================================== *)

(** What happens to the file system: a directory made sure of; a file
    opened for writing, and so emptied; the document of [data] written to
    it in full and the file closed; a writing that failed on the way,
    [json.dump] handing the document over piece by piece, so that the file
    is left with some beginning of the document, which may be nothing. *)
Inductive effect : Type :=
| Makedirs (path : string)
| OpenW (path : string)
| Dump (path : string) (data : list ChannelRecord)
| Torn (path : string) (data : list ChannelRecord).

(** The machine the process runs on: the API key of the environment once
    [load_dotenv] is done, what [build] gives for a key, and the answers of
    the file system to [os.makedirs], [open(_, w)] and [json.dump] followed
    by the closing of the file, each from the effects so far. *)
Record Host : Type := {
  getenv_api_key : option string;
  build : string -> result World;
  makedirs : list effect -> string -> result unit;
  open_w : list effect -> string -> result unit;
  json_dump : list effect -> string -> list ChannelRecord -> result unit
}.

(** The state of the process: requests and log, and the effects on the
    file system, newest first. *)
Record process : Type := { net : state; disk : list effect }.

Definition boot : process := {| net := initial; disk := [] |}.

Definition plog (l : level) (t : string) (c : option exn) (p : process)
  : process :=
  {| net := snd (logging l t c (net p)); disk := disk p |}.

Definition did (f : effect) (p : process) : process :=
  {| net := net p; disk := f :: disk p |}.

(** [os.path.join(a, b)] on a POSIX system, for [a] that does not end with
    a slash: an absolute [b] stands alone. *)
Definition path_join (a b : string) : string :=
  match b with
  | String "/" _ => b
  | _ => a ++ "/" ++ b
  end.

(** The body of the [try] of [save_to_json]. *)
Definition save_to_json_try (h : Host) (data : list ChannelRecord)
           (filename : string) (p : process) : result unit * process :=
  let json_folder := "data/channel_info" in
  match makedirs h (disk p) json_folder with
  | Raise e => (Raise e, p)
  | Ok _ =>
      let p := did (Makedirs json_folder) p in
      let file_path := path_join json_folder filename in
      match open_w h (disk p) file_path with
      | Raise e => (Raise e, p)
      | Ok _ =>
          let p := did (OpenW file_path) p in
          match json_dump h (disk p) file_path data with
          | Raise e => (Raise e, did (Torn file_path data) p)
          | Ok _ =>
              let p := did (Dump file_path data) p in
              (Ok tt,
               plog INFO ("Successfully saved data to " ++ file_path) None p)
          end
      end
  end.

(** [save_to_json]: the handler logs and raises again. *)
Definition save_to_json (h : Host) (data : list ChannelRecord)
           (filename : string) (p : process) : result unit * process :=
  match save_to_json_try h data filename p with
  | (Ok u, p') => (Ok u, p')
  | (Raise e, p') =>
      (Raise e,
       plog ERROR ("Error saving data to " ++ filename ++ ": ") (Some e) p')
  end.

(** [YouTubeAnalyzer()]: the key, then [_initialize_api], which logs and
    raises again what [build] raises. *)
Definition init (h : Host) (p : process) : result World * process :=
  match getenv_api_key h with
  | None | Some EmptyString => (Raise ValueError, p)
  | Some api_key =>
      match build h api_key with
      | Ok youtube => (Ok youtube, p)
      | Raise e =>
          (Raise e,
           plog ERROR "Failed to initialize YouTube API: " (Some e) p)
      end
  end.

(** The body of the [try] of [main]; [None] when the loop of the discovery
    does not end within the fuel. *)
Definition main_try (h : Host) (fuel : nat) (p : process)
  : option (result unit) * process :=
  match init h p with
  | (Raise e, p) => (Some (Raise e), p)
  | (Ok analyzer, p) =>
      let country_code := "US" in
      let p := plog INFO ("Starting channel analysis for country: "
                            ++ country_code) None p in
      match get_channels_from_country analyzer fuel country_code (net p) with
      | (None, st) => (None, {| net := st; disk := disk p |})
      | (Some channels, st) =>
          match save_to_json h channels "channel_data.json"
                             {| net := st; disk := disk p |} with
          | (r, p) => (Some r, p)
          end
      end
  end.

(** [main]: the handler logs and raises again. *)
Definition main (h : Host) (fuel : nat) (p : process)
  : option (result unit) * process :=
  match main_try h fuel p with
  | (Some (Raise e), p') =>
      (Some (Raise e),
       plog ERROR "Script execution failed: " (Some e) p')
  | other => other
  end.

(* ================================================================== *)
(** ** Further readings *)
(* ================================================================== *)

(** [l1] is [l2] with some members left out. *)
Inductive subseq {A : Type} : list A -> list A -> Prop :=
| subseq_nil : subseq [] []
| subseq_skip : forall x l1 l2, subseq l1 l2 -> subseq l1 (x :: l2)
| subseq_take : forall x l1 l2, subseq l1 l2 -> subseq (x :: l1) (x :: l2).

(** What a file holds after the effects of a run: what it held before,
    when the run has not opened it; nothing, once it is opened for writing;
    some beginning of a document, after a writing that failed; a whole
    document. *)
Inductive file_state : Type :=
| Untouched
| Emptied
| Partial (data : list ChannelRecord)
| Document (data : list ChannelRecord).

(** The state of the file at [path]: the newest effect on it decides. *)
Fixpoint content (fs : list effect) (path : string) : file_state :=
  match fs with
  | [] => Untouched
  | Makedirs _ :: fs' => content fs' path
  | OpenW q :: fs' => if String.eqb q path then Emptied else content fs' path
  | Dump q data :: fs' =>
      if String.eqb q path then Document data else content fs' path
  | Torn q data :: fs' =>
      if String.eqb q path then Partial data else content fs' path
  end.

(** The API client and the file system (whose folder exists) work. *)
Definition working_host (key : option string) (w : World) : Host :=
  {| getenv_api_key := key;
     build := fun _ => Ok w;
     makedirs := fun _ _ => Ok tt;
     open_w := fun _ _ => Ok tt;
     json_dump := fun _ _ _ => Ok tt |}.

(** The disk is full: the file opens and the writing fails. The error of
    the file system, which is no [HttpError] and comes with a message, is
    written [ClientError]. *)
Definition full_disk_host (w : World) : Host :=
  {| getenv_api_key := Some "k";
     build := fun _ => Ok w;
     makedirs := fun _ _ => Ok tt;
     open_w := fun _ _ => Ok tt;
     json_dump := fun _ _ _ => Raise (ClientError "No space left on device") |}.

(** The pattern [r] has a match somewhere in the text. *)
Definition occurs (r : regex) (text : string) : Prop :=
  exists pre m post,
    chars text = (pre ++ m ++ post)%list
    /\ matches r (last_char None pre) m post.

(** The pattern [r] has a match in the text that begins within the first
    [n] characters. *)
Definition occurs_before (r : regex) (text : string) (n : nat) : Prop :=
  exists pre m post,
    chars text = (pre ++ m ++ post)%list
    /\ (length pre < n)%nat
    /\ matches r (last_char None pre) m post.

(** A local part, an at-sign, a domain, a dot and a last label of 2 to 7
    letters or bars. *)
Definition email_shaped (m : list ascii) : Prop :=
  exists l dm t,
    m = (l ++ chars "@" ++ dm ++ chars "." ++ t)%list
    /\ l <> [] /\ Forall (fun c => email_local c = true) l
    /\ dm <> [] /\ Forall (fun c => email_domain c = true) dm
    /\ Forall (fun c => email_tld c = true) t
    /\ (2 <= length t <= 7)%nat.

(** A scheme, [http://] or [https://], and one or more characters that are
    neither whitespace, nor an angle bracket, nor a double quote. *)
Definition website_shaped (m : list ascii) : Prop :=
  exists rest,
    (m = (chars "http://" ++ rest)%list \/ m = (chars "https://" ++ rest)%list)
    /\ rest <> [] /\ Forall (fun c => url_char c = true) rest.

(** The statistics of the first item of a response, as
    [get_channel_statistics] takes them out. *)
Definition first_statistics (response : pyval) : result pyval :=
  items <~ subscript_str response "items" ;;
  item <~ subscript_0 items ;;
  subscript_str item "statistics".

(** The first hit of every page has no snippet. *)
Definition hitless_world : World :=
  {| search_execute := fun _ _ =>
       Ok (PDict [("items", PList [PDict [("kind", PStr "youtube#searchResult")];
                                   hit "c1"])]);
     channels_execute := fun _ _ =>
       Ok (channel_page full_snippet (stats "100" "5" "7")) |}.

(** The one channel has [null] for a description. *)
Definition null_description_world : World :=
  constant_world ["c1"]
    (channel_page [("title", PStr "A channel"); ("description", PNone)]
                  (stats "100" "5" "7")).

(** The dict [get_channel_statistics] returns for three numbers. *)
Definition statistics_dict (a b c : Z) : pyval :=
  PDict [("subscriberCount", PInt a); ("viewCount", PInt b);
         ("videoCount", PInt c)].

(** The line the handlers of [get_channel_statistics] write for [e]. *)
Definition statistics_error_entry (id : hval) (e : exn) : entry :=
  {| lvl := ERROR;
     text := (match e with
              | HttpError _ => "HTTP error getting statistics for "
              | _ => "Error getting statistics for "
              end) ++ py_str id ++ ": ";
     cause := Some e |}.

(** The first request for hits fails. *)
Definition down_world : World :=
  {| search_execute := fun _ _ => Raise (HttpError "quotaExceeded");
     channels_execute := fun _ _ =>
       Ok (channel_page full_snippet (stats "100" "5" "7")) |}.

(* ================================================================== *)
(** * Facts *)
(* ================================================================== *)

Unset Implicit Arguments.

(** ** Values and sets *)

Lemma hval_eqb_sym (a b : hval) : hval_eqb a b = hval_eqb b a.
Proof.
  destruct a as [|x|x|x], b as [|y|y|y]; simpl; trivial;
    try apply Z.eqb_sym; try apply String.eqb_sym.
  destruct x, y; reflexivity.
Qed.

Lemma hval_eqb_refl (a : hval) : hval_eqb a a = true.
Proof.
  destruct a; simpl; trivial.
  - destruct b; reflexivity.
  - apply Z.eqb_refl.
  - apply String.eqb_refl.
Qed.

Lemma set_mem_false (x : hval) (s : list hval) :
  set_mem x s = false -> Forall (fun y => hval_eqb x y = false) s.
Proof.
  unfold set_mem. induction s as [|y s IH]; simpl; intro H.
  - constructor.
  - apply Bool.orb_false_iff in H. destruct H as [H1 H2].
    constructor; auto.
Qed.

Lemma distinct_NoDup (l : list hval) : distinct l -> NoDup l.
Proof.
  unfold distinct. induction 1 as [|a l Ha _ IH].
  - constructor.
  - constructor; trivial. intro Hin.
    rewrite Forall_forall in Ha. specialize (Ha _ Hin).
    rewrite hval_eqb_refl in Ha. discriminate.
Qed.

Lemma distinct_snoc (l : list hval) (x : hval) :
  distinct l -> Forall (fun y => hval_eqb x y = false) l -> distinct (l ++ [x]).
Proof.
  unfold distinct. induction 1 as [|a l Ha Hl IH]; simpl; intro Hx.
  - constructor; constructor.
  - inversion Hx as [|? ? Hxa Hxl]; subst.
    constructor; auto.
    apply Forall_app. split; trivial.
    constructor; [|constructor]. rewrite hval_eqb_sym. exact Hxa.
Qed.

(** ** [get_channel_info] *)

Arguments String.append : simpl never.

Ltac run :=
  unfold get_channel_info, try_except, get_channel_info_try,
    get_channel_info_except, channels_list, logging, bind, lift, ret in *;
  simpl in *.

(** Case analysis on the innermost scrutinee of the goal. *)
Ltac split_match :=
  match goal with
  | |- context [match ?x with _ => _ end] =>
      lazymatch x with
      | context [match _ with _ => _ end] => fail
      | _ => destruct x eqn:?
      end
  end; simpl in *.

(** The inspection never raises and sends exactly one request. *)
Lemma get_channel_info_returns (w : World) (id : hval) (st : state) :
  exists v st',
    get_channel_info w id st = (Ok v, st')
    /\ calls st' = ChannelsList id :: calls st.
Proof.
  run. repeat split_match; eexists; eexists; split; reflexivity.
Qed.

Lemma get_channel_info_except_eq (id : hval) (e : exn) (st : state) :
  get_channel_info_except id e st =
  (Ok (PDict []),
   {| calls := calls st; log := channel_error_entry id e :: log st |}).
Proof. destruct e; reflexivity. Qed.

Ltac inv_results :=
  repeat match goal with
    | H : Ok _ = Ok _ |- _ => inversion H; subst; clear H
    | H : Raise _ = Raise _ |- _ => inversion H; subst; clear H
    | H : Ok _ = Raise _ |- _ => discriminate H
    | H : Raise _ = Ok _ |- _ => discriminate H
    | H : (_, _) = (_, _) |- _ => inversion H; subst; clear H
    end.

Ltac rewrite_results :=
  repeat match goal with
    | H : ?x = Ok _ |- context [?x] => rewrite H; simpl
    | H : ?x = Raise _ |- context [?x] => rewrite H; simpl
    end.

(** The four outcomes of the body of the [try]. *)
Lemma get_channel_info_try_cases (w : World) (id : hval) (st : state) :
  exists r st1,
    get_channel_info_try w id st = (r, st1)
    /\ calls st1 = ChannelsList id :: calls st
    /\ ((exists e, r = Raise e /\ log st1 = log st /\ call_fails w id st e)
        \/ (r = Ok (PDict []) /\ no_matching_item w id st
            /\ log st1 = {| lvl := WARNING;
                            text := "No information found for channel "
                                      ++ py_str id;
                            cause := None |} :: log st)
        \/ (r = Ok (PDict []) /\ over_threshold w id st /\ log st1 = log st)
        \/ (exists snippet statistics n,
               admitted w id st snippet statistics n
               /\ r = Ok (present id snippet statistics)
               /\ log st1 = log st)).
Proof.
  unfold call_fails, unreadable, no_matching_item, over_threshold, admitted,
    first_item, stat, rbind, present.
  run. repeat split_match.
  all: eexists; eexists; split; [reflexivity|]; split; [reflexivity|]; simpl.
  all: try match goal with
         | H : negb (truthy _) = false |- _ => apply Bool.negb_false_iff in H
         | H : negb (truthy _) = true |- _ => apply Bool.negb_true_iff in H
         end.
  all: try match goal with
         | H : (?z >? 50000) = true |- _ => apply Z.gtb_lt in H
         | H : (?z >? 50000) = false |- _ =>
             destruct (Z.gtb_spec z 50000); [discriminate|]
         end.
  all: try match goal with
         | H : method_get ?sn "title" _ = _ |- _ =>
             destruct sn; simpl in *; inv_results
         end.
  all: try (left; eexists; split; [reflexivity|]; split; [reflexivity|];
            first
              [ left; reflexivity
              | right; eexists; split; [reflexivity|];
                first
                  [ left; assumption
                  | right; eexists; split; [eassumption|]; split; [assumption|];
                    rewrite_results;
                    first
                      [ left; reflexivity
                      | right; do 2 eexists; split; [reflexivity|];
                        rewrite_results;
                        first
                          [ left; reflexivity
                          | right; eexists; split; [reflexivity|];
                            split; [lia|]; split; [discriminate | reflexivity]
                          ] ] ] ]).
  - right; left. split; [reflexivity|]. split; [|reflexivity]. eauto.
  - right; right; left. split; [reflexivity|]. split; [|reflexivity].
    do 5 eexists.
    split; [reflexivity|]. split; [eassumption|]. split; [assumption|].
    rewrite_results.
    split; [reflexivity|]. rewrite_results. split; [reflexivity|]. lia.
  - right; right; right.
    do 3 eexists. split; [|split; reflexivity].
    do 2 eexists.
    split; [reflexivity|]. split; [eassumption|]. split; [assumption|].
    rewrite_results.
    split; [reflexivity|]. rewrite_results. split; [reflexivity|]. lia.
Qed.

Lemma get_channel_info_eq (w : World) (id : hval) (st : state) :
  get_channel_info w id st =
  match get_channel_info_try w id st with
  | (Ok v, st1) => (Ok v, st1)
  | (Raise e, st1) =>
      (Ok (PDict []),
       {| calls := calls st1; log := channel_error_entry id e :: log st1 |})
  end.
Proof.
  unfold get_channel_info, try_except.
  destruct (get_channel_info_try w id st) as [[v|e] st1]; trivial.
  apply get_channel_info_except_eq.
Qed.

(** Two readings of the same thing agree. *)
Ltac clash :=
  repeat (inv_results;
          match goal with
          | H1 : ?x = Ok _, H2 : ?x = _ |- _ => rewrite H1 in H2
          | H1 : ?x = Raise _, H2 : ?x = _ |- _ => rewrite H1 in H2
          | H1 : ?x = true, H2 : ?x = false |- _ =>
              rewrite H1 in H2; discriminate H2
          end);
  inv_results.

Ltac open_call_fails H :=
  let r := fresh "r" in
  let i := fresh "i" in
  let sn := fresh "sn" in
  let stt := fresh "stt" in
  let n := fresh "n" in
  destruct H as [H | (r & ? & [H | (i & ? & ? &
                    [H | (sn & stt & ? & [H | (n & ? & ? & ? & ?)])])])].

(** The four answers of the collaborator exclude one another, and a call
    fails in one way only. *)
Lemma verdicts_exclusive (w : World) (id : hval) (st : state) :
  (no_matching_item w id st ->
   ~ over_threshold w id st
   /\ (forall e, ~ call_fails w id st e)
   /\ forall sn stt n, ~ admitted w id st sn stt n)
  /\ (over_threshold w id st ->
      (forall e, ~ call_fails w id st e)
      /\ forall sn stt n, ~ admitted w id st sn stt n)
  /\ (forall e, call_fails w id st e ->
      (forall sn stt n, ~ admitted w id st sn stt n)
      /\ forall e', call_fails w id st e' -> e' = e).
Proof.
  split; [|split].
  - intros (r & i & H1 & H2 & H3). split; [|split].
    + intros (r' & i' & sn & stt & n & G1 & G2 & G3 & _). clash.
    + intros e He. open_call_fails He; clash.
    + intros sn stt n (r' & i' & G1 & G2 & G3 & _). clash.
  - intros (r & i & sn & stt & n & H1 & H2 & H3 & H4 & H5 & H6). split.
    + intros e He. open_call_fails He; clash. lia.
    + intros sn' stt' n' (r' & i' & G1 & G2 & G3 & G4 & G5 & G6). clash. lia.
  - intros e He. split.
    + intros sn stt n (r' & i' & G1 & G2 & G3 & G4 & G5 & G6).
      open_call_fails He; clash.
      match goal with H : forall d, _ <> _ |- _ => exact (H _ eq_refl) end.
    + intros e' He'. open_call_fails He; open_call_fails He'; clash;
        try reflexivity; try lia.
Qed.

Lemma admitted_not_absent (w : World) (id : hval) (st : state) sn stt n :
  admitted w id st sn stt n ->
  ~ (no_matching_item w id st \/ over_threshold w id st).
Proof.
  destruct (verdicts_exclusive w id st) as (H1 & H2 & _).
  intros Hadm [H|H].
  - exact (proj2 (proj2 (H1 H)) _ _ _ Hadm).
  - exact (proj2 (H2 H) _ _ _ Hadm).
Qed.

(** A present result is not the empty dict, and is truthy. *)
Lemma present_truthy (id : hval) sn stt :
  truthy (present id sn stt) = true /\ present id sn stt <> PDict [].
Proof. split; [reflexivity | discriminate]. Qed.

(** The inspection in full: see [get_channel_info_try_cases]. *)
Lemma get_channel_info_cases (w : World) (id : hval) (st : state) :
  exists v st',
    get_channel_info w id st = (Ok v, st')
    /\ calls st' = ChannelsList id :: calls st
    /\ ((v = PDict []
         /\ ((no_matching_item w id st
              /\ log st' = {| lvl := WARNING;
                              text := "No information found for channel "
                                        ++ py_str id;
                              cause := None |} :: log st)
             \/ (over_threshold w id st /\ log st' = log st)
             \/ exists e, call_fails w id st e
                          /\ log st' = channel_error_entry id e :: log st))
        \/ (exists sn stt n,
               admitted w id st sn stt n
               /\ v = present id sn stt
               /\ log st' = log st)).
Proof.
  rewrite get_channel_info_eq.
  destruct (get_channel_info_try_cases w id st)
    as (r & st1 & Htry & Hcalls & Hcases).
  rewrite Htry. simpl.
  destruct Hcases
    as [(e & -> & Hlog & Hf) | [(-> & H & Hlog) | [(-> & H & Hlog) | H]]].
  - do 2 eexists. split; [reflexivity|]. split; [exact Hcalls|].
    left. split; trivial. right; right. exists e. simpl. rewrite Hlog. auto.
  - do 2 eexists. split; [reflexivity|]. split; [exact Hcalls|].
    left. split; trivial. left. auto.
  - do 2 eexists. split; [reflexivity|]. split; [exact Hcalls|].
    left. split; trivial. right; left. auto.
  - destruct H as (sn & stt & n & Hadm & -> & Hlog).
    do 2 eexists. split; [reflexivity|]. split; [exact Hcalls|].
    right. exists sn, stt, n. repeat split; trivial.
Qed.

(** ** The record made of a present result *)

Lemma shape_record_present (id : hval) sn stt (r : ChannelRecord) :
  shape_record id (present id sn stt) = Ok r ->
  channelId r = id
  /\ stat stt "subscriberCount" = Ok (subscribers r)
  /\ stat stt "viewCount" = Ok (totalViews r)
  /\ stat stt "videoCount" = Ok (totalVideos r)
  /\ name r = match lookup "title" sn with Some x => x | None => PNone end
  /\ createDate r =
       match lookup "publishedAt" sn with Some x => x | None => PNone end
  /\ url r = match lookup "customUrl" sn with
             | Some x => x
             | None => PStr ("https://youtube.com/channel/" ++ py_str id)
             end
  /\ country r =
       match lookup "country" sn with Some x => x | None => PStr "N/A" end.
Proof.
  unfold shape_record, present, stat, rbind. simpl.
  repeat split_match; intro H; inv_results; simpl;
    repeat split; reflexivity.
Qed.

(** ** Invariants of the loops *)

Lemma for_items_skip (w : World) item rest channels seen st id :
  carries item id -> set_mem id seen = true ->
  for_items w (item :: rest) channels seen st
  = for_items w rest channels seen st.
Proof.
  intros (sn & v & H1 & H2 & H3) Hmem. simpl.
  unfold bind, lift. rewrite H1, H2, H3, Hmem. reflexivity.
Qed.

Lemma for_items_absent (w : World) item rest channels seen st id v st1 :
  carries item id -> set_mem id seen = false ->
  get_channel_info w id st = (Ok v, st1) -> truthy v = false ->
  full channels = false ->
  for_items w (item :: rest) channels seen st
  = for_items w rest channels (id :: seen) st1.
Proof.
  intros (sn & x & H1 & H2 & H3) Hmem Hinfo Htr Hfull. simpl.
  unfold bind, lift, ret. rewrite H1, H2, H3, Hmem, Hinfo, Htr, Hfull.
  reflexivity.
Qed.

Lemma for_items_admit (w : World) item rest channels seen st id v st1 r :
  carries item id -> set_mem id seen = false ->
  get_channel_info w id st = (Ok v, st1) -> truthy v = true ->
  shape_record id v = Ok r ->
  for_items w (item :: rest) channels seen st
  = if full (channels ++ [r])
    then (Ok (channels ++ [r], id :: seen)%list, st1)
    else for_items w rest (channels ++ [r]) (id :: seen) st1.
Proof.
  intros (sn & x & H1 & H2 & H3) Hmem Hinfo Htr Hrec. simpl.
  unfold bind, lift, ret. rewrite H1, H2, H3, Hmem, Hinfo, Htr, Hrec.
  destruct (full (channels ++ [r])); reflexivity.
Qed.

Lemma for_items_shape_raises (w : World) item rest channels seen st id v st1 e :
  carries item id -> set_mem id seen = false ->
  get_channel_info w id st = (Ok v, st1) -> truthy v = true ->
  shape_record id v = Raise e ->
  for_items w (item :: rest) channels seen st = (Raise e, st1).
Proof.
  intros (sn & x & H1 & H2 & H3) Hmem Hinfo Htr Hrec. simpl.
  unfold bind, lift, ret. rewrite H1, H2, H3, Hmem, Hinfo, Htr, Hrec.
  reflexivity.
Qed.

(** A hit that carries no hashable id raises, and nothing else happens. *)
Lemma for_items_malformed (w : World) item rest channels seen st :
  (forall id, ~ carries item id) ->
  exists e, for_items w (item :: rest) channels seen st = (Raise e, st).
Proof.
  intro H. simpl. unfold bind, lift, carries in *.
  destruct (subscript_str item "snippet") as [sn|e] eqn:H1; [|eauto].
  destruct (subscript_str sn "channelId") as [x|e] eqn:H2; [|eauto].
  destruct (py_hash x) as [id|e] eqn:H3; [|eauto].
  exfalso. apply (H id). exists sn, x. auto.
Qed.

Lemma carries_dec (item : pyval) :
  (exists id, carries item id) \/ (forall id, ~ carries item id).
Proof.
  unfold carries.
  destruct (subscript_str item "snippet") as [sn|e] eqn:H1.
  2:{ right. intros id (? & ? & H & _). discriminate. }
  destruct (subscript_str sn "channelId") as [x|e] eqn:H2.
  2:{ right. intros id (? & ? & H & H' & _). inv_results. rewrite H2 in H'.
      discriminate. }
  destruct (py_hash x) as [id|e] eqn:H3.
  - left. exists id, sn, x. auto.
  - right. intros id (? & ? & H & H' & H''). inv_results.
    rewrite H2 in H'. inv_results. rewrite H3 in H''. discriminate.
Qed.

Lemma full_false_length (channels : list ChannelRecord) :
  full channels = false <-> (length channels < 50)%nat.
Proof. unfold full. rewrite Nat.leb_gt. reflexivity. Qed.

Lemma calls_inv_request (st0 : state) seen st st1 id :
  calls_inv st0 seen st -> set_mem id seen = false ->
  calls st1 = ChannelsList id :: calls st ->
  calls_inv st0 (id :: seen) st1.
Proof.
  intros [Hd (delta & Hc & Hm)] Hmem Hcalls. split.
  - constructor; [now apply set_mem_false | exact Hd].
  - exists (ChannelsList id :: delta). rewrite Hcalls, Hc. simpl.
    rewrite Hm. split; reflexivity.
Qed.

Lemma channels_inv_absent channels seen id :
  channels_inv channels seen -> channels_inv channels (id :: seen).
Proof.
  intros (Hlen & Hall & Hd). repeat split; trivial.
  eapply Forall_impl; [|exact Hall]. simpl. intros r [H1 H2]. auto.
Qed.

Lemma channels_inv_append channels seen (r : ChannelRecord) :
  channels_inv channels seen -> full channels = false ->
  set_mem (channelId r) seen = false -> subscribers r <= 50000 ->
  channels_inv (channels ++ [r]) (channelId r :: seen).
Proof.
  intros (Hlen & Hall & Hd) Hfull Hmem Hsub.
  apply full_false_length in Hfull. repeat split.
  - rewrite length_app. simpl. lia.
  - apply Forall_app. split.
    + eapply Forall_impl; [|exact Hall]. simpl. intros x [H1 H2]. auto.
    + constructor; [|constructor]. simpl. auto.
  - rewrite map_app. simpl. apply distinct_snoc; trivial.
    apply set_mem_false in Hmem. rewrite Forall_forall in *.
    intros y Hy. apply in_map_iff in Hy. destruct Hy as (x & <- & Hx).
    apply Hmem. apply (Hall x Hx).
Qed.

(** The [for] loop keeps both invariants, and keeps the one on the
    requests also when it raises. *)
Lemma for_items_inv (w : World) (st0 : state) (items : list pyval) :
  forall channels seen st r st',
    calls_inv st0 seen st -> channels_inv channels seen ->
    full channels = false ->
    for_items w items channels seen st = (r, st') ->
    exists seen',
      calls_inv st0 seen' st'
      /\ forall v, r = Ok v -> snd v = seen' /\ channels_inv (fst v) seen'.
Proof.
  induction items as [|item rest IH]; intros channels seen st r st' Hc Hch Hfull Hrun.
  - simpl in Hrun. unfold ret in Hrun. inv_results.
    exists seen. split; trivial. intros v Hv. inv_results. auto.
  - destruct (carries_dec item) as [[id Hid]|Hno].
    2:{ destruct (for_items_malformed w item rest channels seen st Hno) as [e He].
        rewrite He in Hrun. inv_results. exists seen. split; trivial.
        intros v Hv. discriminate. }
    destruct (set_mem id seen) eqn:Hmem.
    { rewrite (@for_items_skip w item rest channels seen st id Hid Hmem) in Hrun. eauto. }
    destruct (get_channel_info_cases w id st)
      as (v & st1 & Hinfo & Hcalls & Hcases).
    pose proof (calls_inv_request _ _ _ _ _ Hc Hmem Hcalls) as Hc1.
    destruct Hcases as [[-> _] | (sn & stt & n & Hadm & -> & _)].
    + rewrite (@for_items_absent w item rest channels seen st id _ st1
                 Hid Hmem Hinfo eq_refl Hfull) in Hrun.
      eapply IH; eauto using channels_inv_absent.
    + destruct (shape_record id (present id sn stt)) as [rcd|e] eqn:Hrec.
      2:{ rewrite (@for_items_shape_raises w item rest channels seen st id _
                     st1 e Hid Hmem Hinfo eq_refl Hrec) in Hrun.
          inv_results. exists (id :: seen). split; trivial.
          intros v Hv. discriminate. }
      rewrite (@for_items_admit w item rest channels seen st id _ st1 rcd
                 Hid Hmem Hinfo eq_refl Hrec) in Hrun.
      destruct (shape_record_present _ _ _ _ Hrec) as (Hrid & Hsub & _).
      destruct Hadm as (_ & _ & _ & _ & _ & _ & Hn & Hle).
      rewrite Hn in Hsub. inv_results.
      assert (Hch1 : channels_inv (channels ++ [rcd]) (channelId rcd :: seen)).
      { apply channels_inv_append; trivial. }
      destruct (full (channels ++ [rcd])) eqn:Hfull1.
      * inv_results. exists (channelId rcd :: seen). split; trivial.
        intros v Hv. inv_results. simpl. auto.
      * eapply IH; eauto.
Qed.

Lemma calls_inv_search (st0 : state) seen st cc :
  calls_inv st0 seen st ->
  calls_inv st0 seen {| calls := SearchList cc :: calls st; log := log st |}.
Proof.
  intros [Hd (delta & Hc & Hm)]. split; trivial.
  exists (SearchList cc :: delta). simpl. rewrite Hc. auto.
Qed.

(** One turn of the [while] loop, taken apart. *)
Lemma while_body_eq (w : World) cc channels seen st :
  while_body w cc channels seen st =
  let st1 := {| calls := SearchList cc :: calls st; log := log st |} in
  match search_execute w (calls st) cc with
  | Raise e => (Raise e, st1)
  | Ok response =>
      match rbind (method_get response "items" (PList [])) py_iter with
      | Raise e => (Raise e, st1)
      | Ok items => for_items w items channels seen st1
      end
  end.
Proof.
  unfold while_body, bind, lift, search_list, rbind. simpl.
  destruct (search_execute w (calls st) cc) as [response|e]; trivial.
  destruct (method_get response "items" (PList [])) as [items|e]; trivial.
Qed.

Lemma while_body_inv (w : World) (st0 : state) cc channels seen st r st' :
  calls_inv st0 seen st -> channels_inv channels seen ->
  full channels = false ->
  while_body w cc channels seen st = (r, st') ->
  exists seen',
    calls_inv st0 seen' st'
    /\ forall v, r = Ok v -> snd v = seen' /\ channels_inv (fst v) seen'.
Proof.
  intros Hc Hch Hfull. rewrite while_body_eq. cbv zeta.
  pose proof (calls_inv_search _ _ _ cc Hc) as Hc1.
  destruct (search_execute w (calls st) cc) as [response|e].
  2:{ intro H. inv_results. eexists. split; [eassumption|]. discriminate. }
  destruct (rbind _ _) as [items|e].
  2:{ intro H. inv_results. eexists. split; [eassumption|]. discriminate. }
  intro H. eapply for_items_inv; eauto.
Qed.

Lemma while_loop_inv (w : World) (st0 : state) cc (fuel : nat) :
  forall channels seen st r st',
    calls_inv st0 seen st -> channels_inv channels seen ->
    while_loop w cc fuel channels seen st = (r, st') ->
    exists seen',
      calls_inv st0 seen' st'
      /\ forall out, r = Some (Ok out) -> channels_inv out seen'.
Proof.
  induction fuel as [|fuel IH]; intros channels seen st r st' Hc Hch; simpl.
  - destruct (full channels); intro H; inv_results;
      exists seen; split; trivial; intros out Hout; inversion Hout; subst;
      trivial.
  - destruct (full channels) eqn:Hfull.
    { intro H; inv_results. exists seen; split; trivial.
      intros out Hout; inversion Hout; subst; trivial. }
    destruct (while_body w cc channels seen st) as [[[channels' seen']|e] st1]
      eqn:Hbody.
    + destruct (while_body_inv _ _ _ _ _ _ _ _ Hc Hch Hfull Hbody)
        as (s1 & Hc1 & Hv).
      destruct (Hv _ eq_refl) as [Hs Hch1]. simpl in Hs, Hch1. subst s1.
      intro H. eapply IH; eauto.
    + destruct (while_body_inv _ _ _ _ _ _ _ _ Hc Hch Hfull Hbody)
        as (s1 & Hc1 & _).
      intro H. inv_results. exists s1. split; trivial. discriminate.
Qed.

Lemma calls_inv_initial (st0 : state) : calls_inv st0 [] st0.
Proof. split; [constructor | exists []; auto]. Qed.

Lemma channels_inv_nil (seen : list hval) : channels_inv [] seen.
Proof. repeat split; simpl; try lia; constructor. Qed.

(** The invariants at the end of a run, whatever the fuel: the output, if
    any, and the requests for metadata the run has made. *)
Lemma get_channels_from_country_inv (w : World) fuel cc st0 r st' :
  get_channels_from_country w fuel cc st0 = (r, st') ->
  exists seen,
    calls_inv st0 seen st'
    /\ forall out, r = Some out -> channels_inv out seen.
Proof.
  unfold get_channels_from_country.
  destruct (while_loop w cc fuel [] [] st0) as [[[out|e]|] st1] eqn:Hloop;
    intro H; inv_results;
    destruct (while_loop_inv _ _ _ _ _ _ _ _ _ (calls_inv_initial st0)
                (channels_inv_nil []) Hloop) as (seen & Hc & Hout);
    exists seen; (split; [exact Hc|]); intros o Ho; inversion Ho; subst.
  - auto.
  - apply channels_inv_nil.
Qed.

(** ** A source that has run dry *)

Lemma for_items_all_seen (w : World) items channels seen st :
  all_seen items seen ->
  for_items w items channels seen st = (Ok (channels, seen), st).
Proof.
  induction 1 as [|item rest (id & Hid & Hmem) _ IH].
  - reflexivity.
  - rewrite (for_items_skip w item rest channels seen st id Hid Hmem).
    exact IH.
Qed.

(** With fewer than 50 records and a source that has run dry, a turn of the
    loop changes nothing but the list of requests, so no fuel is enough. *)
Lemma while_loop_stuck (w : World) cc channels seen :
  full channels = false -> exhausted w cc seen ->
  forall fuel st, fst (while_loop w cc fuel channels seen st) = None.
Proof.
  intros Hfull Hex. induction fuel as [|fuel IH]; intro st; simpl;
    rewrite Hfull; trivial.
  rewrite while_body_eq. cbv zeta.
  destruct (Hex (calls st)) as (response & items & -> & -> & Hseen).
  rewrite for_items_all_seen by exact Hseen. apply IH.
Qed.

Lemma while_loop_step (w : World) cc fuel channels seen st v st1 :
  full channels = false ->
  while_body w cc channels seen st = (Ok v, st1) ->
  while_loop w cc (S fuel) channels seen st
  = while_loop w cc fuel (fst v) (snd v) st1.
Proof.
  intros Hfull Hbody. simpl. rewrite Hfull, Hbody. destruct v; reflexivity.
Qed.

Lemma constant_world_exhausted ids metadata cc :
  exhausted (constant_world ids metadata) cc (rev (map HStr ids)).
Proof.
  intro cs. exists (search_page ids), (map hit ids).
  repeat split. unfold all_seen. rewrite Forall_forall.
  intros item Hin. apply in_map_iff in Hin. destruct Hin as (id & <- & Hin).
  exists (HStr id). split.
  - do 2 eexists. repeat split; reflexivity.
  - unfold set_mem. apply existsb_exists. exists (HStr id). split.
    + apply in_rev. rewrite rev_involutive. now apply in_map.
    + apply hval_eqb_refl.
Qed.


(** ** The matcher *)

Lemma strip_prefix_app (p s s' : list ascii) :
  strip_prefix p s = Some s' -> s = (p ++ s')%list.
Proof.
  revert s. induction p as [|a p IH]; intros [|b s]; simpl; intro H;
    try discriminate; try (inversion H; reflexivity).
  destruct (Ascii.eqb_spec a b); [|discriminate].
  subst. f_equal. auto.
Qed.

Lemma last_char_app (prev : option ascii) (m1 m2 : list ascii) :
  last_char (last_char prev m1) m2 = last_char prev (m1 ++ m2).
Proof.
  unfold last_char. rewrite rev_app_distr.
  destruct (rev m2); simpl; trivial.
Qed.

Lemma last_char_cons (prev : option ascii) c (m : list ascii) :
  last_char prev (c :: m) = last_char (Some c) m.
Proof. apply (eq_sym (last_char_app prev [c] m)). Qed.

Lemma rep_sound (R : Type) cls (s : list ascii) :
  forall lo hi prev (k : cont R) x,
    rep cls lo hi prev s k = Some x ->
    exists m rest,
      s = (m ++ rest)%list
      /\ matches (Rep cls lo hi) prev m rest
      /\ k (last_char prev m) rest = Some x.
Proof.
  assert (Hstop : forall lo hi prev (k : cont R) x (t : list ascii),
             match lo with O => k prev t | S _ => None end = Some x ->
             exists m rest,
               t = (m ++ rest)%list
               /\ matches (Rep cls lo hi) prev m rest
               /\ k (last_char prev m) rest = Some x).
  { intros lo hi prev k x t H. destruct lo; [|discriminate].
    exists [], t. simpl. repeat split; trivial.
    destruct hi; trivial. lia. }
  induction s as [|c s IH]; intros lo hi prev k x; simpl.
  - apply Hstop.
  - destruct (cls c && under hi)%bool eqn:Hc; [|apply Hstop].
    destruct (rep cls (Nat.pred lo) (dec hi) (Some c) s k) as [y|] eqn:Hrep;
      [|apply Hstop].
    intro H. inversion H; subst y; clear H.
    apply IH in Hrep. destruct Hrep as (m & rest & -> & (Hall & Hlo & Hhi) & Hk).
    apply Bool.andb_true_iff in Hc. destruct Hc as [Hcls Hund].
    exists (c :: m), rest. repeat split; simpl.
    + constructor; trivial.
    + lia.
    + destruct hi as [[|h]|]; simpl in *; trivial; try discriminate. lia.
    + rewrite last_char_cons. exact Hk.
Qed.

(** Whatever the matcher answers, it answers at the end of a match. *)
Lemma bt_sound (r : regex) :
  forall (R : Type) prev s (k : cont R) x,
    bt r prev s k = Some x ->
    exists m rest,
      s = (m ++ rest)%list
      /\ matches r prev m rest
      /\ k (last_char prev m) rest = Some x.
Proof.
  induction r as [t|r1 IH1 r2 IH2|r1 IH1 r2 IH2|r1 IH1|cls lo hi|r1 IH1|];
    intros R prev s k x; simpl.
  - destruct (strip_prefix _ s) as [s'|] eqn:Hp; [|discriminate].
    intro H. apply strip_prefix_app in Hp.
    exists (list_ascii_of_string t), s'. auto.
  - intro H. apply IH1 in H. destruct H as (m1 & rest1 & -> & Hm1 & H).
    apply IH2 in H. destruct H as (m2 & rest & -> & Hm2 & H).
    exists (m1 ++ m2)%list, rest. rewrite <- app_assoc. split; trivial.
    split; [exists m1, m2; auto|]. rewrite <- last_char_app. exact H.
  - destruct (bt r1 prev s k) as [y|] eqn:H1.
    + intro H; inversion H; subst y. apply IH1 in H1.
      destruct H1 as (m & rest & ? & ? & ?). exists m, rest. auto.
    + intro H. apply IH2 in H.
      destruct H as (m & rest & ? & ? & ?). exists m, rest. auto.
  - destruct (bt r1 prev s k) as [y|] eqn:H1.
    + intro H; inversion H; subst y. apply IH1 in H1.
      destruct H1 as (m & rest & ? & ? & ?). exists m, rest. auto.
    + intro H. exists [], s. auto.
  - apply rep_sound.
  - destruct (bt r1 prev s _) as [y|] eqn:H1; [discriminate|].
    intro H. exists [], s. auto.
  - destruct (at_boundary prev s) eqn:Hb; [|discriminate].
    intro H. exists [], s. auto.
Qed.

Lemma match_here_sound (r : regex) prev s m :
  match_here r prev s = Some m ->
  exists rest,
    s = (m ++ rest)%list /\ matches r prev m rest
    /\ bt r prev s final = Some rest.
Proof.
  unfold match_here. fold final.
  destruct (bt r prev s final) as [rest|] eqn:H; [|discriminate].
  pose proof H as H'.
  apply bt_sound in H. destruct H as (m' & rest' & -> & Hm & Hk).
  inversion Hk; subst rest'. intro H; inversion H; subst m; clear H.
  exists rest. rewrite length_app.
  replace (length m' + length rest - length rest)%nat with (length m') by lia.
  rewrite firstn_app, Nat.sub_diag, firstn_all. simpl. rewrite app_nil_r.
  auto.
Qed.

(** What [re.search] returns is a match somewhere in the text. *)
Lemma search_from_sound (r : regex) (s : list ascii) :
  forall prev m,
    search_from r prev s = Some m ->
    exists pre post prev',
      s = (pre ++ m ++ post)%list /\ matches r prev' m post
      /\ bt r prev' (m ++ post) final = Some post.
Proof.
  induction s as [|c s IH]; intros prev m; simpl.
  - destruct (match_here r prev []) as [m'|] eqn:H; [|discriminate].
    intro E; inversion E; subst m'. apply match_here_sound in H.
    destruct H as (rest & Hs & Hm & Hbt). exists [], rest, prev.
    rewrite <- Hs. auto.
  - destruct (match_here r prev (c :: s)) as [m'|] eqn:H.
    + intro E; inversion E; subst m'. apply match_here_sound in H.
      destruct H as (rest & Hs & Hm & Hbt). exists [], rest, prev.
      rewrite <- Hs. auto.
    + intro E. apply IH in E.
      destruct E as (pre & post & prev' & -> & Hm & Hbt).
      exists (c :: pre), post, prev'. auto.
Qed.

Lemma re_search_sound (r : regex) (text g : string) :
  re_search r text = Some g ->
  exists pre m post prev,
    list_ascii_of_string text = (pre ++ m ++ post)%list
    /\ g = string_of_list_ascii m
    /\ matches r prev m post
    /\ bt r prev (m ++ post) final = Some post.
Proof.
  unfold re_search.
  destruct (search_from r None (list_ascii_of_string text)) as [m|] eqn:H;
    [|discriminate].
  intro E; inversion E. apply search_from_sound in H.
  destruct H as (pre & post & prev & Hs & Hm & Hbt).
  exists pre, m, post, prev. auto.
Qed.

(** ** The two patterns *)

(** The text of a website match, piece by piece. *)
Lemma website_match_shape (prev : option ascii) (m post : list ascii) :
  matches website_pattern prev m post ->
  exists sch www cs p,
    m = (chars "http" ++ sch ++ chars "://" ++ www ++ cs)%list
    /\ (sch = chars "s" \/ sch = [])
    /\ (www = chars "www." \/ www = [])
    /\ Forall (fun c => url_char c = true) cs
    /\ (1 <= length cs)%nat
    /\ bt (Alt (Lit "youtube.com") (Lit "youtu.be")) p (cs ++ post)
          (fun _ _ => Some tt) = None.
Proof.
  unfold website_pattern. cbn [matches].
  intros (m1 & r1 & -> & -> & m2 & r2 & -> & Hs & m3 & r3 & -> & ->
          & m4 & r4 & -> & Hw & m5 & cs & -> & [-> Hla] & Hall & Hlen & _).
  exists m2, m4, cs.
  exists (last_char (last_char (last_char (last_char prev (chars "http")) m2)
                               (chars "://")) m4).
  split; [reflexivity|].
  split; [destruct Hs; auto|].
  split; [destruct Hw; auto|].
  split; [exact Hall|]. split; [exact Hlen|]. exact Hla.
Qed.

Lemma strip_prefix_app_some (p s s' t : list ascii) :
  strip_prefix p s = Some s' -> strip_prefix p (s ++ t) = Some (s' ++ t)%list.
Proof.
  revert s. induction p as [|a p IH]; intros [|b s]; simpl; intro H;
    try discriminate; try (inversion H; reflexivity).
  destruct (Ascii.eqb a b); [auto | discriminate].
Qed.

Lemma chars_string_of_list (l : list ascii) :
  chars (string_of_list_ascii l) = l.
Proof. apply list_ascii_of_string_of_list_ascii. Qed.

(** The characters of a website match are of the class that ends the
    pattern: none is whitespace, an angle bracket or a double quote. *)
Lemma website_match_chars (d g : string) :
  re_search website_pattern d = Some g ->
  Forall (fun c => url_char c = true) (chars g).
Proof.
  intro H. apply re_search_sound in H.
  destruct H as (pre & m & post & prev & _ & -> & Hm & _).
  rewrite chars_string_of_list.
  apply website_match_shape in Hm.
  destruct Hm as (sch & www & cs & p & -> & Hs & Hw & Hall & _).
  destruct Hs as [->| ->], Hw as [->| ->];
    repeat (apply Forall_app; split); trivial;
    unfold chars; simpl; repeat (constructor; [reflexivity|]); constructor.
Qed.

(** The look-ahead does its work when there is no [www.]: a website match
    never begins with the scheme followed at once by one of the two hosts. *)
Lemma website_match_not_bare_platform (d g : string) :
  re_search website_pattern d = Some g ->
  starts_with "http://youtube.com" g = false
  /\ starts_with "https://youtube.com" g = false
  /\ starts_with "http://youtu.be" g = false
  /\ starts_with "https://youtu.be" g = false.
Proof.
  intro H. apply re_search_sound in H.
  destruct H as (pre & m & post & prev & _ & -> & Hm & _).
  unfold starts_with. rewrite chars_string_of_list.
  apply website_match_shape in Hm.
  destruct Hm as (sch & www & cs & p & -> & Hs & Hw & _ & _ & Hla).
  cbn [bt] in Hla. unfold chars in *.
  destruct (strip_prefix (list_ascii_of_string "youtube.com") (cs ++ post))
    eqn:H1; [discriminate|].
  destruct (strip_prefix (list_ascii_of_string "youtu.be") (cs ++ post))
    eqn:H2; [discriminate|].
  assert (G1 : strip_prefix (list_ascii_of_string "youtube.com") cs = None).
  { destruct (strip_prefix (list_ascii_of_string "youtube.com") cs) eqn:E;
      trivial.
    apply strip_prefix_app_some with (t := post) in E. congruence. }
  assert (G2 : strip_prefix (list_ascii_of_string "youtu.be") cs = None).
  { destruct (strip_prefix (list_ascii_of_string "youtu.be") cs) eqn:E;
      trivial.
    apply strip_prefix_app_some with (t := post) in E. congruence. }
  clear H1 H2 Hla.
  destruct Hs as [->| ->], Hw as [->| ->]; simpl in G1, G2 |- *;
    rewrite ?G1, ?G2; auto.
Qed.

(** Greedy repetition before a continuation that always answers: it
    answers itself once nothing is required any more, and stops only where
    the class does. *)
Lemma rep_total (R : Type) cls (k : cont R) :
  (forall p t, k p t <> None) ->
  forall s hi prev, rep cls 0 hi prev s k <> None.
Proof.
  intros Hk. induction s as [|c s IH]; intros hi prev; simpl; auto.
  destruct (cls c && under hi)%bool; auto.
  destruct (rep cls 0 (dec hi) (Some c) s k) eqn:E; [discriminate|].
  exfalso. exact (IH _ _ E).
Qed.

Lemma rep_maximal cls (s : list ascii) :
  forall lo prev rest,
    rep cls lo None prev s final = Some rest -> stops_at cls rest.
Proof.
  induction s as [|c s IH]; intros lo prev rest; simpl.
  - destruct lo; [|discriminate]. intro H; inversion H. left; trivial.
  - destruct (cls c) eqn:Hc; simpl.
    + destruct (rep cls (Nat.pred lo) None (Some c) s final) as [y|] eqn:E.
      * intro H; inversion H; subst y. eapply IH; eauto.
      * destruct lo; [|discriminate]. exfalso.
        revert E. apply rep_total. discriminate.
    + destruct lo; [|discriminate]. intro H; inversion H.
      right. exists c, s. auto.
Qed.

Lemma bt_cat (R : Type) r1 r2 prev s (k : cont R) x :
  bt (Cat r1 r2) prev s k = Some x -> exists p t, bt r2 p t k = Some x.
Proof.
  intro H. cbn [bt] in H. apply bt_sound in H.
  destruct H as (m & rest & _ & _ & H). eauto.
Qed.

(** A website match is followed by the end of the text or by a character
    outside the class. *)
Lemma website_match_stops (d g : string) :
  re_search website_pattern d = Some g ->
  exists pre post,
    chars d = (pre ++ chars g ++ post)%list /\ stops_at url_char post.
Proof.
  intro H. apply re_search_sound in H.
  destruct H as (pre & m & post & prev & Hd & -> & _ & Hbt).
  exists pre, post. rewrite chars_string_of_list. split; [exact Hd|].
  unfold website_pattern in Hbt.
  do 5 (apply bt_cat in Hbt; destruct Hbt as (? & ? & Hbt)).
  cbn [bt] in Hbt. eapply rep_maximal; eauto.
Qed.

(** An email match has an at-sign, a website match a colon. *)
Lemma email_match_has_at (d g : string) :
  re_search email_pattern d = Some g -> In "@"%char (chars d).
Proof.
  intro H. apply re_search_sound in H.
  destruct H as (pre & m & post & prev & Hd & _ & Hm & _).
  unfold chars. rewrite Hd. unfold email_pattern in Hm. cbn [matches] in Hm.
  destruct Hm as (m1 & r1 & -> & _ & m2 & r2 & -> & _ & m3 & r3 & -> & -> & _).
  rewrite !in_app_iff. simpl. tauto.
Qed.

Lemma website_match_has_colon (d g : string) :
  re_search website_pattern d = Some g -> In ":"%char (chars d).
Proof.
  intro H. apply re_search_sound in H.
  destruct H as (pre & m & post & prev & Hd & _ & Hm & _).
  unfold chars. rewrite Hd. apply website_match_shape in Hm.
  destruct Hm as (sch & www & cs & p & -> & _).
  rewrite !in_app_iff. simpl. tauto.
Qed.

(** ** Runs that end by an exception *)

Lemma while_loop_turns (w : World) cc n v0 st0 v st :
  turns w cc n v0 st0 v st ->
  forall fuel,
    while_loop w cc (n + fuel) (fst v0) (snd v0) st0
    = while_loop w cc fuel (fst v) (snd v) st.
Proof.
  induction 1 as [|n v st v1 st1 v2 st2 Hfull Hbody _ IH]; intro fuel.
  - reflexivity.
  - simpl plus. rewrite (while_loop_step w cc _ _ _ _ v1 st1 Hfull Hbody).
    apply IH.
Qed.

Lemma while_loop_raises (w : World) cc fuel channels seen st e st1 :
  full channels = false ->
  while_body w cc channels seen st = (Raise e, st1) ->
  while_loop w cc (S fuel) channels seen st = (Some (Raise e), st1).
Proof. intros Hfull Hbody. simpl. rewrite Hfull, Hbody. reflexivity. Qed.

Lemma while_body_search_raises (w : World) cc channels seen st e :
  search_execute w (calls st) cc = Raise e ->
  while_body w cc channels seen st
  = (Raise e, {| calls := SearchList cc :: calls st; log := log st |}).
Proof. intro H. rewrite while_body_eq. cbv zeta. rewrite H. reflexivity. Qed.

(** ** The inspection on a response of the expected shape *)

Lemma reports_subscribers_channel_page sn subs views videos n :
  parse_int subs = Some n ->
  reports_subscribers (channel_page sn (stats subs views videos)) n.
Proof.
  intro H. exists (PList [PDict [("snippet", PDict sn);
                                 ("statistics", PDict (stats subs views videos))]]),
             sn, (PDict (stats subs views videos)).
  repeat split. unfold stat, stats, rbind. simpl. rewrite H. reflexivity.
Qed.

(** The body of the [try] on a response of the expected shape. *)
Lemma get_channel_info_try_expected (w : World) id st response n :
  channels_execute w (calls st) id = Ok response ->
  reports_subscribers response n ->
  exists sn stt,
    first_item response = Ok (PDict sn, stt)
    /\ get_channel_info_try w id st
       = (Ok (if n >? 50000 then PDict [] else present id sn stt),
          {| calls := ChannelsList id :: calls st; log := log st |}).
Proof.
  intros Hex (items & sn & stt & Hitems & Htr & Hfirst & Hstat).
  exists sn, stt. split; [exact Hfirst|].
  revert Hfirst Hstat. unfold first_item, stat, rbind.
  destruct (subscript_str response "items") as [its|] eqn:E1; [|discriminate].
  destruct (subscript_0 its) as [cd|] eqn:E2; [|discriminate].
  destruct (subscript_str cd "snippet") as [x|] eqn:E3; [|discriminate].
  destruct (subscript_str cd "statistics") as [y|] eqn:E4; [|discriminate].
  intro H; inv_results.
  destruct (method_get stt "subscriberCount" (PInt 0)) as [c|] eqn:E5;
    [|discriminate].
  intro Hint. run.
  rewrite Hex. simpl. rewrite Hitems. simpl. rewrite Htr. simpl.
  rewrite E1. simpl. rewrite E2. simpl. rewrite E3. simpl.
  rewrite E4. simpl. rewrite E5. simpl. rewrite Hint. simpl.
  destruct (n >? 50000); reflexivity.
Qed.

Lemma inspection_by_count (w : World) id st response n :
  channels_execute w (calls st) id = Ok response ->
  reports_subscribers response n ->
  (n > 50000 -> fst (get_channel_info w id st) = Ok (PDict []))
  /\ (n <= 50000 ->
      exists info,
        fst (get_channel_info w id st) = Ok info
        /\ truthy info = true
        /\ forall r, shape_record id info = Ok r -> subscribers r = n).
Proof.
  intros Hex Hrep.
  pose proof Hrep as (items & sn0 & stt0 & _ & _ & Hfirst0 & Hstat).
  destruct (get_channel_info_try_expected w id st response n Hex Hrep)
    as (sn & stt & Hfirst & Htry).
  rewrite Hfirst0 in Hfirst. inv_results.
  rewrite get_channel_info_eq, Htry. simpl. split.
  - intro Hn. apply Z.gt_lt, Z.gtb_lt in Hn. rewrite Hn. reflexivity.
  - intro Hn. destruct (Z.gtb_spec n 50000); [lia|].
    eexists. split; [reflexivity|]. split; [reflexivity|].
    intros r Hr. destruct (shape_record_present _ _ _ _ Hr) as (_ & Hs & _).
    rewrite Hstat in Hs. inv_results. reflexivity.
Qed.

(** [int] raises [TypeError] or [ValueError] only. *)
Lemma py_int_raises (c : pyval) (e : exn) :
  py_int c = Raise e -> e = TypeError \/ e = ValueError.
Proof.
  destruct c; simpl; try destruct (parse_int s); intro H; inv_results; auto.
Qed.

(* ================================================================== *)
(** * The properties of the specification *)
(* ================================================================== *)

(** C1 (defect of the code). The search source returns the same three hits
    on every request and all three are over the threshold: for every
    region code the loop asks again and again with the same arguments,
    and no amount of fuel lets the operation return. *)
Theorem discovery_diverges_on_exhausted_source :
  forall cc fuel,
    fst (get_channels_from_country filtered_world fuel cc initial) = None.
Proof.
  intros cc fuel. unfold get_channels_from_country.
  assert (H : fst (while_loop filtered_world cc fuel [] [] initial) = None).
  { destruct fuel as [|fuel]; [reflexivity|].
    erewrite while_loop_step; [|reflexivity|vm_compute; reflexivity].
    apply while_loop_stuck; [reflexivity|].
    apply (constant_world_exhausted ["c1"; "c2"; "c3"]). }
  destruct (while_loop filtered_world cc fuel [] [] initial) as [[[?|?]|] ?];
    simpl in H; try discriminate. reflexivity.
Qed.

(** C2 (defect of the code). The website pattern lets the optional [www.]
    match nothing when the look-ahead refuses what follows it, so a URL of
    the platform written with [www.] is returned as the website, while the
    same URL without [www.] is refused. *)
Theorem website_keeps_www_platform_url :
  website (extract_contact_info "see https://www.youtube.com/channel/x")
  = "https://www.youtube.com/channel/x"
  /\ website (extract_contact_info "clip: http://www.youtu.be/abc <end>")
     = "http://www.youtu.be/abc"
  /\ website (extract_contact_info "see https://youtube.com/channel/x") = "N/A".
Proof. repeat split; vm_compute; reflexivity. Qed.

(** C3 (defect of the code). The search source returns the same three
    channels on every page and all three are admitted: after the first
    page and after the second there are exactly three records, and the
    operation never returns them, whatever the fuel. *)
Theorem three_channels_never_returned :
  forall cc,
    (exists v1 st1 v2 st2,
        turns three_world cc 1 ([], []) initial v1 st1
        /\ turns three_world cc 2 ([], []) initial v2 st2
        /\ map channelId (fst v1) = [HStr "c1"; HStr "c2"; HStr "c3"]
        /\ fst v2 = fst v1)
    /\ forall fuel,
        fst (get_channels_from_country three_world fuel cc initial) = None.
Proof.
  intro cc.
  pose (p := while_body three_world cc [] [] initial). vm_compute in p.
  assert (H1 : while_body three_world cc [] [] initial = p)
    by (vm_compute; reflexivity).
  unfold p in H1. clear p.
  match type of H1 with
  | _ = (Ok ?v, ?st) => set (v1 := v) in *; set (st1 := st) in *
  end.
  assert (H2 : exists st2,
             while_body three_world cc (fst v1) (snd v1) st1 = (Ok v1, st2))
    by (eexists; vm_compute; reflexivity).
  destruct H2 as [st2 H2].
  split.
  - exists v1, st1, v1, st2. split; [|split; [|split]].
    + eapply turns_S; [reflexivity | exact H1 | apply turns_O].
    + eapply turns_S; [reflexivity | exact H1 |].
      eapply turns_S; [reflexivity | exact H2 | apply turns_O].
    + reflexivity.
    + reflexivity.
  - intro fuel. unfold get_channels_from_country.
    assert (H : fst (while_loop three_world cc fuel [] [] initial) = None).
    { destruct fuel as [|fuel]; [reflexivity|].
      rewrite (while_loop_step three_world cc fuel [] [] initial v1 st1
                 eq_refl H1).
      apply while_loop_stuck; [reflexivity|].
      apply (constant_world_exhausted ["c1"; "c2"; "c3"]). }
    destruct (while_loop three_world cc fuel [] [] initial) as [[[?|?]|] ?];
      simpl in H; try discriminate. reflexivity.
Qed.

(** The part of C3 that holds of every run that returns: at most 50
    records, and no two of them with equal ids. *)
Lemma discovery_output_bounded_distinct (w : World) fuel cc st out st' :
  get_channels_from_country w fuel cc st = (Some out, st') ->
  (length out <= 50)%nat
  /\ distinct (map channelId out)
  /\ NoDup (map channelId out).
Proof.
  intro H. apply get_channels_from_country_inv in H.
  destruct H as (seen & _ & H). destruct (H out eq_refl) as (Hlen & _ & Hd).
  auto using distinct_NoDup.
Qed.

(** C4. Every record of an output has at most 50000 subscribers; a channel
    reported with 60000 subscribers gives an absent inspection result, and
    one reported with 100 a present result whose record has
    [subscribers = 100]. *)
Theorem emitted_subscribers_within_threshold :
  (forall w fuel cc st out st',
      get_channels_from_country w fuel cc st = (Some out, st') ->
      Forall (fun r => subscribers r <= 50000) out)
  /\ (forall w id st response,
         channels_execute w (calls st) id = Ok response ->
         reports_subscribers response 60000 ->
         fst (get_channel_info w id st) = Ok (PDict []))
  /\ (forall w id st response,
         channels_execute w (calls st) id = Ok response ->
         reports_subscribers response 100 ->
         exists info,
           fst (get_channel_info w id st) = Ok info
           /\ truthy info = true
           /\ forall r, shape_record id info = Ok r -> subscribers r = 100).
Proof.
  split; [|split].
  - intros w fuel cc st out st' H. apply get_channels_from_country_inv in H.
    destruct H as (seen & _ & H). destruct (H out eq_refl) as (_ & Hall & _).
    eapply Forall_impl; [|exact Hall]. simpl. tauto.
  - intros w id st response Hex Hrep.
    apply (proj1 (inspection_by_count w id st response 60000 Hex Hrep)). lia.
  - intros w id st response Hex Hrep.
    apply (proj2 (inspection_by_count w id st response 100 Hex Hrep)). lia.
Qed.

(** The three parts at work: a run that returns fifty records, a channel
    with 60000 subscribers, and one with 100. *)
Lemma emitted_subscribers_witness :
  (exists out st',
      get_channels_from_country
        (fifty_world (channel_page full_snippet (stats "100" "5" "7")))
        1 "US" initial = (Some out, st')
      /\ length out = 50%nat
      /\ Forall (fun r => subscribers r <= 50000) out)
  /\ fst (get_channel_info filtered_world (HStr "c1") initial) = Ok (PDict [])
  /\ exists info r,
      fst (get_channel_info three_world (HStr "c1") initial) = Ok info
      /\ shape_record (HStr "c1") info = Ok r
      /\ subscribers r = 100.
Proof.
  destruct emitted_subscribers_within_threshold as (H1 & H2 & H3).
  split; [|split].
  - do 2 eexists. split; [vm_compute; reflexivity|].
    split; [reflexivity|].
    eapply (H1 (fifty_world (channel_page full_snippet (stats "100" "5" "7")))
               1%nat "US" initial).
    vm_compute; reflexivity.
  - eapply (H2 filtered_world (HStr "c1") initial); [reflexivity|].
    apply reports_subscribers_channel_page. reflexivity.
  - destruct (H3 three_world (HStr "c1") initial
                 (channel_page full_snippet (stats "100" "5" "7")) eq_refl
                 (reports_subscribers_channel_page full_snippet "100" "5" "7" 100
                    eq_refl))
      as (info & Hinfo & _ & Hr).
    exists info. eexists. split; [exact Hinfo|].
    assert (E : info = present (HStr "c1") full_snippet
                               (PDict (stats "100" "5" "7"))).
    { vm_compute in Hinfo. inversion Hinfo. reflexivity. }
    split; [rewrite E; vm_compute; reflexivity|].
    apply Hr. rewrite E. vm_compute. reflexivity.
Defined.

(** C5 as stated fails. With [subscriberCount] equal to [abc] the
    inspection logs a [ValueError] and gives nothing, so no record with
    0 subscribers is made; with [viewCount] equal to [abc] the whole
    operation is aborted and returns the empty list. *)
Lemma nonparsable_statistics_not_defaulted :
  (get_channel_info unreadable_subscribers_world (HStr "c1") initial
   = (Ok (PDict []),
      {| calls := [ChannelsList (HStr "c1")];
         log := [{| lvl := ERROR;
                    text := "Error getting channel info for c1: ";
                    cause := Some ValueError |}] |})
   /\ ~ (exists info st' r,
            get_channel_info unreadable_subscribers_world (HStr "c1") initial
            = (Ok info, st')
            /\ truthy info = true
            /\ shape_record (HStr "c1") info = Ok r
            /\ subscribers r = 0))
  /\ get_channels_from_country unreadable_views_world 1 "US" initial
     = (Some [],
        {| calls := [ChannelsList (HStr "c1"); SearchList "US"];
           log := [{| lvl := ERROR;
                      text := "Error getting channels from US: ";
                      cause := Some ValueError |}] |}).
Proof.
  split; [split|].
  - vm_compute. reflexivity.
  - intros (info & st' & r & H & Htr & _).
    vm_compute in H. inversion H; subst info. discriminate.
  - vm_compute. reflexivity.
Qed.

(** C5, as the code has it. A statistic that is missing reads as 0, in the
    admission test and in the record, and raises nothing. Whatever else
    the item carries: when each of the three statistics is missing or can
    be read by [int], the subscribers are at most 50000 and the description
    is a string or missing, the inspection returns the channel and logs
    nothing, the record is made with 0 for each missing statistic and the
    reading of each other one, and the loop appends it; a missing
    [subscriberCount] alone is enough for the channel to pass the
    inspection. A subscriber count that is there and that [int] cannot
    read makes the inspection log an error and give nothing, without
    raising, and the loop goes on with the next hit and no record of the
    channel. *)
Theorem statistics_missing_default_to_zero :
  (forall w id st response items sn stt a b c,
      channels_execute w (calls st) id = Ok response ->
      method_get response "items" PNone = Ok items ->
      truthy items = true ->
      first_item response = Ok (PDict sn, PDict stt) ->
      reads_as stt "subscriberCount" a -> a <= 50000 ->
      reads_as stt "viewCount" b ->
      reads_as stt "videoCount" c ->
      (forall x, lookup "description" sn = Some x -> exists t, x = PStr t) ->
      exists r,
        get_channel_info w id st
        = (Ok (present id sn (PDict stt)),
           {| calls := ChannelsList id :: calls st; log := log st |})
        /\ shape_record id (present id sn (PDict stt)) = Ok r
        /\ subscribers r = a /\ totalViews r = b /\ totalVideos r = c
        /\ (lookup "subscriberCount" stt = None -> subscribers r = 0)
        /\ (lookup "viewCount" stt = None -> totalViews r = 0)
        /\ (lookup "videoCount" stt = None -> totalVideos r = 0)
        /\ forall item rest channels seen,
            carries item id -> set_mem id seen = false ->
            for_items w (item :: rest) channels seen st
            = if full (channels ++ [r])
              then (Ok (channels ++ [r], id :: seen)%list,
                    {| calls := ChannelsList id :: calls st; log := log st |})
              else for_items w rest (channels ++ [r]) (id :: seen)
                     {| calls := ChannelsList id :: calls st;
                        log := log st |})
  /\ (forall w id st response items sn stt,
         channels_execute w (calls st) id = Ok response ->
         method_get response "items" PNone = Ok items ->
         truthy items = true ->
         first_item response = Ok (PDict sn, PDict stt) ->
         lookup "subscriberCount" stt = None ->
         get_channel_info w id st
         = (Ok (present id sn (PDict stt)),
            {| calls := ChannelsList id :: calls st; log := log st |}))
  /\ (forall id sn stt r,
         shape_record id (present id sn (PDict stt)) = Ok r ->
         (lookup "subscriberCount" stt = None -> subscribers r = 0)
         /\ (lookup "viewCount" stt = None -> totalViews r = 0)
         /\ (lookup "videoCount" stt = None -> totalVideos r = 0))
  /\ (forall w id st response items sn stt c e,
         channels_execute w (calls st) id = Ok response ->
         method_get response "items" PNone = Ok items ->
         truthy items = true ->
         first_item response = Ok (sn, PDict stt) ->
         lookup "subscriberCount" stt = Some c ->
         py_int c = Raise e ->
         get_channel_info w id st
         = (Ok (PDict []),
            {| calls := ChannelsList id :: calls st;
               log := {| lvl := ERROR;
                         text := "Error getting channel info for "
                                   ++ py_str id ++ ": ";
                         cause := Some e |} :: log st |})
         /\ forall item rest channels seen,
             carries item id -> set_mem id seen = false ->
             full channels = false ->
             for_items w (item :: rest) channels seen st
             = for_items w rest channels (id :: seen)
                 {| calls := ChannelsList id :: calls st;
                    log := {| lvl := ERROR;
                              text := "Error getting channel info for "
                                        ++ py_str id ++ ": ";
                              cause := Some e |} :: log st |}).
Proof.
  assert (Hpass : forall w id st response items sn stt a,
             channels_execute w (calls st) id = Ok response ->
             method_get response "items" PNone = Ok items ->
             truthy items = true ->
             first_item response = Ok (PDict sn, PDict stt) ->
             reads_as stt "subscriberCount" a -> a <= 50000 ->
             get_channel_info w id st
             = (Ok (present id sn (PDict stt)),
                {| calls := ChannelsList id :: calls st; log := log st |})).
  { intros w id st response items sn stt a Hex Hitems Htr Hfirst Ha Hle.
    assert (Hrep : reports_subscribers response a).
    { exists items, sn, (PDict stt). repeat split; trivial.
      unfold reads_as in Ha. unfold stat, rbind. simpl.
      destruct (lookup "subscriberCount" stt); [exact Ha | now subst]. }
    destruct (get_channel_info_try_expected w id st response a Hex Hrep)
      as (sn' & stt' & Hfirst' & Htry).
    rewrite Hfirst in Hfirst'. inv_results.
    rewrite get_channel_info_eq, Htry.
    destruct (Z.gtb_spec a 50000); [lia | reflexivity]. }
  split; [|split; [|split]].
  - intros w id st response items sn stt a b c
           Hex Hitems Htr Hfirst Ha Hle Hb Hc Hdesc.
    pose proof (Hpass w id st response items sn stt a
                  Hex Hitems Htr Hfirst Ha Hle) as Hinfo.
    assert (Hrec : exists r,
               shape_record id (present id sn (PDict stt)) = Ok r
               /\ subscribers r = a /\ totalViews r = b /\ totalVideos r = c).
    { unfold reads_as in Ha, Hb, Hc.
      unfold shape_record, present, rbind. simpl.
      assert (Hd : exists t, match lookup "description" sn with
                             | Some x => x
                             | None => PStr ""
                             end = PStr t).
      { destruct (lookup "description" sn) as [x|]; eauto. }
      destruct Hd as [t ->]. simpl.
      destruct (lookup "subscriberCount" stt); [rewrite Ha | subst a]; simpl;
        (destruct (lookup "viewCount" stt); [rewrite Hb | subst b]); simpl;
        (destruct (lookup "videoCount" stt); [rewrite Hc | subst c]); simpl;
        eexists; repeat split. }
    destruct Hrec as (r & Hrec & <- & <- & <-).
    exists r. split; [exact Hinfo|]. split; [exact Hrec|].
    split; [reflexivity|]. split; [reflexivity|]. split; [reflexivity|].
    unfold reads_as in Ha, Hb, Hc.
    split; [intro H; rewrite H in Ha; exact Ha|].
    split; [intro H; rewrite H in Hb; exact Hb|].
    split; [intro H; rewrite H in Hc; exact Hc|].
    intros item rest channels seen Hid Hmem.
    apply (for_items_admit w item rest channels seen st id _ _ r
             Hid Hmem Hinfo eq_refl Hrec).
  - intros w id st response items sn stt Hex Hitems Htr Hfirst Hs.
    apply (Hpass w id st response items sn stt 0 Hex Hitems Htr Hfirst);
      [|lia].
    unfold reads_as. rewrite Hs. reflexivity.
  - intros id sn stt r Hr.
    destruct (shape_record_present _ _ _ _ Hr) as (_ & H1 & H2 & H3 & _).
    unfold stat, rbind in *. simpl in *.
    repeat split; intro H; rewrite H in *; simpl in *; inv_results; trivial.
  - intros w id st response items sn stt c e Hex Hitems Htr Hfirst Hs Hint.
    assert (Hinfo : get_channel_info w id st
                    = (Ok (PDict []),
                       {| calls := ChannelsList id :: calls st;
                          log := {| lvl := ERROR;
                                    text := "Error getting channel info for "
                                              ++ py_str id ++ ": ";
                                    cause := Some e |} :: log st |})).
    { revert Hfirst. unfold first_item, rbind.
      destruct (subscript_str response "items") as [its|] eqn:E1;
        [|discriminate].
      destruct (subscript_0 its) as [cd|] eqn:E2; [|discriminate].
      destruct (subscript_str cd "snippet") as [x|] eqn:E3; [|discriminate].
      destruct (subscript_str cd "statistics") as [y|] eqn:E4; [|discriminate].
      intro H; inv_results.
      run. rewrite Hex. simpl. rewrite Hitems. simpl. rewrite Htr. simpl.
      rewrite E1. simpl. rewrite E2. simpl. rewrite E3. simpl.
      rewrite E4. simpl. rewrite Hs. simpl. rewrite Hint. simpl.
      destruct (py_int_raises c e Hint) as [-> | ->]; reflexivity. }
    split; [exact Hinfo|].
    intros item rest channels seen Hid Hmem Hfull.
    apply (for_items_absent w item rest channels seen st id _ _
             Hid Hmem Hinfo eq_refl Hfull).
Qed.

(** A channel that hides its subscribers and one whose subscriber count
    is no number. *)
Lemma statistics_missing_witness :
  (exists r,
      get_channel_info hidden_subscribers_world (HStr "c1") initial
      = (Ok (present (HStr "c1") full_snippet
               (PDict [("viewCount", PStr "5");
                       ("hiddenSubscriberCount", PBool true);
                       ("videoCount", PStr "7")])),
         {| calls := [ChannelsList (HStr "c1")]; log := [] |})
      /\ shape_record (HStr "c1")
           (present (HStr "c1") full_snippet
              (PDict [("viewCount", PStr "5");
                      ("hiddenSubscriberCount", PBool true);
                      ("videoCount", PStr "7")]))
         = Ok r
      /\ subscribers r = 0 /\ totalViews r = 5 /\ totalVideos r = 7)
  /\ get_channel_info unreadable_subscribers_world (HStr "c1") initial
     = (Ok (PDict []),
        {| calls := [ChannelsList (HStr "c1")];
           log := [{| lvl := ERROR;
                      text := "Error getting channel info for c1: ";
                      cause := Some ValueError |}] |}).
Proof.
  destruct statistics_missing_default_to_zero as (H1 & _ & _ & H4).
  split.
  - destruct (H1 hidden_subscribers_world (HStr "c1") initial
                hidden_subscribers_page
                (PList [PDict [("kind", PStr "youtube#channel");
                               ("id", PStr "c1");
                               ("snippet", PDict full_snippet);
                               ("statistics",
                                PDict [("viewCount", PStr "5");
                                       ("hiddenSubscriberCount", PBool true);
                                       ("videoCount", PStr "7")])]])
                full_snippet
                [("viewCount", PStr "5");
                 ("hiddenSubscriberCount", PBool true);
                 ("videoCount", PStr "7")]
                0 5 7)
      as (r & Hinfo & Hrec & Hs & Hv & Hd & _);
      try reflexivity; [lia | |].
    { intros x Hx. vm_compute in Hx. inversion Hx. eauto. }
    exists r. split; [exact Hinfo|]. split; [exact Hrec|]. auto.
  - apply (H4 unreadable_subscribers_world (HStr "c1") initial
             (channel_page full_snippet (stats "abc" "5" "7"))
             (PList [PDict [("snippet", PDict full_snippet);
                            ("statistics", PDict (stats "abc" "5" "7"))]])
             (PDict full_snippet) (stats "abc" "5" "7") (PStr "abc")
             ValueError); reflexivity.
Defined.

(** C6. [extract_contact_info] is a function of its argument alone, with a
    value for every text; each field is the sentinel when its own search
    finds nothing, whatever the other search finds; a text with no at-sign
    has no email and a text with no colon no website. *)
Theorem extract_contact_info_total :
  (forall d, exists c, extract_contact_info d = c)
  /\ (forall d1 d2, d1 = d2 -> extract_contact_info d1 = extract_contact_info d2)
  /\ (forall d, re_search email_pattern d = None ->
                email (extract_contact_info d) = "N/A")
  /\ (forall d, re_search website_pattern d = None ->
                website (extract_contact_info d) = "N/A")
  /\ (forall d g, re_search email_pattern d = Some g ->
                  email (extract_contact_info d) = g)
  /\ (forall d g, re_search website_pattern d = Some g ->
                  website (extract_contact_info d) = g)
  /\ (forall d, ~ In "@"%char (chars d) ->
                email (extract_contact_info d) = "N/A")
  /\ (forall d, ~ In ":"%char (chars d) ->
                website (extract_contact_info d) = "N/A")
  /\ extract_contact_info "contact me at a@b.com"
     = {| email := "a@b.com"; website := "N/A" |}.
Proof.
  unfold extract_contact_info. simpl.
  split; [eauto|]. split; [intros; subst; reflexivity|].
  split; [intros d ->; reflexivity|]. split; [intros d ->; reflexivity|].
  split; [intros d g ->; reflexivity|]. split; [intros d g ->; reflexivity|].
  split; [|split].
  - intros d Hno. destruct (re_search email_pattern d) as [g|] eqn:E; trivial.
    exfalso. apply Hno. exact (email_match_has_at d g E).
  - intros d Hno. destruct (re_search website_pattern d) as [g|] eqn:E; trivial.
    exfalso. apply Hno. exact (website_match_has_colon d g E).
  - vm_compute. reflexivity.
Qed.

(** A text with a website and no email, and one with an email and no
    website. *)
Lemma extract_contact_info_witness :
  email (extract_contact_info "visit https://example.org now") = "N/A"
  /\ website (extract_contact_info "visit https://example.org now")
     = "https://example.org"
  /\ website (extract_contact_info "mail bob@example.com, no site") = "N/A"
  /\ email (extract_contact_info "mail bob@example.com, no site")
     = "bob@example.com".
Proof.
  destruct extract_contact_info_total
    as (_ & _ & _ & _ & He & Hw & Hna & Hnw & _).
  split; [|split; [|split]].
  - apply Hna. vm_compute. intuition discriminate.
  - apply Hw. vm_compute. reflexivity.
  - apply Hnw. vm_compute. intuition discriminate.
  - apply He. vm_compute. reflexivity.
Defined.

(** C7. When the search collaborator raises, after any number of turns of
    the loop and whatever has been collected, the operation returns the
    empty list and the last line of the log is at level ERROR. *)
Theorem search_failure_aborts_discovery
        (w : World) (cc : string) (n : nat) (st0 : state)
        (v : vars) (st : state) (e : exn) (fuel : nat) :
  turns w cc n ([], []) st0 v st ->
  full (fst v) = false ->
  search_execute w (calls st) cc = Raise e ->
  (n < fuel)%nat ->
  get_channels_from_country w fuel cc st0
  = (Some [],
     {| calls := SearchList cc :: calls st;
        log := {| lvl := ERROR;
                  text := "Error getting channels from " ++ cc ++ ": ";
                  cause := Some e |} :: log st |}).
Proof.
  intros Hturns Hfull Hraise Hlt.
  unfold get_channels_from_country.
  replace fuel with (n + S (fuel - n - 1))%nat by lia.
  rewrite (while_loop_turns w cc n _ _ _ _ Hturns).
  rewrite (while_loop_raises w cc _ _ _ _ e _ Hfull
             (while_body_search_raises w cc _ _ _ e Hraise)).
  reflexivity.
Qed.

(** One record has been collected when the second request for hits
    raises: the result is empty all the same. *)
Lemma search_failure_aborts_witness :
  exists v st,
    turns quota_world "US" 1 ([], []) initial v st
    /\ length (fst v) = 1%nat
    /\ get_channels_from_country quota_world 2 "US" initial
       = (Some [],
          {| calls := SearchList "US" :: calls st;
             log := [{| lvl := ERROR;
                        text := "Error getting channels from US: ";
                        cause := Some (HttpError "quotaExceeded") |}] |}).
Proof.
  pose (p := while_body quota_world "US" [] [] initial). vm_compute in p.
  assert (H1 : while_body quota_world "US" [] [] initial = p)
    by (vm_compute; reflexivity).
  unfold p in H1. clear p.
  match type of H1 with
  | _ = (Ok ?x, ?y) => set (v := x) in *; set (st := y) in *
  end.
  assert (Ht : turns quota_world "US" 1 ([], []) initial v st).
  { eapply turns_S; [reflexivity | exact H1 | apply turns_O]. }
  exists v, st. split; [exact Ht|]. split; [reflexivity|].
  apply (search_failure_aborts_discovery quota_world "US" 1 initial v st
           (HttpError "quotaExceeded") 2 Ht); [reflexivity|reflexivity|lia].
Defined.

(** C8 as stated fails. A response whose description is [null] is not of
    the expected shape, and yet the inspection returns it as present and
    logs nothing; no record can be made of it, and the run, far from going
    on, ends there with the empty list. *)
Lemma null_description_is_returned :
  (exists response sn stt,
      channels_execute null_description_world [] (HStr "c1") = Ok response
      /\ first_item response = Ok (PDict sn, stt)
      /\ lookup "description" sn = Some PNone)
  /\ (exists v,
         get_channel_info null_description_world (HStr "c1") initial
         = (Ok v, {| calls := [ChannelsList (HStr "c1")]; log := [] |})
         /\ v <> PDict []
         /\ truthy v = true
         /\ shape_record (HStr "c1") v = Raise TypeError)
  /\ get_channels_from_country null_description_world 1 "US" initial
     = (Some [],
        {| calls := [ChannelsList (HStr "c1"); SearchList "US"];
           log := [{| lvl := ERROR;
                      text := "Error getting channels from US: ";
                      cause := Some TypeError |}] |}).
Proof.
  split; [|split].
  - do 3 eexists. split; [reflexivity|]. split; reflexivity.
  - eexists. split; [vm_compute; reflexivity|].
    split; [discriminate|]. split; reflexivity.
  - vm_compute. reflexivity.
Qed.

(** C8, as the code has it. The inspection never raises and sends one
    request. It gives the empty dict exactly when the collaborator reports
    no item, or the subscriber count is above 50000, or the call fails:
    the collaborator raises, or its response cannot be read. What it
    returns and logs is fixed by the answer of the collaborator: a warning
    for no item, nothing for a count above 50000, one line at level ERROR
    with the exception for a failure, and for a channel that passes the
    six keys of the result, read from the snippet as it is, and no line.
    After an absent result the loop over the hits goes on with the next
    hit. *)
Theorem get_channel_info_absent_iff (w : World) (id : hval) (st : state) :
  exists v st',
    get_channel_info w id st = (Ok v, st')
    /\ calls st' = ChannelsList id :: calls st
    /\ (v = PDict [] <->
        no_matching_item w id st \/ over_threshold w id st
        \/ exists e, call_fails w id st e)
    /\ (v <> PDict [] <-> exists sn stt n, admitted w id st sn stt n)
    /\ (forall sn stt n,
           admitted w id st sn stt n ->
           v = present id sn stt /\ log st' = log st)
    /\ (no_matching_item w id st ->
        log st' = {| lvl := WARNING;
                     text := "No information found for channel " ++ py_str id;
                     cause := None |} :: log st)
    /\ (over_threshold w id st -> log st' = log st)
    /\ (forall e, call_fails w id st e ->
                  log st' = channel_error_entry id e :: log st
                  /\ lvl (channel_error_entry id e) = ERROR)
    /\ (forall item rest channels seen,
           carries item id -> set_mem id seen = false ->
           full channels = false -> v = PDict [] ->
           for_items w (item :: rest) channels seen st
           = for_items w rest channels (id :: seen) st').
Proof.
  destruct (get_channel_info_cases w id st)
    as (v & st' & Hinfo & Hcalls & Hcases).
  destruct (verdicts_exclusive w id st) as (Hnone & Hover & Hfail).
  exists v, st'. split; [exact Hinfo|]. split; [exact Hcalls|].
  assert (Hnext : forall item rest channels seen,
             carries item id -> set_mem id seen = false ->
             full channels = false -> v = PDict [] ->
             for_items w (item :: rest) channels seen st
             = for_items w rest channels (id :: seen) st').
  { intros item rest channels seen Hid Hmem Hfull ->.
    now apply for_items_absent with (id := id) (v := PDict []). }
  destruct Hcases
    as [[-> [[Hc Hlog] | [[Hc Hlog] | (e & Hc & Hlog)]]]
       | (sn & stt & n & Hadm & -> & Hlog)].
  - (* no item *)
    destruct (Hnone Hc) as (Hno & Hnf & Hna).
    split; [split; auto|].
    split; [split; [intro H; now contradiction H
                   | intros (sn & stt & n & H); exfalso; exact (Hna _ _ _ H)]|].
    split; [intros sn stt n H; exfalso; exact (Hna _ _ _ H)|].
    split; [intros _; exact Hlog|].
    split; [intro H; exfalso; exact (Hno H)|].
    split; [intros e H; exfalso; exact (Hnf _ H) | exact Hnext].
  - (* above the threshold *)
    destruct (Hover Hc) as (Hnf & Hna).
    split; [split; auto|].
    split; [split; [intro H; now contradiction H
                   | intros (sn & stt & n & H); exfalso; exact (Hna _ _ _ H)]|].
    split; [intros sn stt n H; exfalso; exact (Hna _ _ _ H)|].
    split; [intro H; exfalso; destruct (Hnone H) as (Hno & _); exact (Hno Hc)|].
    split; [intros _; exact Hlog|].
    split; [intros e H; exfalso; exact (Hnf _ H) | exact Hnext].
  - (* the call fails *)
    destruct (Hfail e Hc) as (Hna & Huniq).
    split; [split; eauto|].
    split; [split; [intro H; now contradiction H
                   | intros (sn & stt & n & H); exfalso; exact (Hna _ _ _ H)]|].
    split; [intros sn stt n H; exfalso; exact (Hna _ _ _ H)|].
    split; [intro H; exfalso; destruct (Hnone H) as (_ & Hnf & _);
            exact (Hnf _ Hc)|].
    split; [intro H; exfalso; destruct (Hover H) as (Hnf & _);
            exact (Hnf _ Hc)|].
    split; [|exact Hnext].
    intros e' H. rewrite (Huniq _ H). split; [exact Hlog | reflexivity].
  - (* the channel passes *)
    split.
    { split; [discriminate|]. intros [H | [H | [e H]]]; exfalso.
      - destruct (Hnone H) as (_ & _ & Hna). exact (Hna _ _ _ Hadm).
      - destruct (Hover H) as (_ & Hna). exact (Hna _ _ _ Hadm).
      - destruct (Hfail e H) as (Hna & _). exact (Hna _ _ _ Hadm). }
    split; [split; [eauto | discriminate]|].
    split.
    { intros sn' stt' n' H.
      destruct H as (r1 & i1 & G1 & G2 & G3 & G4 & G5 & G6).
      destruct Hadm as (r2 & i2 & K1 & K2 & K3 & K4 & K5 & K6).
      clash. split; [reflexivity | exact Hlog]. }
    split; [intro H; exfalso; destruct (Hnone H) as (_ & _ & Hna);
            exact (Hna _ _ _ Hadm)|].
    split; [intros _; exact Hlog|].
    split; [|exact Hnext].
    intros e H. exfalso. destruct (Hfail e H) as (Hna & _).
    exact (Hna _ _ _ Hadm).
Qed.

(** A transport error and an item without a snippet: nothing is returned
    and the error is logged; a channel within the threshold is returned. *)
Lemma get_channel_info_absent_witness :
  get_channel_info unreachable_world (HStr "c1") initial
  = (Ok (PDict []),
     {| calls := [ChannelsList (HStr "c1")];
        log := [{| lvl := ERROR;
                   text := "HTTP error getting channel info for c1: ";
                   cause := Some (HttpError "backendError") |}] |})
  /\ get_channel_info bare_item_world (HStr "c1") initial
     = (Ok (PDict []),
        {| calls := [ChannelsList (HStr "c1")];
           log := [{| lvl := ERROR;
                      text := "Error getting channel info for c1: ";
                      cause := Some KeyError |}] |})
  /\ get_channel_info three_world (HStr "c1") initial
     = (Ok (present (HStr "c1") full_snippet (PDict (stats "100" "5" "7"))),
        {| calls := [ChannelsList (HStr "c1")]; log := [] |}).
Proof.
  split; [|split].
  - destruct (get_channel_info_absent_iff unreachable_world (HStr "c1") initial)
      as (v & [cs lg] & Hinfo & Hcalls & Hiff & _ & _ & _ & _ & Hlog & _).
    assert (Hfail : call_fails unreachable_world (HStr "c1") initial
                      (HttpError "backendError")) by (left; reflexivity).
    assert (Hv : v = PDict []) by (apply Hiff; eauto).
    destruct (Hlog _ Hfail) as [Hl _].
    simpl in Hcalls, Hl. subst. exact Hinfo.
  - destruct (get_channel_info_absent_iff bare_item_world (HStr "c1") initial)
      as (v & [cs lg] & Hinfo & Hcalls & Hiff & _ & _ & _ & _ & Hlog & _).
    assert (Hfail : call_fails bare_item_world (HStr "c1") initial KeyError).
    { right. eexists. split; [reflexivity|]. right. eexists.
      split; [reflexivity|]. split; [reflexivity|]. left. reflexivity. }
    assert (Hv : v = PDict []) by (apply Hiff; eauto).
    destruct (Hlog _ Hfail) as [Hl _].
    simpl in Hcalls, Hl. subst. exact Hinfo.
  - destruct (get_channel_info_absent_iff three_world (HStr "c1") initial)
      as (v & [cs lg] & Hinfo & Hcalls & _ & _ & Hadm & _).
    destruct (Hadm full_snippet (PDict (stats "100" "5" "7")) 100) as [Hv Hl].
    { do 2 eexists. split; [reflexivity|]. split; [reflexivity|].
      split; [reflexivity|]. split; [reflexivity|].
      split; [reflexivity|]. lia. }
    simpl in Hcalls, Hl. subst. exact Hinfo.
Defined.

(** C9 (defect of the code). A snippet without [title] and [publishedAt]
    gives records whose [name] and [createDate] are [None], not a string:
    the dict [get_channel_info] returns always has the two keys, so the
    defaults of the record are never used. *)
Theorem untitled_channel_gives_null_name :
  (exists out st',
      get_channels_from_country untitled_world 1 "US" initial = (Some out, st')
      /\ length out = 50%nat
      /\ Forall (fun r => name r = PNone /\ createDate r = PNone) out)
  /\ forall id sn stt r,
      shape_record id (present id sn stt) = Ok r ->
      (lookup "title" sn = None -> name r = PNone)
      /\ (lookup "publishedAt" sn = None -> createDate r = PNone)
      /\ (lookup "customUrl" sn = Some PNone -> url r = PNone).
Proof.
  split.
  - do 2 eexists. split; [vm_compute; reflexivity|]. split; [reflexivity|].
    repeat (constructor; [split; reflexivity|]). constructor.
  - intros id sn stt r Hr.
    destruct (shape_record_present _ _ _ _ Hr)
      as (_ & _ & _ & _ & Hn & Hd & Hu & _).
    rewrite Hn, Hd, Hu.
    repeat split; intro H; rewrite H; reflexivity.
Qed.

(** C10. In one run the metadata collaborator is asked at most once about
    a channel id: the ids of the requests made since the start are
    distinct, whatever the fuel and however the run ends; a hit whose id
    has been seen is passed over with no request, and an id whose
    inspection gave nothing has been put in the set all the same. *)
Theorem metadata_fetched_once_per_channel :
  (forall w fuel cc st,
      exists delta,
        calls (snd (get_channels_from_country w fuel cc st))
        = (delta ++ calls st)%list
        /\ distinct (metadata_ids delta)
        /\ NoDup (metadata_ids delta))
  /\ (forall w item rest channels seen st id,
         carries item id -> set_mem id seen = true ->
         for_items w (item :: rest) channels seen st
         = for_items w rest channels seen st)
  /\ (forall w item rest channels seen st id,
         carries item id -> set_mem id seen = false ->
         full channels = false ->
         fst (get_channel_info w id st) = Ok (PDict []) ->
         exists st1,
           calls st1 = ChannelsList id :: calls st
           /\ for_items w (item :: rest) channels seen st
              = for_items w rest channels (id :: seen) st1).
Proof.
  split; [|split].
  - intros w fuel cc st.
    destruct (get_channels_from_country w fuel cc st) as [r st'] eqn:H.
    apply get_channels_from_country_inv in H.
    destruct H as (seen & (Hd & delta & Hc & Hm) & _).
    exists delta. simpl. rewrite Hm. auto using distinct_NoDup.
  - intros. now apply for_items_skip with (id := id).
  - intros w item rest channels seen st id Hid Hmem Hfull Habs.
    destruct (get_channel_info_returns w id st) as (v & st1 & Hinfo & Hcalls).
    rewrite Hinfo in Habs. simpl in Habs. inv_results.
    exists st1. split; trivial.
    now apply for_items_absent with (id := id) (v := PDict []).
Qed.

(** Five turns over the same three hits: three requests for metadata. *)
Lemma metadata_fetched_once_witness :
  fst (get_channels_from_country three_world 5 "US" initial) = None
  /\ metadata_ids (calls (snd (get_channels_from_country three_world 5 "US"
                                                         initial)))
     = [HStr "c3"; HStr "c2"; HStr "c1"]
  /\ NoDup (metadata_ids
              (calls (snd (get_channels_from_country filtered_world 5 "US"
                                                     initial)))).
Proof.
  split; [vm_compute; reflexivity|]. split; [vm_compute; reflexivity|].
  destruct (proj1 metadata_fetched_once_per_channel filtered_world 5%nat "US"
              initial) as (delta & Hc & _ & Hnd).
  rewrite Hc. simpl. rewrite app_nil_r. exact Hnd.
Defined.

(* ================================================================== *)
(** * Further properties of the code *)
(* ================================================================== *)

(** ** A principle for the invariants of the two loops *)

Section Invariant.
Variable w : World.
Variable cc : string.
Variable I : list ChannelRecord -> list hval -> state -> Prop.

(** [I] is kept by a request for hits, by an inspection that gives nothing
    and by the appending of a record, each made with fewer than 50
    records. *)
Hypothesis I_search : forall ch seen st,
    full ch = false -> I ch seen st ->
    I ch seen {| calls := SearchList cc :: calls st; log := log st |}.
Hypothesis I_absent : forall ch seen st id v st1,
    full ch = false -> I ch seen st -> set_mem id seen = false ->
    get_channel_info w id st = (Ok v, st1) -> truthy v = false ->
    I ch (id :: seen) st1.
Hypothesis I_admit : forall ch seen st id v st1 r,
    full ch = false -> I ch seen st -> set_mem id seen = false ->
    get_channel_info w id st = (Ok v, st1) -> truthy v = true ->
    shape_record id v = Ok r ->
    I (ch ++ [r]) (id :: seen) st1.

Lemma for_items_keeps (items : list pyval) :
  forall ch seen st v st',
    full ch = false -> I ch seen st ->
    for_items w items ch seen st = (Ok v, st') ->
    I (fst v) (snd v) st'.
Proof.
  induction items as [|item rest IH]; intros ch seen st v st' Hfull HI Hrun.
  - simpl in Hrun. unfold ret in Hrun. inv_results. exact HI.
  - destruct (carries_dec item) as [[id Hid]|Hno].
    2:{ destruct (for_items_malformed w item rest ch seen st Hno) as [e He].
        rewrite He in Hrun. inv_results. }
    destruct (set_mem id seen) eqn:Hmem.
    { rewrite (for_items_skip w item rest ch seen st id Hid Hmem) in Hrun.
      eauto. }
    destruct (get_channel_info_returns w id st) as (x & st1 & Hinfo & _).
    destruct (truthy x) eqn:Htr.
    + destruct (shape_record id x) as [r|e] eqn:Hrec.
      2:{ rewrite (for_items_shape_raises w item rest ch seen st id x st1 e
                     Hid Hmem Hinfo Htr Hrec) in Hrun. inv_results. }
      rewrite (for_items_admit w item rest ch seen st id x st1 r
                 Hid Hmem Hinfo Htr Hrec) in Hrun.
      pose proof (I_admit ch seen st id x st1 r Hfull HI Hmem Hinfo Htr Hrec)
        as HI1.
      destruct (full (ch ++ [r])) eqn:Hfull1.
      * inv_results. exact HI1.
      * exact (IH (ch ++ [r])%list (id :: seen) st1 v st' Hfull1 HI1 Hrun).
    + rewrite (for_items_absent w item rest ch seen st id x st1
                 Hid Hmem Hinfo Htr Hfull) in Hrun.
      apply (IH ch (id :: seen) st1 v st' Hfull); [|exact Hrun].
      exact (I_absent ch seen st id x st1 Hfull HI Hmem Hinfo Htr).
Qed.

Lemma while_loop_keeps (fuel : nat) :
  forall ch seen st out st',
    I ch seen st ->
    while_loop w cc fuel ch seen st = (Some (Ok out), st') ->
    full out = true /\ exists seen', I out seen' st'.
Proof.
  induction fuel as [|fuel IH]; intros ch seen st out st' HI; simpl;
    destruct (full ch) eqn:Hfull; intro H; try discriminate;
    try (inversion H; subst; split; [assumption | eauto]).
  rewrite while_body_eq in H. cbv zeta in H.
  destruct (search_execute w (calls st) cc) as [response|e]; [|discriminate].
  destruct (rbind _ _) as [items|e]; [|discriminate].
  destruct (for_items w items ch seen _) as [[[ch1 seen1]|e] st1] eqn:Hfor;
    [|discriminate].
  apply (IH ch1 seen1 st1); trivial.
  apply (for_items_keeps items ch seen
           {| calls := SearchList cc :: calls st; log := log st |}
           (ch1, seen1) st1 Hfull); trivial.
  apply I_search; trivial.
Qed.

(** What a run that returns has come to: the handler, with the empty list,
    or 50 records and the invariant. *)
Lemma get_channels_from_country_keeps (fuel : nat) st out st' :
  I [] [] st ->
  get_channels_from_country w fuel cc st = (Some out, st') ->
  (out = []
   /\ exists e st1,
       while_loop w cc fuel [] [] st = (Some (Raise e), st1)
       /\ st' = {| calls := calls st1;
                   log := {| lvl := ERROR;
                             text := "Error getting channels from " ++ cc ++ ": ";
                             cause := Some e |} :: log st1 |})
  \/ (full out = true
      /\ while_loop w cc fuel [] [] st = (Some (Ok out), st')
      /\ exists seen, I out seen st').
Proof.
  intros HI. unfold get_channels_from_country.
  destruct (while_loop w cc fuel [] [] st) as [[[o|e]|] st1] eqn:Hloop;
    intro H; inversion H; subst.
  - right. destruct (while_loop_keeps fuel [] [] st out st' HI Hloop).
    auto.
  - left. split; trivial. exists e, st1. auto.
Qed.

End Invariant.

(** ** The search finds a match when there is one *)

Lemma strip_prefix_same (p rest : list ascii) :
  strip_prefix p (p ++ rest) = Some rest.
Proof.
  induction p as [|a p IH]; simpl; trivial.
  rewrite Ascii.eqb_refl. exact IH.
Qed.

Lemma rep_complete (R : Type) cls (k : cont R) (m : list ascii) :
  forall lo hi prev rest,
    Forall (fun c => cls c = true) m ->
    (lo <= length m)%nat ->
    match hi with Some h => (length m <= h)%nat | None => True end ->
    k (last_char prev m) rest <> None ->
    rep cls lo hi prev (m ++ rest) k <> None.
Proof.
  induction m as [|c m IH]; intros lo hi prev rest Hall Hlo Hhi Hk.
  - simpl in Hlo. assert (lo = 0%nat) by lia. subst lo.
    simpl. destruct rest as [|c rest]; simpl; trivial.
    destruct (cls c && under hi)%bool; trivial.
    destruct (rep cls 0 (dec hi) (Some c) rest k); [discriminate | trivial].
  - inversion Hall as [|? ? Hc Hm]; subst. simpl.
    assert (Hu : under hi = true).
    { destruct hi as [[|h]|]; simpl in *; trivial. lia. }
    rewrite Hc, Hu. simpl.
    assert (Hrec : rep cls (Nat.pred lo) (dec hi) (Some c) (m ++ rest) k
                   <> None).
    { apply IH; trivial.
      - simpl in Hlo. lia.
      - destruct hi as [h|]; simpl in *; trivial. lia.
      - rewrite (last_char_cons prev c m) in Hk. exact Hk. }
    destruct (rep cls (Nat.pred lo) (dec hi) (Some c) (m ++ rest) k);
      [discriminate | contradiction].
Qed.

(** The matcher answers whenever a match leads to an answer of the
    continuation. *)
Lemma bt_complete (r : regex) :
  forall (R : Type) prev m rest (k : cont R),
    matches r prev m rest ->
    k (last_char prev m) rest <> None ->
    bt r prev (m ++ rest) k <> None.
Proof.
  induction r as [t|r1 IH1 r2 IH2|r1 IH1 r2 IH2|r1 IH1|cls lo hi|r1 IH1|];
    intros R prev m rest k; cbn [matches bt].
  - intros -> Hk. rewrite strip_prefix_same. exact Hk.
  - intros (m1 & m2 & -> & H1 & H2) Hk. rewrite <- app_assoc.
    apply IH1; trivial. apply IH2; trivial. rewrite last_char_app. exact Hk.
  - intros [H|H] Hk.
    + pose proof (IH1 R prev m rest k H Hk).
      destruct (bt r1 prev (m ++ rest) k); [discriminate | contradiction].
    + destruct (bt r1 prev (m ++ rest) k); [discriminate|]. now apply IH2.
  - intros [H| ->] Hk.
    + pose proof (IH1 R prev m rest k H Hk).
      destruct (bt r1 prev (m ++ rest) k); [discriminate | contradiction].
    + simpl in *. destruct (bt r1 prev rest k); [discriminate | exact Hk].
  - intros (Hall & Hlo & Hhi) Hk. now apply rep_complete.
  - intros [-> Hla] Hk. simpl in *. rewrite Hla. exact Hk.
  - intros [-> Hb] Hk. simpl in *. rewrite Hb. exact Hk.
Qed.

Lemma match_here_complete (r : regex) prev m rest :
  matches r prev m rest -> match_here r prev (m ++ rest) <> None.
Proof.
  intro H. unfold match_here.
  pose proof (bt_complete r (list ascii) prev m rest
                (fun _ rest => Some rest) H) as Hbt.
  destruct (bt r prev (m ++ rest) _); [discriminate|].
  exfalso. apply Hbt; [discriminate | reflexivity].
Qed.

Lemma last_char_snoc (prev : option ascii) pre c :
  last_char prev (pre ++ [c]) = Some c.
Proof. unfold last_char. rewrite rev_app_distr. reflexivity. Qed.

(** The search answers with the match at the first position that has
    one. *)
Lemma search_from_leftmost (r : regex) (s : list ascii) :
  forall prev m,
    search_from r prev s = Some m ->
    exists pre post,
      s = (pre ++ m ++ post)%list
      /\ match_here r (last_char prev pre) (m ++ post) = Some m
      /\ forall pre1 suf,
          pre = (pre1 ++ suf)%list -> suf <> [] ->
          match_here r (last_char prev pre1) (suf ++ m ++ post) = None.
Proof.
  assert (Hhere : forall prev t m,
             match_here r prev t = Some m ->
             exists pre post,
               t = (pre ++ m ++ post)%list
               /\ match_here r (last_char prev pre) (m ++ post) = Some m
               /\ forall pre1 suf,
                   pre = (pre1 ++ suf)%list -> suf <> [] ->
                   match_here r (last_char prev pre1) (suf ++ m ++ post)
                   = None).
  { intros prev t m H. pose proof H as H'. apply match_here_sound in H'.
    destruct H' as (rest & -> & _). exists [], rest.
    split; [reflexivity|]. split; [exact H|].
    intros pre1 suf E. apply eq_sym, app_eq_nil in E. tauto. }
  induction s as [|c s IH]; intros prev m; simpl.
  - destruct (match_here r prev []) as [m'|] eqn:H; [|discriminate].
    intro E; inversion E; subst m'. now apply Hhere.
  - destruct (match_here r prev (c :: s)) as [m'|] eqn:H.
    + intro E; inversion E; subst m'. now apply Hhere.
    + intro E. apply IH in E.
      destruct E as (pre & post & Hs & Hm & Hearlier).
      exists (c :: pre), post. split; [rewrite Hs; reflexivity|].
      split; [rewrite last_char_cons; exact Hm|].
      intros pre1 suf E Hsuf. destruct pre1 as [|c1 pre1]; simpl in E.
      * subst suf. simpl. rewrite <- Hs. exact H.
      * inversion E; subst c1. rewrite last_char_cons.
        now apply Hearlier.
Qed.

(** The search answers nothing only when no position has a match. *)
Lemma search_from_none (r : regex) (s : list ascii) :
  forall prev,
    search_from r prev s = None ->
    forall pre suf,
      s = (pre ++ suf)%list ->
      match_here r (last_char prev pre) suf = None.
Proof.
  induction s as [|c s IH]; intros prev; simpl.
  - destruct (match_here r prev []) eqn:H; [discriminate|].
    intros _ pre suf E. apply eq_sym, app_eq_nil in E.
    destruct E; subst. exact H.
  - destruct (match_here r prev (c :: s)) eqn:H; [discriminate|].
    intros E pre suf Hs. destruct pre as [|c1 pre]; simpl in Hs.
    + subst suf. exact H.
    + inversion Hs; subst. rewrite last_char_cons. now apply IH.
Qed.

(** ** The two fields of [extract_contact_info] *)

Lemma email_match_shape (prev : option ascii) (m post : list ascii) :
  matches email_pattern prev m post ->
  email_shaped m
  /\ at_boundary prev (m ++ post) = true
  /\ at_boundary (last_char prev m) post = true.
Proof.
  unfold email_pattern. cbn [matches].
  intros (m1 & r1 & -> & [-> Hb1] & m2 & r2 & -> & (Hl & Hll & _)
          & m3 & r3 & -> & -> & m4 & r4 & -> & (Hd & Hdl & _)
          & m5 & r5 & -> & -> & m6 & m7 & -> & (Ht & Htl & Hth)
          & [-> Hb2]).
  rewrite !last_char_app in Hb2. simpl in Hb1, Hb2 |- *.
  rewrite app_nil_r in *.
  split; [|split].
  - exists m2, m4, m6. unfold chars.
    split; [reflexivity|].
    split; [intros ->; simpl in Hll; lia|]. split; [exact Hl|].
    split; [intros ->; simpl in Hdl; lia|]. split; [exact Hd|].
    split; [exact Ht | lia].
  - rewrite <- !app_assoc in Hb1. rewrite <- !app_assoc. exact Hb1.
  - exact Hb2.
Qed.

Lemma email_shaped_has_at (m : list ascii) :
  email_shaped m -> In "@"%char m.
Proof.
  intros (l & dm & t & -> & _). rewrite !in_app_iff. simpl. tauto.
Qed.

Lemma website_match_shaped (prev : option ascii) (m post : list ascii) :
  matches website_pattern prev m post -> website_shaped m.
Proof.
  intro H. apply website_match_shape in H.
  destruct H as (sch & www & cs & p & -> & Hs & Hw & Hall & Hlen & _).
  exists (www ++ cs)%list.
  split; [destruct Hs as [->| ->]; simpl; auto|].
  split.
  - intro E. apply app_eq_nil in E. destruct E as [_ ->]. simpl in Hlen. lia.
  - apply Forall_app. split; trivial.
    destruct Hw as [->| ->]; unfold chars; simpl;
      repeat (constructor; [reflexivity|]); constructor.
Qed.

Lemma not_email_shaped_sentinel : ~ email_shaped (chars "N/A").
Proof.
  intro H. apply email_shaped_has_at in H. simpl in H.
  intuition discriminate.
Qed.

Lemma not_website_shaped_sentinel : ~ website_shaped (chars "N/A").
Proof.
  intros (rest & [H|H] & _); discriminate.
Qed.

(** What a field holds: the sentinel when the search finds nothing, and
    never the sentinel when it finds something. *)
Lemma email_field_cases (d : string) :
  (re_search email_pattern d = None
   /\ email (extract_contact_info d) = "N/A")
  \/ (re_search email_pattern d = Some (email (extract_contact_info d))
      /\ email (extract_contact_info d) <> "N/A").
Proof.
  unfold extract_contact_info. simpl.
  destruct (re_search email_pattern d) as [g|] eqn:E; [right | left; auto].
  split; trivial. intros ->.
  apply re_search_sound in E.
  destruct E as (pre & m & post & prev & _ & Hg & Hm & _).
  apply email_match_shape in Hm. destruct Hm as [Hm _].
  apply not_email_shaped_sentinel.
  rewrite Hg. unfold chars. rewrite list_ascii_of_string_of_list_ascii.
  exact Hm.
Qed.

Lemma website_field_cases (d : string) :
  (re_search website_pattern d = None
   /\ website (extract_contact_info d) = "N/A")
  \/ (re_search website_pattern d = Some (website (extract_contact_info d))
      /\ website (extract_contact_info d) <> "N/A").
Proof.
  unfold extract_contact_info. simpl.
  destruct (re_search website_pattern d) as [g|] eqn:E; [right | left; auto].
  split; trivial. intros ->.
  apply re_search_sound in E.
  destruct E as (pre & m & post & prev & _ & Hg & Hm & _).
  apply website_match_shaped in Hm.
  apply not_website_shaped_sentinel.
  rewrite Hg. unfold chars. rewrite list_ascii_of_string_of_list_ascii.
  exact Hm.
Qed.

(** [re.search] in terms of the text: where the match is, that it is a
    match there, and that no earlier position has one. *)
Lemma re_search_found (r : regex) (text g : string) :
  re_search r text = Some g ->
  exists pre post,
    chars text = (pre ++ chars g ++ post)%list
    /\ matches r (last_char None pre) (chars g) post
    /\ bt r (last_char None pre) (chars g ++ post) final = Some post
    /\ ~ occurs_before r text (length pre).
Proof.
  unfold re_search, chars.
  destruct (search_from r None (list_ascii_of_string text)) as [m|] eqn:H;
    [|discriminate].
  intro E; inversion E; subst g; clear E.
  rewrite list_ascii_of_string_of_list_ascii.
  apply search_from_leftmost in H.
  destruct H as (pre & post & Hs & Hm & Hearlier).
  exists pre, post. split; [exact Hs|].
  pose proof Hm as Hm'. apply match_here_sound in Hm'.
  destruct Hm' as (rest & Hrest & Hmatch & Hbt).
  apply app_inv_head in Hrest. subst rest.
  split; [exact Hmatch|]. split; [exact Hbt|].
  intros (pre1 & m1 & post1 & Hs1 & Hlen & Hm1).
  unfold chars in Hs1. rewrite Hs in Hs1.
  assert (Hsplit : exists suf, pre = (pre1 ++ suf)%list /\ suf <> []
                               /\ (suf ++ m ++ post)%list = (m1 ++ post1)%list).
  { clear - Hs1 Hlen. revert pre1 Hs1 Hlen.
    induction pre as [|c pre IH]; intros pre1 Hs1 Hlen; simpl in *; [lia|].
    destruct pre1 as [|c1 pre1]; simpl in *.
    - exists (c :: pre). repeat split; [discriminate | exact Hs1].
    - inversion Hs1; subst c1.
      destruct (IH pre1) as (suf & -> & Hne & Hsuf); trivial; [lia|].
      exists suf. auto. }
  destruct Hsplit as (suf & Hpre & Hne & Hsuf).
  pose proof (Hearlier pre1 suf Hpre Hne) as Hnone.
  rewrite Hsuf in Hnone.
  exact (match_here_complete r _ m1 post1 Hm1 Hnone).
Qed.

Lemma re_search_none (r : regex) (text : string) :
  re_search r text = None <-> ~ occurs r text.
Proof.
  split.
  - unfold re_search, chars.
    destruct (search_from r None (list_ascii_of_string text)) eqn:H;
      [discriminate|].
    intros _ (pre & m & post & Hs & Hm).
    pose proof (search_from_none r _ None H pre (m ++ post)%list Hs) as Hnone.
    exact (match_here_complete r _ m post Hm Hnone).
  - intro Hno. destruct (re_search r text) as [g|] eqn:H; trivial.
    exfalso. apply Hno. apply re_search_found in H.
    destruct H as (pre & post & Hs & Hm & _).
    exists pre, (chars g), post. auto.
Qed.

(** X1. An email that is not the sentinel is a piece of the description,
    made of a local part, an at-sign, a domain, a dot and a last label of
    2 to 7 letters or bars; it begins and ends at a word boundary, and no
    match of the pattern begins before it. *)
Theorem email_field_is_first_shaped_piece (d : string) :
  email (extract_contact_info d) <> "N/A" ->
  exists pre post,
    chars d = (pre ++ chars (email (extract_contact_info d)) ++ post)%list
    /\ email_shaped (chars (email (extract_contact_info d)))
    /\ at_boundary (last_char None pre)
                   (chars (email (extract_contact_info d)) ++ post) = true
    /\ at_boundary (last_char (last_char None pre)
                              (chars (email (extract_contact_info d))))
                   post = true
    /\ ~ occurs_before email_pattern d (length pre).
Proof.
  intro Hne. destruct (email_field_cases d) as [[_ H] | [H _]];
    [contradiction|].
  apply re_search_found in H. destruct H as (pre & post & Hs & Hm & _ & Hfirst).
  exists pre, post. apply email_match_shape in Hm.
  destruct Hm as (Hshape & Hb1 & Hb2). auto.
Qed.

(** The email of the example is found after 14 characters of text. *)
Lemma email_field_witness :
  email (extract_contact_info "contact me at a@b.com") <> "N/A"
  /\ exists pre post,
      chars "contact me at a@b.com"
      = (pre ++ chars (email (extract_contact_info "contact me at a@b.com"))
             ++ post)%list
      /\ email_shaped
           (chars (email (extract_contact_info "contact me at a@b.com"))).
Proof.
  assert (H : email (extract_contact_info "contact me at a@b.com") <> "N/A")
    by (vm_compute; discriminate).
  split; [exact H|].
  destruct (email_field_is_first_shaped_piece _ H)
    as (pre & post & H1 & H2 & _).
  exists pre, post. auto.
Defined.

(** X2. A website that is not the sentinel is a piece of the description
    that begins with [http://] or [https://], goes on with at least one
    character, none of them whitespace, an angle bracket or a double
    quote, and ends where the text ends or such a character stands; no
    match of the pattern begins before it. *)
Theorem website_field_is_first_shaped_piece (d : string) :
  website (extract_contact_info d) <> "N/A" ->
  exists pre post,
    chars d = (pre ++ chars (website (extract_contact_info d)) ++ post)%list
    /\ website_shaped (chars (website (extract_contact_info d)))
    /\ stops_at url_char post
    /\ ~ occurs_before website_pattern d (length pre).
Proof.
  intro Hne. destruct (website_field_cases d) as [[_ H] | [H _]];
    [contradiction|].
  apply re_search_found in H.
  destruct H as (pre & post & Hs & Hm & Hbt & Hfirst).
  exists pre, post. split; [exact Hs|].
  split; [exact (website_match_shaped _ _ _ Hm)|]. split; [|exact Hfirst].
  unfold website_pattern in Hbt.
  do 5 (apply bt_cat in Hbt; destruct Hbt as (? & ? & Hbt)).
  cbn [bt] in Hbt. eapply rep_maximal; eauto.
Qed.

(** The website of a text that goes on after it. *)
Lemma website_field_witness :
  website (extract_contact_info "visit https://example.org now") <> "N/A"
  /\ exists pre post,
      chars "visit https://example.org now"
      = (pre ++ chars (website (extract_contact_info
                                  "visit https://example.org now"))
             ++ post)%list
      /\ stops_at url_char post.
Proof.
  assert (H : website (extract_contact_info "visit https://example.org now")
              <> "N/A") by (vm_compute; discriminate).
  split; [exact H|].
  destruct (website_field_is_first_shaped_piece _ H)
    as (pre & post & H1 & _ & H2 & _).
  exists pre, post. auto.
Defined.

(** X3. Each field is the sentinel exactly when the description has no
    match of its pattern at any position: a match that exists is never
    missed. *)
Theorem contact_sentinel_iff_no_match (d : string) :
  (email (extract_contact_info d) = "N/A" <-> ~ occurs email_pattern d)
  /\ (website (extract_contact_info d) = "N/A"
      <-> ~ occurs website_pattern d).
Proof.
  split.
  - destruct (email_field_cases d) as [[H1 H2] | [H1 H2]].
    + split; [intros _; now apply re_search_none | auto].
    + split; [contradiction|]. intro Hno. apply re_search_none in Hno.
      congruence.
  - destruct (website_field_cases d) as [[H1 H2] | [H1 H2]].
    + split; [intros _; now apply re_search_none | auto].
    + split; [contradiction|]. intro Hno. apply re_search_none in Hno.
      congruence.
Qed.

(** ** What a run returns *)

Lemma shape_record_contact (id : hval) (v : pyval) (r : ChannelRecord) :
  shape_record id v = Ok r ->
  channelId r = id
  /\ exists d,
      method_get v "description" (PStr "") = Ok (PStr d)
      /\ rec_email r = email (extract_contact_info d)
      /\ rec_website r = website (extract_contact_info d).
Proof.
  unfold shape_record, rbind, call_extract_contact_info.
  destruct (method_get v "description" (PStr "")) as [x|]; [|discriminate].
  destruct x; try discriminate.
  repeat match goal with
         | |- context [match ?x with Ok _ => _ | Raise _ => _ end] =>
             destruct x; [|discriminate]
         end.
  intro H. inversion H; subst; simpl. split; trivial. eauto.
Qed.

Lemma full_true_length (channels : list ChannelRecord) :
  full channels = true <-> (50 <= length channels)%nat.
Proof. unfold full. apply Nat.leb_le. Qed.

Lemma subseq_nil_l {A : Type} (l : list A) : subseq [] l.
Proof. induction l; constructor; trivial. Qed.

Lemma subseq_app {A : Type} (a b c d : list A) :
  subseq a b -> subseq c d -> subseq (a ++ c) (b ++ d).
Proof.
  induction 1 as [|x l1 l2 _ IH|x l1 l2 _ IH]; intro Hcd; simpl.
  - exact Hcd.
  - apply subseq_skip. auto.
  - apply subseq_take. auto.
Qed.

Lemma subseq_rev {A : Type} (a b : list A) :
  subseq a b -> subseq (rev a) (rev b).
Proof.
  induction 1 as [|x l1 l2 _ IH|x l1 l2 _ IH]; simpl.
  - constructor.
  - rewrite <- (app_nil_r (rev l1)). apply subseq_app; trivial.
    apply subseq_skip, subseq_nil.
  - apply subseq_app; trivial. apply subseq_take, subseq_nil.
Qed.

Lemma while_loop_fuel (w : World) cc (fuel : nat) :
  forall ch seen st r st' k,
    while_loop w cc fuel ch seen st = (Some r, st') ->
    while_loop w cc (fuel + k) ch seen st = (Some r, st').
Proof.
  induction fuel as [|fuel IH]; intros ch seen st r st' k; simpl.
  - destruct (full ch) eqn:Hfull; [|discriminate].
    intro H. destruct k; simpl; rewrite Hfull; exact H.
  - destruct (full ch) eqn:Hfull; trivial.
    destruct (while_body w cc ch seen st) as [[[ch1 seen1]|e] st1]; trivial.
    apply IH.
Qed.

(** Hits that have all been seen are passed over. *)
Lemma for_items_seen_prefix (w : World) pre items channels seen st :
  all_seen pre seen ->
  for_items w (pre ++ items) channels seen st
  = for_items w items channels seen st.
Proof.
  induction 1 as [|item rest (id & Hid & Hmem) _ IH]; trivial.
  simpl app.
  rewrite (for_items_skip w item (rest ++ items) channels seen st id Hid Hmem).
  exact IH.
Qed.

(** A run whose turn number [n + 1] raises [e] in state [st1]. *)
Lemma run_aborts (w : World) cc n st0 v st e st1 fuel :
  turns w cc n ([], []) st0 v st ->
  full (fst v) = false ->
  while_body w cc (fst v) (snd v) st = (Raise e, st1) ->
  (n < fuel)%nat ->
  get_channels_from_country w fuel cc st0
  = (Some [],
     {| calls := calls st1;
        log := {| lvl := ERROR;
                  text := "Error getting channels from " ++ cc ++ ": ";
                  cause := Some e |} :: log st1 |}).
Proof.
  intros Hturns Hfull Hbody Hlt. unfold get_channels_from_country.
  replace fuel with (n + S (fuel - n - 1))%nat by lia.
  rewrite (while_loop_turns w cc n _ _ _ _ Hturns).
  rewrite (while_loop_raises w cc _ _ _ _ e st1 Hfull Hbody).
  reflexivity.
Qed.

(** X4. All or nothing: the list returned has exactly 50 records, or it
    is empty and the last line of the log is the error of the handler. A
    source with fewer than 50 admissible channels never yields a partial
    list. *)
Theorem discovery_returns_fifty_or_nothing
        (w : World) (fuel : nat) (cc : string) (st : state)
        (out : list ChannelRecord) (st' : state) :
  get_channels_from_country w fuel cc st = (Some out, st') ->
  length out = 50%nat
  \/ (out = []
      /\ exists e older,
          log st' = {| lvl := ERROR;
                       text := "Error getting channels from " ++ cc ++ ": ";
                       cause := Some e |} :: older).
Proof.
  intro H.
  apply (get_channels_from_country_keeps w cc
           (fun ch _ _ => (length ch <= 50)%nat)) in H.
  - destruct H as [(-> & e & st1 & _ & ->) | (Hfull & _ & _ & Hlen)].
    + right. split; trivial. exists e, (log st1). reflexivity.
    + left. apply full_true_length in Hfull. lia.
  - trivial.
  - trivial.
  - intros ch seen s id v s1 r Hfull Hlen _ _ _ _.
    apply full_false_length in Hfull. rewrite length_app. simpl. lia.
  - simpl. lia.
Qed.

(** Fifty records from one world, none from another. *)
Lemma discovery_returns_fifty_or_nothing_witness :
  (exists out st',
      get_channels_from_country
        (fifty_world (channel_page full_snippet (stats "100" "5" "7")))
        1 "US" initial = (Some out, st')
      /\ length out = 50%nat)
  /\ exists st',
      get_channels_from_country quota_world 2 "US" initial = (Some [], st').
Proof.
  split.
  - do 2 eexists. split; [vm_compute; reflexivity|].
    match goal with
    | |- length ?o = _ =>
        destruct (discovery_returns_fifty_or_nothing
                    (fifty_world (channel_page full_snippet
                                               (stats "100" "5" "7")))
                    1 "US" initial o _ ltac:(vm_compute; reflexivity))
          as [H | [H _]]; [exact H | discriminate H]
    end.
  - eexists. vm_compute. reflexivity.
Defined.

(** X5. The loop stops at once: when records are returned, the last
    request of the run is the request for the metadata of the channel of
    the last record. Nothing is asked of the platform after the fiftieth
    record. *)
Theorem discovery_stops_at_fiftieth_record
        (w : World) (fuel : nat) (cc : string) (st : state)
        (out : list ChannelRecord) (st' : state) :
  get_channels_from_country w fuel cc st = (Some out, st') ->
  out <> [] ->
  exists earlier r older,
    out = (earlier ++ [r])%list
    /\ calls st' = ChannelsList (channelId r) :: older.
Proof.
  intros H Hne.
  apply (get_channels_from_country_keeps w cc
           (fun ch _ s =>
              full ch = true ->
              exists earlier r older,
                ch = (earlier ++ [r])%list
                /\ calls s = ChannelsList (channelId r) :: older)) in H.
  - destruct H as [(-> & _) | (Hfull & _ & _ & HI)]; [contradiction | auto].
  - intros ch seen s Hfull _ Hfull'. congruence.
  - intros ch seen s id v s1 Hfull _ _ _ _ Hfull'. congruence.
  - intros ch seen s id v s1 r Hfull _ _ Hinfo _ Hrec _.
    destruct (get_channel_info_returns w id s) as (v' & s' & Hinfo' & Hcalls).
    rewrite Hinfo in Hinfo'. inversion Hinfo'; subst v' s'.
    destruct (shape_record_contact id v r Hrec) as [Hid _].
    exists ch, r, (calls s). rewrite Hid. auto.
  - intro Hfull. discriminate.
Qed.

(** The fiftieth channel of the page is the last one asked about. *)
Lemma discovery_stops_witness :
  exists out st' earlier r older,
    get_channels_from_country
      (fifty_world (channel_page full_snippet (stats "100" "5" "7")))
      1 "US" initial = (Some out, st')
    /\ out = (earlier ++ [r])%list
    /\ calls st' = ChannelsList (channelId r) :: older
    /\ channelId r = HStr "UC49".
Proof.
  pose (p := get_channels_from_country
               (fifty_world (channel_page full_snippet (stats "100" "5" "7")))
               1 "US" initial).
  assert (Hp : get_channels_from_country
                 (fifty_world (channel_page full_snippet (stats "100" "5" "7")))
                 1 "US" initial = p) by reflexivity.
  vm_compute in p. unfold p in Hp. clear p.
  match type of Hp with
  | _ = (Some ?o, ?s) =>
      destruct (discovery_stops_at_fiftieth_record _ _ _ _ o s Hp
                  ltac:(discriminate)) as (earlier & r & older & Ho & Hc);
      exists o, s, earlier, r, older
  end.
  split; [exact Hp|]. split; [exact Ho|]. split; [exact Hc|].
  simpl in Hc. inversion Hc. reflexivity.
Defined.

(** X6. The records come in the order of admission: their ids, in the
    order of the list, are some of the ids the metadata collaborator was
    asked about, in the order of the requests. *)
Theorem records_in_order_of_requests
        (w : World) (fuel : nat) (cc : string) (st : state)
        (out : list ChannelRecord) (st' : state) :
  get_channels_from_country w fuel cc st = (Some out, st') ->
  exists delta,
    calls st' = (delta ++ calls st)%list
    /\ subseq (map channelId out) (rev (metadata_ids delta)).
Proof.
  intro H. pose proof H as H'.
  apply (get_channels_from_country_keeps w cc
           (fun ch seen s =>
              subseq (rev (map channelId ch)) seen
              /\ exists delta, calls s = (delta ++ calls st)%list
                               /\ metadata_ids delta = seen)) in H.
  - destruct H as [(-> & _) | (_ & _ & seen & Hsub & delta & Hc & Hm)].
    + apply get_channels_from_country_inv in H'.
      destruct H' as (seen & (_ & delta & Hc & _) & _).
      exists delta. split; [exact Hc|]. apply subseq_nil_l.
    + exists delta. split; [exact Hc|]. rewrite Hm.
      rewrite <- (rev_involutive (map channelId out)).
      now apply subseq_rev.
  - intros ch seen s _ (Hsub & delta & Hc & Hm). split; trivial.
    exists (SearchList cc :: delta). simpl. rewrite Hc. auto.
  - intros ch seen s id v s1 _ (Hsub & delta & Hc & Hm) _ Hinfo _.
    destruct (get_channel_info_returns w id s) as (v' & s' & Hinfo' & Hcalls).
    rewrite Hinfo in Hinfo'. inversion Hinfo'; subst v' s'.
    split; [now apply subseq_skip|].
    exists (ChannelsList id :: delta). simpl. rewrite Hcalls, Hc, Hm. auto.
  - intros ch seen s id v s1 r _ (Hsub & delta & Hc & Hm) _ Hinfo _ Hrec.
    destruct (get_channel_info_returns w id s) as (v' & s' & Hinfo' & Hcalls).
    rewrite Hinfo in Hinfo'. inversion Hinfo'; subst v' s'.
    destruct (shape_record_contact id v r Hrec) as [Hid _].
    split.
    + rewrite map_app, rev_app_distr. simpl. rewrite Hid.
      now apply subseq_take.
    + exists (ChannelsList id :: delta). simpl. rewrite Hcalls, Hc, Hm. auto.
  - split; [constructor|]. exists []. auto.
Qed.

(** The fifty records of a page come in the order of the page. *)
Lemma records_in_order_witness :
  exists out st' delta,
    get_channels_from_country
      (fifty_world (channel_page full_snippet (stats "100" "5" "7")))
      1 "US" initial = (Some out, st')
    /\ calls st' = (delta ++ [])%list
    /\ subseq (map channelId out) (rev (metadata_ids delta)).
Proof.
  pose (p := get_channels_from_country
               (fifty_world (channel_page full_snippet (stats "100" "5" "7")))
               1 "US" initial).
  assert (Hp : get_channels_from_country
                 (fifty_world (channel_page full_snippet (stats "100" "5" "7")))
                 1 "US" initial = p) by reflexivity.
  vm_compute in p. unfold p in Hp. clear p.
  match type of Hp with
  | _ = (Some ?o, ?s) =>
      destruct (records_in_order_of_requests _ _ _ _ o s Hp)
        as (delta & Hc & Hsub);
      exists o, s, delta
  end.
  auto.
Defined.

Lemma email_field_shaped (d : string) :
  email (extract_contact_info d) = "N/A"
  \/ email_shaped (chars (email (extract_contact_info d))).
Proof.
  destruct (email_field_cases d) as [[_ H] | [H _]]; [auto | right].
  apply re_search_found in H. destruct H as (pre & post & _ & Hm & _).
  now apply email_match_shape in Hm.
Qed.

Lemma website_field_shaped (d : string) :
  website (extract_contact_info d) = "N/A"
  \/ website_shaped (chars (website (extract_contact_info d))).
Proof.
  destruct (website_field_cases d) as [[_ H] | [H _]]; [auto | right].
  apply re_search_found in H. destruct H as (pre & post & _ & Hm & _).
  now apply website_match_shaped in Hm.
Qed.

(** X7. In every record returned, the email is the sentinel or has the
    shape of an email, and the website is the sentinel or begins with
    [http://] or [https://] and has no whitespace, angle bracket or double
    quote. *)
Theorem returned_contacts_are_sentinel_or_shaped
        (w : World) (fuel : nat) (cc : string) (st : state)
        (out : list ChannelRecord) (st' : state) :
  get_channels_from_country w fuel cc st = (Some out, st') ->
  Forall (fun r =>
            (rec_email r = "N/A" \/ email_shaped (chars (rec_email r)))
            /\ (rec_website r = "N/A"
                \/ website_shaped (chars (rec_website r)))) out.
Proof.
  intro H.
  apply (get_channels_from_country_keeps w cc
           (fun ch _ _ =>
              Forall (fun r =>
                        (rec_email r = "N/A"
                         \/ email_shaped (chars (rec_email r)))
                        /\ (rec_website r = "N/A"
                            \/ website_shaped (chars (rec_website r)))) ch))
    in H.
  - destruct H as [(-> & _) | (_ & _ & _ & HI)]; [constructor | exact HI].
  - trivial.
  - trivial.
  - intros ch seen s id v s1 r _ HI _ _ _ Hrec.
    apply Forall_app. split; trivial. constructor; [|constructor].
    destruct (shape_record_contact id v r Hrec) as (_ & d & _ & -> & ->).
    split; [apply email_field_shaped | apply website_field_shaped].
  - constructor.
Qed.

(** The fifty records made of the full snippet. *)
Lemma returned_contacts_witness :
  exists out st',
    get_channels_from_country
      (fifty_world (channel_page full_snippet (stats "100" "5" "7")))
      1 "US" initial = (Some out, st')
    /\ Forall (fun r =>
                 (rec_email r = "N/A" \/ email_shaped (chars (rec_email r)))
                 /\ (rec_website r = "N/A"
                     \/ website_shaped (chars (rec_website r)))) out
    /\ map rec_email (firstn 1 out) = ["a@b.com"].
Proof.
  do 2 eexists. split; [vm_compute; reflexivity|]. split; [|reflexivity].
  eapply (returned_contacts_are_sentinel_or_shaped
            (fifty_world (channel_page full_snippet (stats "100" "5" "7")))
            1 "US" initial).
  vm_compute; reflexivity.
Defined.

(** The fuel bounds the turns of the loop and nothing else: a run that
    returns with some fuel returns the same with more. *)
Lemma get_channels_from_country_fuel
      (w : World) (fuel fuel' : nat) (cc : string) (st : state)
      (out : list ChannelRecord) (st' : state) :
  get_channels_from_country w fuel cc st = (Some out, st') ->
  (fuel <= fuel')%nat ->
  get_channels_from_country w fuel' cc st = (Some out, st').
Proof.
  unfold get_channels_from_country. intros H Hle.
  replace fuel' with (fuel + (fuel' - fuel))%nat by lia.
  destruct (while_loop w cc fuel [] [] st) as [[r|] s1] eqn:Hloop.
  - rewrite (while_loop_fuel w cc fuel [] [] st r s1 _ Hloop). exact H.
  - discriminate.
Qed.

(** ** One bad item ends the run *)

Lemma subscript_str_raises (v : pyval) (k : string) (e : exn) :
  subscript_str v k = Raise e -> e = KeyError \/ e = TypeError.
Proof.
  unfold subscript_str. destruct v; try destruct (lookup k d);
    intro E; inversion E; auto.
Qed.

Lemma for_items_malformed_kind (w : World) item rest channels seen st :
  (forall id, ~ carries item id) ->
  exists e,
    (e = KeyError \/ e = TypeError)
    /\ for_items w (item :: rest) channels seen st = (Raise e, st).
Proof.
  intro H. simpl. unfold bind, lift, carries in *.
  destruct (subscript_str item "snippet") as [sn|e] eqn:H1.
  2:{ exists e. split; trivial. exact (subscript_str_raises _ _ _ H1). }
  destruct (subscript_str sn "channelId") as [x|e] eqn:H2.
  2:{ exists e. split; trivial. exact (subscript_str_raises _ _ _ H2). }
  destruct (py_hash x) as [id|e] eqn:H3.
  - exfalso. apply (H id). exists sn, x. auto.
  - exists e. split; trivial. destruct x; inversion H3; auto.
Qed.

(** X9. A hit without a snippet, without a channel id, or with an id that
    cannot be hashed ends the whole run: whatever has been collected, the
    result is the empty list, and the [KeyError] or [TypeError] is logged
    by the handler of the operation. *)
Theorem malformed_hit_aborts_discovery
        (w : World) (cc : string) (n : nat) (st0 : state) (v : vars)
        (st : state) (response : pyval) (pre : list pyval) (item : pyval)
        (rest : list pyval) (fuel : nat) :
  turns w cc n ([], []) st0 v st ->
  full (fst v) = false ->
  search_execute w (calls st) cc = Ok response ->
  rbind (method_get response "items" (PList [])) py_iter
  = Ok (pre ++ item :: rest)%list ->
  all_seen pre (snd v) ->
  (forall id, ~ carries item id) ->
  (n < fuel)%nat ->
  exists e,
    (e = KeyError \/ e = TypeError)
    /\ get_channels_from_country w fuel cc st0
       = (Some [],
          {| calls := SearchList cc :: calls st;
             log := {| lvl := ERROR;
                       text := "Error getting channels from " ++ cc ++ ": ";
                       cause := Some e |} :: log st |}).
Proof.
  intros Hturns Hfull Hsearch Hitems Hpre Hbad Hlt.
  destruct (for_items_malformed_kind w item rest (fst v) (snd v)
              {| calls := SearchList cc :: calls st; log := log st |} Hbad)
    as (e & Hkind & Hfor).
  exists e. split; [exact Hkind|].
  apply (run_aborts w cc n st0 v st e
           {| calls := SearchList cc :: calls st; log := log st |} fuel
           Hturns Hfull); [|exact Hlt].
  rewrite while_body_eq. cbv zeta. rewrite Hsearch, Hitems.
  rewrite for_items_seen_prefix by exact Hpre. exact Hfor.
Qed.

(** The first hit of the page has no snippet. *)
Lemma malformed_hit_witness :
  exists e,
    (e = KeyError \/ e = TypeError)
    /\ get_channels_from_country hitless_world 1 "US" initial
       = (Some [],
          {| calls := [SearchList "US"];
             log := [{| lvl := ERROR;
                        text := "Error getting channels from US: ";
                        cause := Some e |}] |}).
Proof.
  apply (malformed_hit_aborts_discovery hitless_world "US" 0 initial
           ([], []) initial
           (PDict [("items",
                    PList [PDict [("kind", PStr "youtube#searchResult")];
                           hit "c1"])])
           [] (PDict [("kind", PStr "youtube#searchResult")])
           [hit "c1"] 1).
  - apply turns_O.
  - reflexivity.
  - reflexivity.
  - reflexivity.
  - constructor.
  - intros id (sn & x & H & _). discriminate.
  - lia.
Defined.

Lemma shape_record_description (id : hval) sn stt x :
  lookup "description" sn = Some x ->
  (forall t, x <> PStr t) ->
  shape_record id (present id sn stt) = Raise TypeError.
Proof.
  intros H Hx. unfold shape_record, present, rbind. simpl. rewrite H.
  destruct x; simpl; trivial. exfalso. exact (Hx s eq_refl).
Qed.

(** X10. An admitted channel whose description is not a string ([null],
    a number) ends the whole run: the search for contacts raises a
    [TypeError] outside the inspection, the handler of the operation logs
    it, and the result is the empty list. *)
Theorem description_not_a_string_aborts_discovery
        (w : World) (cc : string) (n : nat) (st0 : state) (v : vars)
        (st : state) (response : pyval) (pre : list pyval) (item : pyval)
        (rest : list pyval) (id : hval) (metadata : pyval)
        (sn : list (string * pyval)) (stt x : pyval) (k : Z) (fuel : nat) :
  turns w cc n ([], []) st0 v st ->
  full (fst v) = false ->
  search_execute w (calls st) cc = Ok response ->
  rbind (method_get response "items" (PList [])) py_iter
  = Ok (pre ++ item :: rest)%list ->
  all_seen pre (snd v) ->
  carries item id ->
  set_mem id (snd v) = false ->
  channels_execute w (SearchList cc :: calls st) id = Ok metadata ->
  reports_subscribers metadata k ->
  k <= 50000 ->
  first_item metadata = Ok (PDict sn, stt) ->
  lookup "description" sn = Some x ->
  (forall t, x <> PStr t) ->
  (n < fuel)%nat ->
  get_channels_from_country w fuel cc st0
  = (Some [],
     {| calls := ChannelsList id :: SearchList cc :: calls st;
        log := {| lvl := ERROR;
                  text := "Error getting channels from " ++ cc ++ ": ";
                  cause := Some TypeError |} :: log st |}).
Proof.
  intros Hturns Hfull Hsearch Hitems Hpre Hid Hmem Hex Hrep Hk Hfirst Hdesc
         Hx Hlt.
  set (st1 := {| calls := SearchList cc :: calls st; log := log st |}).
  destruct (get_channel_info_try_expected w id st1 metadata k Hex Hrep)
    as (sn' & stt' & Hfirst' & Htry).
  rewrite Hfirst in Hfirst'. inversion Hfirst'; subst sn' stt'.
  assert (Hinfo : get_channel_info w id st1
                  = (Ok (present id sn stt),
                     {| calls := ChannelsList id :: calls st1;
                        log := log st1 |})).
  { rewrite get_channel_info_eq, Htry.
    destruct (Z.gtb_spec k 50000); [lia | reflexivity]. }
  apply (run_aborts w cc n st0 v st TypeError
           {| calls := ChannelsList id :: calls st1; log := log st1 |} fuel
           Hturns Hfull); [|exact Hlt].
  rewrite while_body_eq. cbv zeta. rewrite Hsearch, Hitems.
  rewrite for_items_seen_prefix by exact Hpre.
  apply (for_items_shape_raises w item rest (fst v) (snd v) st1 id
           (present id sn stt) _ TypeError Hid Hmem Hinfo eq_refl).
  exact (shape_record_description id sn stt x Hdesc Hx).
Qed.

(** The description of the one channel is [null]. *)
Lemma description_not_a_string_witness :
  get_channels_from_country null_description_world 1 "US" initial
  = (Some [],
     {| calls := [ChannelsList (HStr "c1"); SearchList "US"];
        log := [{| lvl := ERROR;
                   text := "Error getting channels from US: ";
                   cause := Some TypeError |}] |}).
Proof.
  apply (description_not_a_string_aborts_discovery null_description_world
           "US" 0 initial ([], []) initial (search_page ["c1"]) []
           (hit "c1") [] (HStr "c1")
           (channel_page [("title", PStr "A channel"); ("description", PNone)]
                         (stats "100" "5" "7"))
           [("title", PStr "A channel"); ("description", PNone)]
           (PDict (stats "100" "5" "7")) PNone 100 1).
  - apply turns_O.
  - reflexivity.
  - reflexivity.
  - reflexivity.
  - constructor.
  - exists (PDict [("channelId", PStr "c1"); ("title", PStr "c1")]), (PStr "c1").
    repeat split.
  - reflexivity.
  - reflexivity.
  - apply reports_subscribers_channel_page. reflexivity.
  - lia.
  - reflexivity.
  - reflexivity.
  - discriminate.
  - lia.
Defined.

(** ** [get_channel_statistics] *)

Ltac run_statistics :=
  unfold get_channel_statistics, try_except, get_channel_statistics_try,
    get_channel_statistics_except, logging, bind, lift, ret in *;
  simpl in *.

Lemma get_channel_statistics_eq (executed : result pyval) id st :
  get_channel_statistics executed id st =
  match get_channel_statistics_try executed id st with
  | (Ok v, st1) => (Ok v, st1)
  | (Raise e, st1) =>
      (Ok zero_statistics,
       {| calls := calls st1; log := statistics_error_entry id e :: log st1 |})
  end.
Proof.
  unfold get_channel_statistics, try_except.
  destruct (get_channel_statistics_try executed id st) as [[v|e] st1]; trivial.
  destruct e; reflexivity.
Qed.

(** The three outcomes of the body of the [try]. *)
Lemma get_channel_statistics_try_cases (executed : result pyval) id st :
  (exists e, get_channel_statistics_try executed id st = (Raise e, st))
  \/ (get_channel_statistics_try executed id st
      = (Ok zero_statistics,
         {| calls := calls st;
            log := {| lvl := WARNING;
                      text := "No statistics found for channel " ++ py_str id;
                      cause := None |} :: log st |}))
  \/ (exists a b c,
         get_channel_statistics_try executed id st
         = (Ok (statistics_dict a b c), st)).
Proof.
  unfold get_channel_statistics_try, logging, bind, lift, ret,
    zero_statistics, statistics_dict.
  repeat split_match; eauto 10.
Qed.

Lemma stat_raises (stt : pyval) (k : string) (e : exn) :
  stat stt k = Raise e ->
  e = AttributeError \/ e = TypeError \/ e = ValueError.
Proof.
  unfold stat, rbind.
  destruct (method_get stt k (PInt 0)) as [c|e'] eqn:H.
  - intro Hi. destruct (py_int_raises c e Hi); auto.
  - intro E. inversion E; subst. destruct stt; inversion H; auto.
Qed.

(** X11. [get_channel_statistics] never raises: whatever the request
    gives, it returns a dict of three integers, and whenever it logs
    anything (a warning for no item, an error for a failure) the three are
    0. *)
Theorem get_channel_statistics_returns_three_integers
        (executed : result pyval) (id : hval) (st : state) :
  exists a b c st',
    get_channel_statistics executed id st
    = (Ok (statistics_dict a b c), st')
    /\ calls st' = calls st
    /\ (log st' = log st
        \/ exists line,
            log st' = line :: log st
            /\ lvl line <> INFO
            /\ a = 0 /\ b = 0 /\ c = 0).
Proof.
  rewrite get_channel_statistics_eq.
  destruct (get_channel_statistics_try_cases executed id st)
    as [[e ->] | [-> | (a & b & c & ->)]].
  - exists 0, 0, 0. eexists. split; [reflexivity|]. split; [reflexivity|].
    right. eexists. split; [reflexivity|]. simpl. repeat split. discriminate.
  - exists 0, 0, 0. eexists. split; [reflexivity|]. split; [reflexivity|].
    right. eexists. split; [reflexivity|]. simpl. repeat split. discriminate.
  - exists a, b, c, st. auto.
Qed.

(** X12. A response whose first item has statistics that can be read is
    returned as read, a missing field counting as 0, and nothing is
    logged. *)
Theorem get_channel_statistics_reads_the_first_item
        (response items stt : pyval) (a b c : Z) (id : hval) (st : state) :
  method_get response "items" PNone = Ok items ->
  truthy items = true ->
  first_statistics response = Ok stt ->
  stat stt "subscriberCount" = Ok a ->
  stat stt "viewCount" = Ok b ->
  stat stt "videoCount" = Ok c ->
  get_channel_statistics (Ok response) id st
  = (Ok (statistics_dict a b c), st).
Proof.
  intros Hitems Htr Hfirst Ha Hb Hc.
  revert Hfirst Ha Hb Hc. unfold first_statistics, stat, rbind.
  destruct (subscript_str response "items") as [its|] eqn:E1; [|discriminate].
  destruct (subscript_0 its) as [it|] eqn:E2; [|discriminate].
  intro E3.
  destruct (method_get stt "subscriberCount" (PInt 0)) as [c1|] eqn:E4;
    [|discriminate].
  intro Ha.
  destruct (method_get stt "viewCount" (PInt 0)) as [c2|] eqn:E5;
    [|discriminate].
  intro Hb.
  destruct (method_get stt "videoCount" (PInt 0)) as [c3|] eqn:E6;
    [|discriminate].
  intro Hc.
  run_statistics.
  rewrite Hitems. simpl. rewrite Htr. simpl. rewrite E1. simpl.
  rewrite E2. simpl. rewrite E3. simpl. rewrite E4. simpl. rewrite Ha. simpl.
  rewrite E5. simpl. rewrite Hb. simpl. rewrite E6. simpl. rewrite Hc.
  reflexivity.
Qed.

(** Two statistics given, the number of videos missing. *)
Lemma get_channel_statistics_reads_witness :
  get_channel_statistics
    (Ok (channel_page full_snippet
           [("viewCount", PStr "5"); ("subscriberCount", PStr "100")]))
    (HStr "c1") initial
  = (Ok (statistics_dict 100 5 0), initial).
Proof.
  apply (get_channel_statistics_reads_the_first_item
           (channel_page full_snippet
              [("viewCount", PStr "5"); ("subscriberCount", PStr "100")])
           (PList [PDict [("snippet", PDict full_snippet);
                          ("statistics",
                           PDict [("viewCount", PStr "5");
                                  ("subscriberCount", PStr "100")])]])
           (PDict [("viewCount", PStr "5"); ("subscriberCount", PStr "100")]));
    reflexivity.
Defined.

(** X13. One statistic that cannot be read costs the other two: the
    function logs the error and returns three zeros, also for the fields
    that were readable. *)
Theorem unreadable_statistic_zeroes_all
        (response items stt : pyval) (e : exn) (id : hval) (st : state) :
  method_get response "items" PNone = Ok items ->
  truthy items = true ->
  first_statistics response = Ok stt ->
  stat stt "subscriberCount" = Raise e
  \/ (exists a, stat stt "subscriberCount" = Ok a
                /\ stat stt "viewCount" = Raise e)
  \/ (exists a b, stat stt "subscriberCount" = Ok a
                  /\ stat stt "viewCount" = Ok b
                  /\ stat stt "videoCount" = Raise e) ->
  get_channel_statistics (Ok response) id st
  = (Ok (statistics_dict 0 0 0),
     {| calls := calls st;
        log := {| lvl := ERROR;
                  text := "Error getting statistics for " ++ py_str id ++ ": ";
                  cause := Some e |} :: log st |}).
Proof.
  intros Hitems Htr Hfirst Hbad.
  assert (Hkind : e = AttributeError \/ e = TypeError \/ e = ValueError).
  { destruct Hbad as [H | [(a & _ & H) | (a & b & _ & _ & H)]];
      exact (stat_raises _ _ _ H). }
  assert (Htry : get_channel_statistics_try (Ok response) id st
                 = (Raise e, st)).
  { revert Hfirst Hbad. unfold first_statistics, stat, rbind.
    destruct (subscript_str response "items") as [its|] eqn:E1;
      [|discriminate].
    destruct (subscript_0 its) as [it|] eqn:E2; [|discriminate].
    intros E3 Hbad.
    unfold get_channel_statistics_try, bind, lift, ret. simpl.
    rewrite Hitems. simpl. rewrite Htr. simpl. rewrite E1. simpl.
    rewrite E2. simpl. rewrite E3. simpl.
    destruct Hbad as [H | [(a & Ha & H) | (a & b & Ha & Hb & H)]].
    - destruct (method_get stt "subscriberCount" (PInt 0)); simpl;
        [rewrite H|]; inversion H; reflexivity.
    - destruct (method_get stt "subscriberCount" (PInt 0)); simpl;
        [rewrite Ha|discriminate]. simpl.
      destruct (method_get stt "viewCount" (PInt 0)); simpl;
        [rewrite H|]; inversion H; reflexivity.
    - destruct (method_get stt "subscriberCount" (PInt 0)); simpl;
        [rewrite Ha|discriminate]. simpl.
      destruct (method_get stt "viewCount" (PInt 0)); simpl;
        [rewrite Hb|discriminate]. simpl.
      destruct (method_get stt "videoCount" (PInt 0)); simpl;
        [rewrite H|]; inversion H; reflexivity. }
  rewrite get_channel_statistics_eq, Htry.
  destruct Hkind as [-> | [-> | ->]]; reflexivity.
Qed.

(** A hundred subscribers and seven videos are lost with the views. *)
Lemma unreadable_statistic_witness :
  get_channel_statistics
    (Ok (channel_page full_snippet (stats "100" "abc" "7")))
    (HStr "c1") initial
  = (Ok (statistics_dict 0 0 0),
     {| calls := [];
        log := [{| lvl := ERROR;
                   text := "Error getting statistics for c1: ";
                   cause := Some ValueError |}] |}).
Proof.
  apply (unreadable_statistic_zeroes_all
           (channel_page full_snippet (stats "100" "abc" "7"))
           (PList [PDict [("snippet", PDict full_snippet);
                          ("statistics", PDict (stats "100" "abc" "7"))]])
           (PDict (stats "100" "abc" "7")) ValueError (HStr "c1") initial);
    try reflexivity.
  right; left. exists 100. split; reflexivity.
Defined.

(** ** [save_to_json] and [main] *)

Lemma content_dump (fs : list effect) (path : string) data :
  content (Dump path data :: fs) path = Document data.
Proof. simpl. rewrite String.eqb_refl. reflexivity. Qed.

Lemma content_torn (fs : list effect) (path : string) data :
  content (Torn path data :: OpenW path :: fs) path = Partial data.
Proof. simpl. rewrite String.eqb_refl. reflexivity. Qed.

Lemma save_to_json_cases (h : Host) data filename p :
  (exists p',
      save_to_json h data filename p = (Ok tt, p')
      /\ calls (net p') = calls (net p)
      /\ disk p'
         = Dump (path_join "data/channel_info" filename) data
             :: OpenW (path_join "data/channel_info" filename)
             :: Makedirs "data/channel_info" :: disk p
      /\ log (net p')
         = {| lvl := INFO;
              text := "Successfully saved data to "
                        ++ path_join "data/channel_info" filename;
              cause := None |} :: log (net p))
  \/ (exists e p',
         save_to_json h data filename p = (Raise e, p')
         /\ calls (net p') = calls (net p)
         /\ log (net p')
            = {| lvl := ERROR;
                 text := "Error saving data to " ++ filename ++ ": ";
                 cause := Some e |} :: log (net p)
         /\ ((makedirs h (disk p) "data/channel_info" = Raise e
              /\ disk p' = disk p)
             \/ (open_w h (Makedirs "data/channel_info" :: disk p)
                        (path_join "data/channel_info" filename) = Raise e
                 /\ disk p' = Makedirs "data/channel_info" :: disk p)
             \/ (json_dump h (OpenW (path_join "data/channel_info" filename)
                                :: Makedirs "data/channel_info" :: disk p)
                           (path_join "data/channel_info" filename) data
                 = Raise e
                 /\ disk p'
                    = Torn (path_join "data/channel_info" filename) data
                        :: OpenW (path_join "data/channel_info" filename)
                        :: Makedirs "data/channel_info" :: disk p))).
Proof.
  unfold save_to_json, save_to_json_try.
  destruct (makedirs h (disk p) "data/channel_info") as [[]|e] eqn:E1.
  2:{ right. exists e. eexists. split; [reflexivity|]. auto. }
  simpl.
  destruct (open_w h _ _) as [[]|e] eqn:E2.
  2:{ right. exists e. eexists. split; [reflexivity|]. simpl. auto 6. }
  destruct (json_dump h _ _ data) as [[]|e] eqn:E3.
  2:{ right. exists e. eexists. split; [reflexivity|]. simpl. auto 7. }
  left. eexists. split; [reflexivity|]. auto.
Qed.

(** X14. [save_to_json] sends no request. Either it makes the folder,
    opens the file, writes the whole document and logs the success at
    level INFO; or it logs the error with the name of the file at level
    ERROR and raises it again. In that case the file is as it was when the
    folder or the opening failed, and otherwise it has been emptied and
    holds no more than a beginning of the document: what it held before is
    lost. *)
Theorem save_to_json_writes_or_raises
        (h : Host) (data : list ChannelRecord) (filename : string)
        (p : process) (r : result unit) (p' : process) :
  save_to_json h data filename p = (r, p') ->
  calls (net p') = calls (net p)
  /\ ((r = Ok tt
       /\ disk p'
          = Dump (path_join "data/channel_info" filename) data
              :: OpenW (path_join "data/channel_info" filename)
              :: Makedirs "data/channel_info" :: disk p
       /\ content (disk p') (path_join "data/channel_info" filename)
          = Document data
       /\ log (net p')
          = {| lvl := INFO;
               text := "Successfully saved data to "
                         ++ path_join "data/channel_info" filename;
               cause := None |} :: log (net p))
      \/ (exists e,
             r = Raise e
             /\ log (net p')
                = {| lvl := ERROR;
                     text := "Error saving data to " ++ filename ++ ": ";
                     cause := Some e |} :: log (net p)
             /\ ((makedirs h (disk p) "data/channel_info" = Raise e
                  /\ disk p' = disk p)
                 \/ (open_w h (Makedirs "data/channel_info" :: disk p)
                            (path_join "data/channel_info" filename) = Raise e
                     /\ disk p' = Makedirs "data/channel_info" :: disk p
                     /\ content (disk p')
                                (path_join "data/channel_info" filename)
                        = content (disk p)
                                  (path_join "data/channel_info" filename))
                 \/ (json_dump h
                       (OpenW (path_join "data/channel_info" filename)
                          :: Makedirs "data/channel_info" :: disk p)
                       (path_join "data/channel_info" filename) data
                     = Raise e
                     /\ disk p'
                        = Torn (path_join "data/channel_info" filename) data
                            :: OpenW (path_join "data/channel_info" filename)
                            :: Makedirs "data/channel_info" :: disk p
                     /\ content (disk p')
                                (path_join "data/channel_info" filename)
                        = Partial data)))).
Proof.
  intro H.
  destruct (save_to_json_cases h data filename p)
    as [(q & Hq & Hc & Hd & Hl) | (e & q & Hq & Hc & Hl & Hd)];
    rewrite Hq in H; inversion H; subst; split; trivial.
  - left. split; trivial. split; [exact Hd|]. split; [|exact Hl].
    rewrite Hd. apply content_dump.
  - right. exists e. split; trivial. split; [exact Hl|].
    destruct Hd as [Hd | [[Ho Hd] | [Hj Hd]]].
    + left. exact Hd.
    + right; left. split; [exact Ho|]. split; [exact Hd|].
      rewrite Hd. reflexivity.
    + right; right. split; [exact Hj|]. split; [exact Hd|].
      rewrite Hd. apply content_torn.
Qed.

(** A disk that takes the document, and one that is full and held a
    document already. *)
Lemma save_to_json_witness :
  (exists p',
      save_to_json (working_host (Some "k") three_world) [] "out.json" boot
      = (Ok tt, p')
      /\ disk p' = [Dump "data/channel_info/out.json" [];
                    OpenW "data/channel_info/out.json";
                    Makedirs "data/channel_info"])
  /\ exists p',
      save_to_json (full_disk_host three_world) [] "out.json"
                   (did (Dump "data/channel_info/out.json" []) boot)
      = (Raise (ClientError "No space left on device"), p')
      /\ content (disk (did (Dump "data/channel_info/out.json" []) boot))
                 "data/channel_info/out.json" = Document []
      /\ content (disk p') "data/channel_info/out.json" = Partial [].
Proof.
  split.
  - eexists. split; [reflexivity|].
    destruct (save_to_json_writes_or_raises
                (working_host (Some "k") three_world) [] "out.json" boot
                _ _ eq_refl) as (_ & [(_ & H & _) | (e & H & _)]);
      [exact H | discriminate H].
  - eexists. split; [reflexivity|]. split; [reflexivity|].
    destruct (save_to_json_writes_or_raises
                (full_disk_host three_world) [] "out.json"
                (did (Dump "data/channel_info/out.json" []) boot)
                _ _ eq_refl)
      as (_ & [(H & _) | (e & _ & _ & [[H _] | [[H _] | (_ & _ & H)]])]);
      [discriminate H | discriminate H | discriminate H | exact H].
Defined.

(** X15. Without an API key, missing or empty, [main] ends with a
    [ValueError] before anything else happens: no client is built, no
    request is sent, nothing is written, and the one line logged is the
    failure of the script. *)
Theorem main_without_key_does_nothing
        (h : Host) (fuel : nat) (p : process) :
  getenv_api_key h = None \/ getenv_api_key h = Some "" ->
  main h fuel p
  = (Some (Raise ValueError),
     {| net := {| calls := calls (net p);
                  log := {| lvl := ERROR;
                            text := "Script execution failed: ";
                            cause := Some ValueError |} :: log (net p) |};
        disk := disk p |}).
Proof.
  intros [H|H]; unfold main, main_try, init; rewrite H; reflexivity.
Qed.

(** The key is the empty string. *)
Lemma main_without_key_witness :
  main (working_host (Some "") three_world) 3 boot
  = (Some (Raise ValueError),
     {| net := {| calls := [];
                  log := [{| lvl := ERROR;
                             text := "Script execution failed: ";
                             cause := Some ValueError |}] |};
        disk := [] |}).
Proof.
  apply (main_without_key_does_nothing (working_host (Some "") three_world)
           3 boot).
  right. reflexivity.
Defined.

Lemma main_try_calls_save (h : Host) fuel p r p' :
  main_try h fuel p = (Some r, p') ->
  (exists e, r = Raise e /\ disk p' = disk p)
  \/ exists w st0 channels st,
      get_channels_from_country w fuel "US" st0 = (Some channels, st)
      /\ save_to_json h channels "channel_data.json"
                      {| net := st; disk := disk p |} = (r, p').
Proof.
  unfold main_try, init.
  destruct (getenv_api_key h) as [[|c key]|].
  - intro H. inversion H. left. eauto.
  - destruct (build h (String c key)) as [w|e].
    + destruct (get_channels_from_country w fuel "US" _)
        as [[channels|] st] eqn:Hrun; [|discriminate].
      destruct (save_to_json h channels "channel_data.json" _)
        as [r1 p1] eqn:Hsave.
      intro H. inversion H; subst. right. eauto 6.
    + intro H. inversion H. left. eauto.
  - intro H. inversion H. left. eauto.
Qed.

(** What the discovery hands to [save_to_json]: nothing or 50 records, no
    two of the same channel and none with more than 50000 subscribers. *)
Lemma discovery_output (w : World) fuel st0 data st :
  get_channels_from_country w fuel "US" st0 = (Some data, st) ->
  (data = [] \/ length data = 50%nat)
  /\ NoDup (map channelId data)
  /\ Forall (fun r => subscribers r <= 50000) data.
Proof.
  intro Hrun.
  pose proof Hrun as Hinv. apply get_channels_from_country_inv in Hinv.
  destruct Hinv as (seen & _ & Hch).
  destruct (Hch data eq_refl) as (Hlen & Hall & Hdis).
  split; [|split].
  - apply (get_channels_from_country_keeps w "US" (fun _ _ _ => True))
      in Hrun; trivial.
    destruct Hrun as [(-> & _) | (Hfull & _)]; [auto | right].
    apply full_true_length in Hfull. lia.
  - now apply distinct_NoDup.
  - eapply Forall_impl; [|exact Hall]. simpl. tauto.
Qed.

(** X16. When [main] ends well it has written one document, to
    [data/channel_info/channel_data.json], after making the folder and
    opening the file: an empty list or 50 records, no two of the same
    channel and none with more than 50000 subscribers. *)
Theorem main_success_writes_one_document
        (h : Host) (fuel : nat) (p p' : process) :
  main h fuel p = (Some (Ok tt), p') ->
  exists data,
    disk p'
    = Dump "data/channel_info/channel_data.json" data
        :: OpenW "data/channel_info/channel_data.json"
        :: Makedirs "data/channel_info" :: disk p
    /\ content (disk p') "data/channel_info/channel_data.json"
       = Document data
    /\ (data = [] \/ length data = 50%nat)
    /\ NoDup (map channelId data)
    /\ Forall (fun r => subscribers r <= 50000) data.
Proof.
  unfold main.
  destruct (main_try h fuel p) as [[[[]|e]|] q] eqn:Htry; intro H;
    inversion H; subst.
  destruct (main_try_calls_save h fuel p (Ok tt) p' Htry)
    as [(e & He & _) | (w & st0 & data & st & Hrun & Hsave)];
    [discriminate|].
  exists data.
  destruct (save_to_json_cases h data "channel_data.json"
              {| net := st; disk := disk p |})
    as [(q & Hq & _ & Hd & _) | (e & q & Hq & _)];
    rewrite Hq in Hsave; inversion Hsave; subst.
  split; [exact Hd|]. split; [rewrite Hd; apply content_dump|].
  exact (discovery_output w fuel st0 data st Hrun).
Qed.

(** Fifty channels found and written. *)
Lemma main_success_witness :
  exists p' data,
    main (working_host (Some "k")
            (fifty_world (channel_page full_snippet (stats "100" "5" "7"))))
         1 boot = (Some (Ok tt), p')
    /\ disk p' = [Dump "data/channel_info/channel_data.json" data;
                  OpenW "data/channel_info/channel_data.json";
                  Makedirs "data/channel_info"]
    /\ length data = 50%nat.
Proof.
  pose (m := main (working_host (Some "k")
                     (fifty_world (channel_page full_snippet
                                                (stats "100" "5" "7"))))
                  1 boot).
  assert (Hm : main (working_host (Some "k")
                       (fifty_world (channel_page full_snippet
                                                  (stats "100" "5" "7"))))
                    1 boot = m) by reflexivity.
  vm_compute in m. unfold m in Hm. clear m.
  match type of Hm with
  | _ = (_, ?q) =>
      destruct (main_success_writes_one_document _ _ _ q Hm)
        as (data & Hd & _ & Hlen & _);
      exists q, data
  end.
  split; [exact Hm|]. split; [exact Hd|].
  destruct Hlen as [-> | Hlen]; [|exact Hlen].
  simpl in Hd. inversion Hd.
Defined.

(** X17. When [main] ends with an exception, the last line of the log is
    the failure of the script with that exception, and no whole document
    has been written. Either the file system is as it was, or only the
    folder has been made, and the file holds what it held; or the writing
    of what the discovery returned, nothing or 50 records, failed on the
    way, and the file, emptied, holds no more than a beginning of that
    document. *)
Theorem main_failure_leaves_no_document
        (h : Host) (fuel : nat) (p p' : process) (e : exn) :
  main h fuel p = (Some (Raise e), p') ->
  (exists older,
      log (net p') = {| lvl := ERROR;
                        text := "Script execution failed: ";
                        cause := Some e |} :: older)
  /\ ((disk p' = disk p
       \/ disk p' = Makedirs "data/channel_info" :: disk p)
      /\ content (disk p') "data/channel_info/channel_data.json"
         = content (disk p) "data/channel_info/channel_data.json"
      \/ exists data,
          disk p'
          = Torn "data/channel_info/channel_data.json" data
              :: OpenW "data/channel_info/channel_data.json"
              :: Makedirs "data/channel_info" :: disk p
          /\ content (disk p') "data/channel_info/channel_data.json"
             = Partial data
          /\ (data = [] \/ length data = 50%nat)
          /\ NoDup (map channelId data)
          /\ Forall (fun r => subscribers r <= 50000) data).
Proof.
  unfold main.
  destruct (main_try h fuel p) as [[[[]|e1]|] q] eqn:Htry; intro H;
    inversion H; subst.
  split; [simpl; eauto|]. simpl.
  destruct (main_try_calls_save h fuel p (Raise e) q Htry)
    as [(e' & _ & Hd) | (w & st0 & data & st & Hrun & Hsave)].
  { left. rewrite Hd. auto. }
  destruct (save_to_json_cases h data "channel_data.json"
              {| net := st; disk := disk p |})
    as [(q1 & Hq & _) | (e1 & q1 & Hq & _ & _ & Hd)];
    rewrite Hq in Hsave; inversion Hsave; subst.
  simpl in Hd. destruct Hd as [[_ Hd] | [[_ Hd] | [_ Hd]]].
  - left. rewrite Hd. auto.
  - left. rewrite Hd. auto.
  - right. exists data. split; [exact Hd|].
    split; [rewrite Hd; apply content_torn|].
    exact (discovery_output w fuel st0 data st Hrun).
Qed.

(** The channels are found and the disk is full: the document of the run
    before is lost. *)
Lemma main_failure_witness :
  exists p' data,
    main (full_disk_host
            (fifty_world (channel_page full_snippet (stats "100" "5" "7"))))
         1 (did (Dump "data/channel_info/channel_data.json" []) boot)
    = (Some (Raise (ClientError "No space left on device")), p')
    /\ content (disk (did (Dump "data/channel_info/channel_data.json" []) boot))
               "data/channel_info/channel_data.json" = Document []
    /\ content (disk p') "data/channel_info/channel_data.json" = Partial data
    /\ length data = 50%nat.
Proof.
  pose (m := main (full_disk_host
                     (fifty_world (channel_page full_snippet
                                                (stats "100" "5" "7"))))
                  1 (did (Dump "data/channel_info/channel_data.json" []) boot)).
  assert (Hm : main (full_disk_host
                       (fifty_world (channel_page full_snippet
                                                  (stats "100" "5" "7"))))
                    1 (did (Dump "data/channel_info/channel_data.json" []) boot)
               = m) by reflexivity.
  vm_compute in m. unfold m in Hm. clear m.
  match type of Hm with
  | _ = (_, ?q) =>
      destruct (main_failure_leaves_no_document _ _ _ q _ Hm)
        as (_ & [[_ Hc] | (data & Hd & Hc & Hlen & _)]);
      [vm_compute in Hc; discriminate Hc | exists q, data]
  end.
  split; [exact Hm|]. split; [reflexivity|]. split; [exact Hc|].
  destruct Hlen as [-> | Hlen]; [|exact Hlen].
  simpl in Hd. inversion Hd.
Defined.

(** X18. A search that fails does not fail [main]: the discovery returns
    the empty list, which is written over the document as an empty array,
    and [main] ends well. *)
Theorem search_failure_writes_empty_document
        (h : Host) (fuel : nat) (p : process) (c : ascii) (key : string)
        (w : World) (e : exn) :
  getenv_api_key h = Some (String c key) ->
  build h (String c key) = Ok w ->
  search_execute w (calls (net p)) "US" = Raise e ->
  (forall fs path, makedirs h fs path = Ok tt) ->
  (forall fs path, open_w h fs path = Ok tt) ->
  (forall fs path data, json_dump h fs path data = Ok tt) ->
  exists p',
    main h (S fuel) p = (Some (Ok tt), p')
    /\ disk p'
       = Dump "data/channel_info/channel_data.json" []
           :: OpenW "data/channel_info/channel_data.json"
           :: Makedirs "data/channel_info" :: disk p
    /\ content (disk p') "data/channel_info/channel_data.json" = Document []
    /\ log (net p')
       = ([{| lvl := INFO;
              text := "Successfully saved data to data/channel_info/channel_data.json";
              cause := None |};
           {| lvl := ERROR;
              text := "Error getting channels from US: ";
              cause := Some e |};
           {| lvl := INFO;
              text := "Starting channel analysis for country: US";
              cause := None |}] ++ log (net p))%list.
Proof.
  intros Hkey Hbuild Hsearch Hmk Hop Hdump.
  unfold main, main_try, init. rewrite Hkey, Hbuild.
  cbv zeta.
  assert (Hrun : forall st,
             calls st = calls (net p) ->
             get_channels_from_country w (S fuel) "US" st
             = (Some [],
                {| calls := SearchList "US" :: calls st;
                   log := {| lvl := ERROR;
                             text := "Error getting channels from US: ";
                             cause := Some e |} :: log st |})).
  { intros st Hst.
    apply (run_aborts w "US" 0 st ([], []) st e
             {| calls := SearchList "US" :: calls st; log := log st |}
             (S fuel)); [apply turns_O | reflexivity | | lia].
    apply while_body_search_raises. simpl. rewrite Hst. exact Hsearch. }
  rewrite Hrun by reflexivity.
  unfold save_to_json, save_to_json_try. rewrite Hmk, Hop, Hdump.
  eexists. split; [reflexivity|]. split; [reflexivity|].
  split; reflexivity.
Qed.

(** The platform refuses the first request. *)
Lemma search_failure_writes_witness :
  exists p',
    main (working_host (Some "k") down_world) 1 boot = (Some (Ok tt), p')
    /\ disk p' = [Dump "data/channel_info/channel_data.json" [];
                  OpenW "data/channel_info/channel_data.json";
                  Makedirs "data/channel_info"].
Proof.
  destruct (search_failure_writes_empty_document
              (working_host (Some "k") down_world) 0 boot "k"%char ""
              down_world (HttpError "quotaExceeded"))
    as (p' & Hm & Hd & _); try reflexivity.
  exists p'. auto.
Defined.

(** ** The record of an admitted channel *)

(** X19. The record made of an admitted channel carries the id of the
    hit; its url is the custom URL of the snippet, or the profile URL built
    from the id when there is none; its country is that of the snippet, or
    the sentinel when there is none; and its email and website are those
    found in the description, or in the empty text when there is none. *)
Theorem record_fields_of_admitted_channel
        (w : World) (id : hval) (st : state) (response : pyval) (n : Z)
        (sn : list (string * pyval)) (stt : pyval) :
  channels_execute w (calls st) id = Ok response ->
  reports_subscribers response n ->
  n <= 50000 ->
  first_item response = Ok (PDict sn, stt) ->
  exists info,
    fst (get_channel_info w id st) = Ok info
    /\ truthy info = true
    /\ forall r,
        shape_record id info = Ok r ->
        channelId r = id
        /\ url r = match lookup "customUrl" sn with
                   | Some x => x
                   | None => PStr ("https://youtube.com/channel/" ++ py_str id)
                   end
        /\ country r = match lookup "country" sn with
                       | Some x => x
                       | None => PStr "N/A"
                       end
        /\ exists d,
            (lookup "description" sn = Some (PStr d)
             \/ (lookup "description" sn = None /\ d = ""))
            /\ rec_email r = email (extract_contact_info d)
            /\ rec_website r = website (extract_contact_info d).
Proof.
  intros Hex Hrep Hn Hfirst.
  destruct (get_channel_info_try_expected w id st response n Hex Hrep)
    as (sn' & stt' & Hfirst' & Htry).
  rewrite Hfirst in Hfirst'. inversion Hfirst'; subst sn' stt'.
  exists (present id sn stt).
  rewrite get_channel_info_eq, Htry.
  destruct (Z.gtb_spec n 50000); [lia|]. simpl.
  split; [reflexivity|]. split; [reflexivity|].
  intros r Hr.
  destruct (shape_record_present id sn stt r Hr)
    as (Hid & _ & _ & _ & _ & _ & Hu & Hc).
  destruct (shape_record_contact id _ r Hr) as (_ & d & Hd & He & Hw).
  split; [exact Hid|]. split; [exact Hu|]. split; [exact Hc|].
  exists d. split; [|auto].
  unfold present in Hd. simpl in Hd.
  destruct (lookup "description" sn) as [x|]; inversion Hd; auto.
Qed.

(** A snippet with a description and nothing else. *)
Lemma record_fields_witness :
  exists info r,
    fst (get_channel_info untitled_world (HStr "UC7") initial) = Ok info
    /\ shape_record (HStr "UC7") info = Ok r
    /\ url r = PStr "https://youtube.com/channel/UC7"
    /\ country r = PStr "N/A".
Proof.
  destruct (record_fields_of_admitted_channel untitled_world (HStr "UC7")
              initial
              (channel_page [("description", PStr "no contact here")]
                            (stats "100" "5" "7"))
              100 [("description", PStr "no contact here")]
              (PDict (stats "100" "5" "7")) eq_refl
              (reports_subscribers_channel_page _ "100" "5" "7" 100 eq_refl)
              ltac:(lia) eq_refl)
    as (info & Hinfo & _ & Hr).
  assert (E : info = present (HStr "UC7")
                             [("description", PStr "no contact here")]
                             (PDict (stats "100" "5" "7"))).
  { vm_compute in Hinfo. inversion Hinfo. reflexivity. }
  subst info.
  assert (Hs : exists r,
             shape_record (HStr "UC7")
               (present (HStr "UC7") [("description", PStr "no contact here")]
                        (PDict (stats "100" "5" "7"))) = Ok r)
    by (vm_compute; eauto).
  destruct Hs as [r Hs].
  destruct (Hr r Hs) as (_ & Hu & Hc & _).
  do 2 eexists. split; [exact Hinfo|]. split; [exact Hs|].
  split; [exact Hu | exact Hc].
Defined.

(** ** A source that has run dry, in general *)

Lemma while_loop_turns_stuck (w : World) cc n v0 st0 v st :
  turns w cc n v0 st0 v st ->
  full (fst v) = false ->
  exhausted w cc (snd v) ->
  forall fuel, fst (while_loop w cc fuel (fst v0) (snd v0) st0) = None.
Proof.
  induction 1 as [v st|n v st v1 st1 v2 st2 Hfull Hbody _ IH];
    intros Hnot Hex fuel.
  - now apply while_loop_stuck.
  - destruct fuel as [|fuel].
    + simpl. rewrite Hfull. reflexivity.
    + rewrite (while_loop_step w cc fuel _ _ _ v1 st1 Hfull Hbody).
      now apply IH.
Qed.

(** X20. Once fewer than 50 records have been collected and the search
    collaborator answers every request with a page whose hits have all
    been seen, the operation never returns: no fuel is enough. *)
Theorem exhausted_source_never_returns
        (w : World) (cc : string) (n : nat) (st0 : state) (v : vars)
        (st : state) (fuel : nat) :
  turns w cc n ([], []) st0 v st ->
  full (fst v) = false ->
  exhausted w cc (snd v) ->
  fst (get_channels_from_country w fuel cc st0) = None.
Proof.
  intros Hturns Hfull Hex. unfold get_channels_from_country.
  pose proof (while_loop_turns_stuck w cc n ([], []) st0 v st Hturns Hfull
                Hex fuel) as H.
  simpl in H.
  destruct (while_loop w cc fuel [] [] st0) as [[[?|?]|] ?];
    simpl in H; try discriminate. reflexivity.
Qed.

(** Two channels, one request for hits made: the second page is the first
    again. *)
Lemma exhausted_source_witness :
  fst (get_channels_from_country
         (constant_world ["c1"; "c2"]
            (channel_page full_snippet (stats "100" "5" "7")))
         9 "US" initial) = None.
Proof.
  pose (w := constant_world ["c1"; "c2"]
               (channel_page full_snippet (stats "100" "5" "7"))).
  pose (p := while_body w "US" [] [] initial). vm_compute in p.
  assert (H1 : while_body w "US" [] [] initial = p)
    by (vm_compute; reflexivity).
  unfold p in H1. clear p.
  match type of H1 with
  | _ = (Ok ?x, ?y) =>
      apply (exhausted_source_never_returns w "US" 1 initial x y 9)
  end.
  - eapply turns_S; [reflexivity | exact H1 | apply turns_O].
  - reflexivity.
  - apply (constant_world_exhausted ["c1"; "c2"]).
Defined.
